(** * Grading-scale crawler: validator, table interpreter, site crawler, merger

    A shallow embedding of [scripts/crawl_india_grading.py].

    - Values of type [Any] are JSON-like values ([value]); a [float] is an
      IEEE binary64 number (Rocq's primitive floats), an [int] is in [Z].
    - Text is ASCII: a [string] stands for a [str] of ASCII characters, and
      [\d], [\s], [\w], [lower] and [strip] are Python's on such text.  On
      other text Python's differ ([lower] maps some letters outside ASCII to
      ASCII ones); a property that depends on them is stated of ASCII text
      ([Text.is_ascii]).  The regular expressions of the script are terms of
      [Re.regex], run by a backtracking matcher.
    - A grading system is the dictionary [normalize_system] builds, as a
      record of its keys: [id] and [country] are strings or missing, [scale]
      and [grades], which the Validator inspects with [isinstance], are
      arbitrary values.  The catalog is a record likewise, its version a
      string.
    - The network ([fetch]) and the HTML parser ([BeautifulSoup]) are
      parameters of the crawler; a parsed page is the tables and anchors the
      script selects from it.  The date of the run is a parameter of the
      merge.
    - The exception the script catches around a conversion, [ValueError]
      from [int], [str] and [float], is the [None] of an [option]; CPython's
      limit of 4300 digits on [int(s)] and [str(n)] raises it too.  The
      exception nothing catches, [OverflowError] from [float] of an [int]
      beyond the binary64 range, is the [Raise] of a [result]: it leaves the
      Validator, the merge and [main]. *)

From Stdlib Require Import ZArith List String Ascii Bool Lia Floats Permutation.
From Stdlib Require Import DecimalString DecimalPos DecimalZ.
Import ListNotations.

Set Warnings "-inexact-float,-register-all".
Local Open Scope bool_scope.

(** ** Text: the [str] methods the script calls *)

Module Text.

Definition code (c : ascii) : N := N_of_ascii c.

Definition between (lo hi : N) (c : ascii) : bool :=
  (lo <=? code c)%N && (code c <=? hi)%N.

Definition is_digit : ascii -> bool := between 48 57.
Definition is_upper : ascii -> bool := between 65 90.
Definition is_lower : ascii -> bool := between 97 122.

(** [str.isspace] on ASCII: tab, newline, vertical tab, form feed, carriage
    return, the four separators 0x1c-0x1f and the space. *)
Definition is_space (c : ascii) : bool := between 9 13 c || between 28 32 c.

(** [\w] on ASCII. *)
Definition is_word (c : ascii) : bool :=
  is_digit c || is_upper c || is_lower c || Ascii.eqb c "_".

Definition lower_char (c : ascii) : ascii :=
  if is_upper c then ascii_of_N (code c + 32) else c.

(** [s.lower()] on ASCII text.  A character from 128 on is left as it is:
    Python's [lower] of text outside ASCII is not modelled. *)
Fixpoint lower (s : string) : string :=
  match s with
  | EmptyString => EmptyString
  | String c s' => String (lower_char c) (lower s')
  end.

(** [s.startswith(p)] *)
Definition startswith (s p : string) : bool := String.prefix p s.

(** [k in s] *)
Fixpoint contains (k s : string) : bool :=
  String.prefix k s ||
  match s with
  | EmptyString => false
  | String _ s' => contains k s'
  end.

(** [s.split(sep)] for a one-character separator: never the empty list. *)
Fixpoint split (sep : ascii) (s : string) : list string :=
  match s with
  | EmptyString => [EmptyString]
  | String c s' =>
      if Ascii.eqb c sep then EmptyString :: split sep s'
      else match split sep s' with
           | [] => [String c EmptyString]
           | p :: ps => String c p :: ps
           end
  end.

(** [sep.join(parts)] *)
Definition join (sep : string) (parts : list string) : string :=
  String.concat sep parts.

Fixpoint lstrip (p : ascii -> bool) (s : string) : string :=
  match s with
  | EmptyString => EmptyString
  | String c s' => if p c then lstrip p s' else s
  end.

Fixpoint rev_onto (s acc : string) : string :=
  match s with
  | EmptyString => acc
  | String c s' => rev_onto s' (String c acc)
  end.

Definition rev (s : string) : string := rev_onto s EmptyString.

Definition rstrip (p : ascii -> bool) (s : string) : string :=
  rev (lstrip p (rev s)).

(** [s.strip()] and [s.strip(chars)], the class given as a predicate *)
Definition strip (p : ascii -> bool) (s : string) : string :=
  rstrip p (lstrip p s).

(** [x in labels] for a set or list of strings *)
Definition mem (x : string) (l : list string) : bool :=
  existsb (String.eqb x) l.

(** [any(k in s for k in keys)] *)
Definition contains_any (keys : list string) (s : string) : bool :=
  existsb (fun k => contains k s) keys.

(** Every character of [s] satisfies [p]. *)
Fixpoint all_chars (p : ascii -> bool) (s : string) : bool :=
  match s with
  | EmptyString => true
  | String c s' => p c && all_chars p s'
  end.


(** ASCII text: every character is below 128. *)
Definition is_ascii (s : string) : bool :=
  all_chars (fun c => (code c <? 128)%N) s.

(** CPython's limit on the digits that [int(s)] reads and [str(n)] writes
    ([sys.get_int_max_str_digits()], 4300 unless set otherwise). *)
Definition max_str_digits : N := 4300.

Fixpoint count_digits (s : string) : N :=
  match s with
  | EmptyString => 0
  | String c s' => ((if is_digit c then 1 else 0) + count_digits s')%N
  end.

Definition within_digit_limit (s : string) : bool :=
  (count_digits s <=? max_str_digits)%N.

(** [str(n)] for an [int]; [None] stands for [ValueError], when [n] has
    more digits than the limit. *)
Definition str_of_int (n : Z) : option string :=
  let s := NilEmpty.string_of_int (Z.to_int n) in
  if within_digit_limit s then Some s else None.

End Text.

(** ** Exceptions that nothing catches

    A call returns a value or raises [OverflowError], which the script
    catches nowhere. *)

Inductive exn : Type := OverflowError.

Inductive result (A : Type) : Type :=
| Return : A -> result A
| Raise : exn -> result A.

Arguments Return {A} _.
Arguments Raise {A} _.

(** ** Re: the fragment of Python's [re] the script uses

    A backtracking matcher in continuation-passing style: alternatives are
    tried left to right and [Star] is greedy, as in Python. *)

Module Re.

Inductive regex : Type :=
| Eps : regex
| Cls : (ascii -> bool) -> regex
| Cat : regex -> regex -> regex
| Alt : regex -> regex -> regex
| Star : regex -> regex
| Bnd : regex.

Definition word_before (prev : option ascii) : bool :=
  match prev with Some c => Text.is_word c | None => false end.

Definition word_after (s : string) : bool :=
  match s with String c _ => Text.is_word c | EmptyString => false end.

(** [\b] holds between a word character and a non-word character (or an
    end of the text). *)
Definition at_boundary (prev : option ascii) (s : string) : bool :=
  xorb (word_before prev) (word_after s).

(** [run r prev s k]: match [r] at the front of [s], [prev] being the
    character before it, and hand what is left to [k]; backtrack into [r]
    when [k] fails.  An iteration of [Star] must consume a character. *)
Fixpoint run {A : Type} (r : regex) (prev : option ascii) (s : string)
         (k : option ascii -> string -> option A) {struct r} : option A :=
  match r with
  | Eps => k prev s
  | Cls p =>
      match s with
      | String c s' => if p c then k (Some c) s' else None
      | EmptyString => None
      end
  | Cat r1 r2 => run r1 prev s (fun prev' s' => run r2 prev' s' k)
  | Alt r1 r2 =>
      match run r1 prev s k with
      | Some x => Some x
      | None => run r2 prev s k
      end
  | Star r1 =>
      (fix star (n : nat) (prev : option ascii) (s : string) {struct n}
         : option A :=
         match n with
         | O => k prev s
         | S n' =>
             match run r1 prev s
                     (fun prev' s' =>
                        if (String.length s' <? String.length s)%nat
                        then star n' prev' s' else None) with
             | Some x => Some x
             | None => k prev s
             end
         end) (String.length s) prev s
  | Bnd => if at_boundary prev s then k prev s else None
  end.

(** Derived forms *)
Definition chr (c : ascii) : regex := Cls (Ascii.eqb c).

Fixpoint lit (s : string) : regex :=
  match s with
  | EmptyString => Eps
  | String c s' => Cat (chr c) (lit s')
  end.

Definition plus (r : regex) : regex := Cat r (Star r).
Definition opt (r : regex) : regex := Alt r Eps.
Definition one_of (cs : string) : regex :=
  Cls (fun c => existsb (Ascii.eqb c) (list_ascii_of_string cs)).
Definition none_of (p : ascii -> bool) : regex := Cls (fun c => negb (p c)).
Definition digit : regex := Cls Text.is_digit.
Definition space : regex := Cls Text.is_space.
(** [r{1,2}] and [r{1,3}] *)
Definition rep_1_2 (r : regex) : regex := Cat r (opt r).
Definition rep_1_3 (r : regex) : regex := Cat r (opt (Cat r (opt r))).

Fixpoint alts (rs : list regex) (last : regex) : regex :=
  match rs with
  | [] => last
  | r :: rs' => Alt r (alts rs' last)
  end.

(** [re.match(r, s)]: what follows the match at the start of [s] *)
Definition match_prefix (r : regex) (s : string) : option string :=
  run r None s (fun _ rest => Some rest).

(** [re.fullmatch(r, s)] *)
Definition fullmatch (r : regex) (s : string) : bool :=
  match run r None s
          (fun _ rest => match rest with
                         | EmptyString => Some tt
                         | String _ _ => None
                         end) with
  | Some _ => true
  | None => false
  end.

(** [re.search(r, s)]: the leftmost match, as the text from its start and
    the text after its end *)
Fixpoint search_from (r : regex) (prev : option ascii) (s : string)
  : option (string * string) :=
  match run r prev s (fun _ rest => Some rest) with
  | Some rest => Some (s, rest)
  | None =>
      match s with
      | String c s' => search_from r (Some c) s'
      | EmptyString => None
      end
  end.

Definition search (r : regex) (s : string) : option (string * string) :=
  search_from r None s.

Definition found (r : regex) (s : string) : bool :=
  match search r s with Some _ => true | None => false end.

(** [m.group(0)] *)
Definition group0 (m : string * string) : string :=
  let (from, rest) := m in
  String.substring 0 (String.length from - String.length rest) from.

End Re.

(** ** Numbers: Python's [int] and [float] *)

Module Num.

(** What [isinstance(x, (int, float))] accepts ([bool] is an [int]). *)
Inductive num : Type :=
| NInt : Z -> num
| NFloat : float -> num.

(** The binary64 number nearest to an integer, ties to even; the infinity
    from [2^1024 - 2^970] on. *)
Definition nearest_float (z : Z) : float :=
  SF2Prim (binary_normalize prec emax z 0 false).

(** [float(n)] for an [int]: the nearest float, and [OverflowError] when
    that is not finite. *)
Definition float_of_Z (z : Z) : result float :=
  let f := nearest_float z in
  match Prim2SF f with
  | S754_infinity _ => Raise OverflowError
  | _ => Return f
  end.

(** [float(n)] *)
Definition py_float (n : num) : result float :=
  match n with
  | NInt z => float_of_Z z
  | NFloat f => Return f
  end.

(** Python compares an [int] with a [float] by their exact values. *)
Definition compare_Z_SF (z : Z) (f : spec_float) : option comparison :=
  match f with
  | S754_nan => None
  | S754_infinity s => Some (if s then Gt else Lt)
  | S754_zero _ => Some (z ?= 0)%Z
  | S754_finite s m e =>
      let v := if s then Zneg m else Zpos m in
      Some (if (0 <=? e)%Z then (z ?= v * 2 ^ e)%Z
            else (z * 2 ^ (- e) ?= v)%Z)
  end.

Definition compare (a b : num) : option comparison :=
  match a, b with
  | NInt x, NInt y => Some (x ?= y)%Z
  | NFloat x, NFloat y => SFcompare (Prim2SF x) (Prim2SF y)
  | NInt x, NFloat y => compare_Z_SF x (Prim2SF y)
  | NFloat x, NInt y => option_map CompOpp (compare_Z_SF y (Prim2SF x))
  end.

(** [a < b], [a <= b], [a > b] *)
Definition ltb (a b : num) : bool :=
  match a, b with
  | NFloat x, NFloat y => PrimFloat.ltb x y
  | _, _ => match compare a b with Some Lt => true | _ => false end
  end.

Definition leb (a b : num) : bool :=
  match a, b with
  | NFloat x, NFloat y => PrimFloat.leb x y
  | _, _ => match compare a b with Some Lt | Some Eq => true | _ => false end
  end.

Definition gtb (a b : num) : bool := ltb b a.

(** [x in scales] for a set of floats *)
Definition float_in (x : float) (scales : list float) : bool :=
  existsb (PrimFloat.eqb x) scales.

(** A float that is finite and not zero, and a floating-point datum that
    is a number and is not below zero. *)
Definition is_finite (x : float) : bool :=
  match Prim2SF x with
  | S754_finite _ _ _ => true
  | _ => false
  end.

Definition not_negative (x : spec_float) : bool :=
  match x with
  | S754_nan => false
  | S754_zero _ => true
  | S754_infinity s => negb s
  | S754_finite s _ _ => negb s
  end.

Definition digit_value (c : ascii) : Z := Z.of_N (Text.code c) - 48.

(** The value of a run of decimal digits read after [acc]. *)
Fixpoint digits_value (s : string) (acc : Z) : Z :=
  match s with
  | EmptyString => acc
  | String c s' => digits_value s' (10 * acc + digit_value c)
  end.


(** An integer as an unrounded floating-point datum. *)
Definition exact (z : Z) : spec_float :=
  match z with
  | Z0 => S754_zero false
  | Zpos m => S754_finite false m 0
  | Zneg m => S754_finite true m 0
  end.

(** [float(tok)] for a token made of digits and dots, which is what the
    pattern of the Table Interpreter matches: the binary64 number nearest to
    its decimal value [p / 10^k] (ties to even).  [None] stands for
    [ValueError]: no digit at all, or more than one dot. *)
Definition decimal (int_part frac_part : string) : float :=
  let p := digits_value frac_part (digits_value int_part 0) in
  let q := (10 ^ Z.of_nat (String.length frac_part))%Z in
  SF2Prim (SFdiv prec emax (exact p) (exact q)).

Definition float_of_token (tok : string) : option float :=
  match Text.split "." tok with
  | [int_part] =>
      if Text.all_chars Text.is_digit int_part
         && negb (String.eqb int_part EmptyString)
      then Some (decimal int_part EmptyString) else None
  | [int_part; frac_part] =>
      if Text.all_chars Text.is_digit int_part
         && Text.all_chars Text.is_digit frac_part
         && negb (String.eqb int_part EmptyString
                  && String.eqb frac_part EmptyString)
      then Some (decimal int_part frac_part) else None
  | _ => None
  end.

(** [int(s)] in base 10: blanks around, an optional sign, then digits that
    single underscores may separate, no more digits than the limit.  [None]
    stands for [ValueError]. *)
Definition is_blank (c : ascii) : bool :=
  Text.between 9 13 c || Ascii.eqb c " ".

Fixpoint int_digits (s : string) (acc : Z) : option Z :=
  match s with
  | EmptyString => Some acc
  | String c s' =>
      if Text.is_digit c then int_digits s' (10 * acc + digit_value c)
      else if Ascii.eqb c "_" then
        match s' with
        | String d s'' =>
            if Text.is_digit d
            then int_digits s'' (10 * acc + digit_value d)
            else None
        | EmptyString => None
        end
      else None
  end.

Definition int_unsigned (s : string) : option Z :=
  if negb (Text.within_digit_limit s) then None
  else
    match s with
    | String c s' =>
        if Text.is_digit c then int_digits s' (digit_value c) else None
    | EmptyString => None
    end.

Definition py_int (s : string) : option Z :=
  match Text.strip is_blank s with
  | String "-" body => option_map Z.opp (int_unsigned body)
  | String "+" body => int_unsigned body
  | body => int_unsigned body
  end.

End Num.

(** ** Values: what a [Dict[str, Any]] read from JSON or built by the crawler holds *)

Inductive value : Type :=
| VNone : value
| VBool : bool -> value
| VInt : Z -> value
| VFloat : float -> value
| VStr : string -> value
| VList : list value -> value
| VDict : list (string * value) -> value.

(** A [dict] with string keys, in insertion order. *)
Definition dict : Type := list (string * value).

Fixpoint lookup (key : string) (d : dict) : option value :=
  match d with
  | [] => None
  | (k, v) :: d' => if String.eqb key k then Some v else lookup key d'
  end.

(** [d.get(key)] and [d.get(key, default)] *)
Definition get_default (key : string) (default : value) (d : dict) : value :=
  match lookup key d with
  | Some v => v
  | None => default
  end.

Definition get (key : string) (d : dict) : value := get_default key VNone d.

(** [isinstance(v, (int, float))], with the number it holds *)
Definition as_number (v : value) : option Num.num :=
  match v with
  | VBool b => Some (Num.NInt (if b then 1 else 0))
  | VInt z => Some (Num.NInt z)
  | VFloat f => Some (Num.NFloat f)
  | _ => None
  end.

(** ** The data model: grading systems and the catalog

    A system is the dictionary [normalize_system] builds; [s.get("id")] and
    [s.get("country")] are [None] when the key is missing.  The keys the
    validator inspects with [isinstance] hold arbitrary values. *)

Record System : Type := mkSystem {
  sys_id : option string;
  sys_name : string;
  sys_country : option string;
  sys_region : string;
  sys_description : string;
  sys_scale : value;
  sys_grades : value
}.

(** The persisted catalog: [existing.get("systems", [])],
    [existing.get("version", "1.0.0")], and whatever other keys it has. *)
Record Catalog : Type := mkCatalog {
  cat_version : option string;
  cat_lastUpdated : option string;
  cat_systems : option (list System);
  cat_other : dict
}.

(** ** Validator: [is_valid_indian_system] *)

Module Validator.

Import Re.

Definition allowed_scales : list float :=
  [10; 9; 8; 7; 6; 5; 4.33; 4; 100]%float.

(** [[OSAUBCDFEP]{1,2}[+-]?|[A-D][+-]?|HD|D|C|P|F|First|Pass|Fail] *)
Definition letter_label : regex :=
  alts [ Cat (rep_1_2 (one_of "OSAUBCDFEP")) (opt (one_of "+-"));
         Cat (Cls (Text.between 65 68)) (opt (one_of "+-"));
         lit "HD"; lit "D"; lit "C"; lit "P"; lit "F";
         lit "First"; lit "Pass" ]
       (lit "Fail").

(** [\d{1,3}(?:L)?] *)
Definition numeric_label : regex := Cat (rep_1_3 digit) (opt (chr "L")).

Definition known_labels : list string :=
  ["O"; "A+"; "A"; "A-"; "B+"; "B"; "B-"; "C+"; "C"; "C-"; "D"; "E"; "P";
   "F"; "HD"]%string.

Definition looks_like_grade_label (label : string) : bool :=
  let label := Text.strip Text.is_space label in
  if String.eqb label EmptyString || (20 <? String.length label)%nat
  then false
  else if fullmatch letter_label label then true
  else if fullmatch numeric_label label then true
  else if Text.mem label known_labels then true
  else false.

Definition tolerance : float := 1e-6%float.

(** [points < 0 or points > float(scale) + 1e-6] *)
Definition out_of_range (points : Num.num) (scale : float) : bool :=
  Num.ltb points (Num.NInt 0)
  || Num.gtb points (Num.NFloat (scale + tolerance)%float).

(** The loop over [grades], [seen_labels] threaded through. *)
Fixpoint check_rows (scale : float) (grades : list value)
         (seen_labels : list string) : bool :=
  match grades with
  | [] => true
  | row :: rest =>
      match row with
      | VDict row =>
          let grade_label := get "grade" row in
          match as_number (get "points" row) with
          | None => false
          | Some points =>
              if out_of_range points scale then false
              else match grade_label with
                   | VStr label =>
                       if negb (looks_like_grade_label label) then false
                       else if Text.mem label seen_labels then false
                       else check_rows scale rest (label :: seen_labels)
                   | _ => false
                   end
          end
      | _ => false
      end
  end.

(** What follows [float(scale)], which gave [scale]. *)
Definition checks (scale : float) (grades : value) : bool :=
  if negb (Num.float_in scale allowed_scales) then false
  else match grades with
       | VList grades =>
           if (List.length grades <? 3)%nat then false
           else check_rows scale grades []
       | _ => false
       end.

(** [float(scale)] is the first thing done with a scale that is a number,
    and raises before anything is returned. *)
Definition is_valid_indian_system (system : System) : result bool :=
  match as_number (sys_scale system) with
  | None => Return false
  | Some scale =>
      match Num.py_float scale with
      | Raise e => Raise e
      | Return scale => Return (checks scale (sys_grades system))
      end
  end.

(** Notions the properties are stated with: the Validator returns [True];
    it raises; a scale on which [float] raises, that is an [int] whose
    nearest float is not finite; a scale that is a number found in
    [allowed_scales]; the label of a row; and a row whose points are a
    number within the bounds for a scale. *)
Definition accepts (system : System) : bool :=
  match is_valid_indian_system system with
  | Return valid => valid
  | Raise _ => false
  end.

Definition raises (system : System) : bool :=
  match is_valid_indian_system system with
  | Return _ => false
  | Raise _ => true
  end.

Definition scale_overflows (scale : value) : bool :=
  match scale with
  | VInt z =>
      match Num.float_of_Z z with
      | Raise _ => true
      | Return _ => false
      end
  | _ => false
  end.

Definition scale_admissible (scale : value) : Prop :=
  exists n f, as_number scale = Some n
              /\ Num.py_float n = Return f
              /\ In f allowed_scales.

Definition grade_of (row : value) : value :=
  match row with
  | VDict row => get "grade" row
  | _ => VNone
  end.

Definition row_in_range (scale : float) (row : value) : Prop :=
  exists d points,
    row = VDict d
    /\ as_number (get "points" d) = Some points
    /\ Num.ltb points (Num.NInt 0) = false
    /\ Num.gtb points (Num.NFloat (scale + tolerance)%float) = false.

End Validator.

(** ** Table Interpreter: [guess_scale_from_tokens], [try_parse_grading_table] *)

(** What BeautifulSoup gives for one [<table>]: the text of each [th], the
    [td] texts of each [tr], and the text of every element inside it
    ([table.find_all(True)]), all in document order. *)
Record Table : Type := mkTable {
  th_texts : list string;
  tr_cells : list (list string);
  all_texts : list string
}.

(** An [<a href=...>]: [a.get("href")] and [a.get_text()]. *)
Record Anchor : Type := mkAnchor {
  href : string;
  a_text : string
}.

(** [soup.select("table")] and [soup.select("a[href]")] *)
Record Soup : Type := mkSoup {
  tables : list Table;
  anchors : list Anchor
}.

Module Interpreter.

Import Re.

(** [\b(outstanding|o\s*grade)\b] *)
Definition re_outstanding : regex :=
  Cat Bnd
    (Cat (Alt (lit "outstanding")
              (Cat (chr "o") (Cat (Star space) (lit "grade"))))
         Bnd).

(** [\bsgpa|cgpa\b] *)
Definition re_gpa : regex :=
  Alt (Cat Bnd (lit "sgpa")) (Cat (lit "cgpa") Bnd).

(** [N\s*point|N-point|\b/N\b] for [N] = 10 and 7 *)
Definition re_point (n : string) : regex :=
  Alt (Cat (lit n) (Cat (Star space) (lit "point")))
      (Alt (Cat (lit n) (lit "-point"))
           (Cat Bnd (Cat (chr "/") (Cat (lit n) Bnd)))).

(** [\b/4\b|4\.0\s*scale] *)
Definition re_four : regex :=
  Alt (Cat Bnd (Cat (lit "/4") Bnd))
      (Cat (lit "4.0") (Cat (Star space) (lit "scale"))).

Definition guess_scale_from_tokens (tokens : list string) : option float :=
  let joined := Text.lower (Text.join " " tokens) in
  if found re_outstanding joined && Text.contains "10" joined
  then Some 10%float
  else if found re_gpa joined && found (re_point "10") joined
  then Some 10%float
  else if found (re_point "7") joined then Some 7%float
  else if found re_four joined then Some 4%float
  else None.

(** [\d+(?:\.\d+)?] *)
Definition re_number : regex :=
  Cat (plus digit) (opt (Cat (chr ".") (plus digit))).

(** [\b\d{1,3}\s*-\s*\d{1,3}\b] *)
Definition re_range : regex :=
  Cat Bnd
    (Cat (rep_1_3 digit)
       (Cat (Star space)
          (Cat (chr "-") (Cat (Star space) (Cat (rep_1_3 digit) Bnd))))).

(** [re.sub(r"\s+", "", cell)] *)
Fixpoint remove_spaces (s : string) : string :=
  match s with
  | EmptyString => EmptyString
  | String c s' =>
      if Text.is_space c then remove_spaces s'
      else String c (remove_spaces s')
  end.

Definition header_keywords : list string :=
  ["grade"; "letter"; "points"; "credit"; "percentage"; "marks"]%string.

Definition is_candidate (table : Table) : bool :=
  let header_text := Text.join " " (th_texts table) in
  negb (String.eqb header_text EmptyString)
  && Text.contains_any header_keywords (Text.lower header_text).

(** The first cell holding a numeric token, as a float ([continue] when
    [float] raises). *)
Fixpoint find_points (cells : list string) : option float :=
  match cells with
  | [] => None
  | cell :: cells' =>
      match search re_number cell with
      | Some m =>
          match Num.float_of_token (group0 m) with
          | Some val => Some val
          | None => find_points cells'
          end
      | None => find_points cells'
      end
  end.

(** The first cell holding a range such as [80-100], blanks removed. *)
Fixpoint find_percentage (cells : list string) : option string :=
  match cells with
  | [] => None
  | cell :: cells' =>
      if found re_range cell then Some (remove_spaces cell)
      else find_percentage cells'
  end.

(** One [tr] of two cells or more becomes a grade row, or is dropped. *)
Definition grade_of_row (r : list string) : option dict :=
  match r with
  | [] => None
  | grade_label :: cells =>
      match find_points cells with
      | None => None
      | Some points =>
          if String.eqb grade_label EmptyString then None
          else Some ([("grade"%string, VStr grade_label);
                      ("points"%string, VFloat points)]
                     ++ match find_percentage cells with
                        | Some percentage =>
                            if String.eqb percentage EmptyString then []
                            else [("percentage"%string, VStr percentage)]
                        | None => []
                        end)
      end
  end.

Fixpoint filter_map {A B : Type} (f : A -> option B) (l : list A) : list B :=
  match l with
  | [] => []
  | x :: l' =>
      match f x with
      | Some y => y :: filter_map f l'
      | None => filter_map f l'
      end
  end.

Definition row_points (g : dict) : option Num.num :=
  as_number (get "points" g).

(** [max(..., default=None)]: the first of the greatest items. *)
Definition py_max (items : list Num.num) : option Num.num :=
  match items with
  | [] => None
  | first :: others =>
      Some (fold_left (fun best item =>
                         if Num.gtb item best then item else best)
                      others first)
  end.

(** [a or b] on optional floats: [None] and [0.0] are falsy. *)
Definition or_else (a b : option float) : option float :=
  match a with
  | Some x => if PrimFloat.eqb x 0 then b else a
  | None => b
  end.

Definition parsed : Type := (float * list dict)%type.

(** [float(max_points)].  [max_points] is one of the points of [grades],
    floats that [grade_of_row] put there, and [float] of a float is that
    float; the case of an [int] is there for the type only. *)
Definition float_of_max (max_points : Num.num) : float :=
  match max_points with
  | Num.NFloat f => f
  | Num.NInt z => Num.nearest_float z
  end.

(** The body of the loop over candidate tables: [None] is [continue]. *)
Definition parse_table (table : Table) : option parsed :=
  let rows := filter (fun cells => (2 <=? List.length cells)%nat)
                     (tr_cells table) in
  if (List.length rows <? 2)%nat then None
  else
    let grades := filter_map grade_of_row rows in
    match grades with
    | [] => None
    | _ :: _ =>
        let max_points := py_max (filter_map row_points grades) in
        let tokens := all_texts table in
        match or_else (guess_scale_from_tokens tokens)
                      (option_map float_of_max max_points) with
        | None => None
        | Some scale_guess =>
            if existsb (fun g => Num.gtb (match row_points g with
                                          | Some p => p
                                          | None => Num.NInt 0
                                          end) (Num.NInt 10)) grades
               && Num.leb (Num.NFloat scale_guess) (Num.NInt 10)
            then None
            else Some (scale_guess, grades)
        end
    end.

Fixpoint first_success {A B : Type} (f : A -> option B) (l : list A)
  : option B :=
  match l with
  | [] => None
  | x :: l' =>
      match f x with
      | Some y => Some y
      | None => first_success f l'
      end
  end.

Definition try_parse_grading_table (soup : Soup) : option parsed :=
  let candidate_tables := filter is_candidate (tables soup) in
  first_success parse_table candidate_tables.

(** [re.sub(r"[^a-z0-9]+", "_", s)]: every maximal run of other characters
    becomes one underscore. *)
Definition slug_char (c : ascii) : bool := Text.is_lower c || Text.is_digit c.

Fixpoint sub_runs (in_run : bool) (s : string) : string :=
  match s with
  | EmptyString => EmptyString
  | String c s' =>
      if slug_char c then String c (sub_runs false s')
      else if in_run then sub_runs true s'
      else String "_" (sub_runs true s')
  end.

Definition normalize_system (name country region : string) (scale : float)
           (grades : list dict) : System :=
  let system_id :=
    Text.strip (Ascii.eqb "_") (sub_runs false (Text.lower name)) in
  {| sys_id := Some system_id;
     sys_name := name;
     sys_country := Some country;
     sys_region := region;
     sys_description := (name ++ " grading system")%string;
     sys_scale := VFloat scale;
     sys_grades := VList (map VDict grades) |}.

(** What every row the Table Interpreter returns is: a non-empty label and
    points that are a float not below zero. *)
Definition extracted_row (g : dict) : Prop :=
  exists label points,
    get "grade" g = VStr label
    /\ label <> EmptyString
    /\ get "points" g = VFloat points
    /\ Num.ltb (Num.NFloat points) (Num.NInt 0) = false.

(** The dictionary [crawl_world_universities] builds for a university. *)
Definition world_system (name country : string) (scale : float)
           (grades : list dict) : System :=
  let system_id :=
    Text.strip (Ascii.eqb "_")
               (sub_runs false (Text.lower (country ++ "_" ++ name)%string)) in
  {| sys_id := Some system_id;
     sys_name := (name ++ " (" ++ country ++ ")")%string;
     sys_country := Some country;
     sys_region := "Unknown"%string;
     sys_description := (name ++ " grading system")%string;
     sys_scale := VFloat scale;
     sys_grades := VList (map VDict grades) |}.

End Interpreter.

(** ** Site Crawler: [find_and_parse_grading]

    [fetch] (the network) and [BeautifulSoup] (the HTML parser) are
    parameters.  The state of the [while] loop is the queue, the visited set
    and, as the record of the effect, the URLs handed to [fetch] so far. *)

Module Crawler.

Import Interpreter.

Definition key_patterns : list string :=
  ["academic"; "regulation"; "ordinance"; "examination"; "grading";
   "evaluation"; "credit"; "curriculum"]%string.

Definition max_pages : nat := 5.

(** [https?://[^/]+] *)
Definition re_base : Re.regex :=
  Re.Cat (Re.lit "http")
    (Re.Cat (Re.opt (Re.chr "s"))
       (Re.Cat (Re.lit "://") (Re.plus (Re.none_of (Ascii.eqb "/"))))).

Definition base_url_of (homepage_url : string) : string :=
  match Re.match_prefix re_base homepage_url with
  | Some rest => Re.group0 (homepage_url, rest)
  | None => homepage_url
  end.

(** The links of a page that are queued. *)
Definition likely_link (base_url : string) (a : Anchor) : option string :=
  let href := href a in
  if String.eqb href EmptyString then None
  else
    let target :=
      if Text.startswith href "/" then Some (base_url ++ href)%string
      else if Text.startswith href "http://"
              || Text.startswith href "https://" then Some href
      else None in
    match target with
    | None => None
    | Some next_url =>
        let text := Text.lower (a_text a) in
        if existsb (fun k => Text.contains k text
                             || Text.contains k (Text.lower href))
                   key_patterns
        then Some next_url else None
    end.

Definition likely_links (base_url : string) (soup : Soup) : list string :=
  filter_map (likely_link base_url) (anchors soup).

Record State : Type := mkState {
  to_visit : list string;
  visited : list string;
  fetched : list string
}.

Inductive Flow : Type :=
| Next : State -> Flow              (* [continue], or the end of the body *)
| Break : parsed -> State -> Flow.  (* [results = parsed; break] *)

Section Explore.

Variable fetch : string -> option string.
Variable BeautifulSoup : string -> Soup.

(** [while to_visit and len(visited) < max_pages] *)
Definition loop_condition (st : State) : bool :=
  match to_visit st with
  | [] => false
  | _ :: _ => (List.length (visited st) <? max_pages)%nat
  end.

(** One pass through the body of the loop. *)
Definition loop_body (base_url : string) (st : State) : Flow :=
  match to_visit st with
  | [] => Next st
  | url :: queue =>
      if Text.mem url (visited st)
      then Next (mkState queue (visited st) (fetched st))
      else
        let visited' := url :: visited st in
        let fetched' := fetched st ++ [url] in
        match fetch url with
        | None => Next (mkState queue visited' fetched')
        | Some html =>
            if String.eqb html EmptyString
            then Next (mkState queue visited' fetched')
            else
              let soup := BeautifulSoup html in
              match try_parse_grading_table soup with
              | Some result => Break result (mkState queue visited' fetched')
              | None =>
                  Next (mkState (queue ++ likely_links base_url soup)
                                visited' fetched')
              end
        end
  end.

(** The loop, run for at most [fuel] passes: [None] when they do not
    suffice, else [results] and the final state. *)
Fixpoint loop (fuel : nat) (base_url : string) (st : State)
  : option (option parsed * State) :=
  match fuel with
  | O => None
  | S fuel' =>
      if loop_condition st then
        match loop_body base_url st with
        | Break result st' => Some (Some result, st')
        | Next st' => loop fuel' base_url st'
        end
      else Some (None, st)
  end.

(** [find_and_parse_grading(session, homepage_url)], with the fetches it
    made. *)
Definition find_and_parse_grading (fuel : nat) (homepage_url : string)
  : option (option parsed * list string) :=
  match loop fuel (base_url_of homepage_url)
             (mkState [homepage_url] [] []) with
  | Some (results, st) => Some (results, fetched st)
  | None => None
  end.

(** What the Table Interpreter makes of the page behind a URL. *)
Definition page_result (url : string) : option parsed :=
  match fetch url with
  | None => None
  | Some html =>
      if String.eqb html EmptyString then None
      else try_parse_grading_table (BeautifulSoup html)
  end.

(** Notions the properties of the loop are stated with.  [invariant] is
    what holds each time the loop condition is tested: the fetches are the
    visited URLs, none twice, within the budget, and no fetched page has
    matched.  [finished] is what holds of the outcome.  [runs_to]: every
    large enough number of passes ends the loop with this outcome. *)
Definition invariant (st : State) : Prop :=
  fetched st = List.rev (visited st)
  /\ NoDup (visited st)
  /\ List.length (visited st) <= max_pages
  /\ first_success page_result (fetched st) = None.

Definition finished (results : option parsed) (st : State) : Prop :=
  List.length (fetched st) <= max_pages
  /\ NoDup (fetched st)
  /\ results = first_success page_result (fetched st).

Definition runs_to (base_url : string) (st : State)
           (results : option parsed) (st' : State) : Prop :=
  exists fuel, forall fuel', fuel <= fuel' ->
    loop fuel' base_url st = Some (results, st').

End Explore.

End Crawler.

(** ** Merger: [merge_into_existing] *)

Module Merger.

Definition country_is_India (s : System) : bool :=
  match sys_country s with
  | Some c => String.eqb c "India"
  | None => false
  end.

(** [by_id]: a [dict] from [s.get("id")] to the system, in insertion order. *)
Definition by_id_map : Type := list (option string * System).

Definition key_eqb (a b : option string) : bool :=
  match a, b with
  | Some x, Some y => String.eqb x y
  | None, None => true
  | _, _ => false
  end.

(** [by_id[key] = s]: an existing key keeps its place. *)
Fixpoint upsert (key : option string) (s : System) (by_id : by_id_map)
  : by_id_map :=
  match by_id with
  | [] => [(key, s)]
  | (k, v) :: rest =>
      if key_eqb key k then (k, s) :: rest
      else (k, v) :: upsert key s rest
  end.

(** [not sid] *)
Definition falsy (sid : option string) : bool :=
  match sid with
  | None => true
  | Some x => String.eqb x EmptyString
  end.

(** The test of the first loop: is [s] appended to [cleaned_existing]? *)
Definition kept (s : System) : result bool :=
  if country_is_India s
  then Validator.is_valid_indian_system s
  else Return true.

(** The first loop: [cleaned_existing]. *)
Fixpoint clean (systems : list System) : result (list System) :=
  match systems with
  | [] => Return []
  | s :: rest =>
      match kept s with
      | Raise e => Raise e
      | Return keep =>
          match clean rest with
          | Raise e => Raise e
          | Return cleaned_existing =>
              Return (if keep then s :: cleaned_existing
                      else cleaned_existing)
          end
      end
  end.

(** The body of [for s in new_systems]. *)
Definition merge_one (by_id : by_id_map) (s : System) : result by_id_map :=
  let sid := sys_id s in
  if falsy sid then Return by_id
  else if country_is_India s then
    match Validator.is_valid_indian_system s with
    | Raise e => Raise e
    | Return valid => Return (if valid then upsert sid s by_id else by_id)
    end
  else Return (upsert sid s by_id).

(** [for s in new_systems] *)
Fixpoint merge_all (new_systems : list System) (by_id : by_id_map)
  : result by_id_map :=
  match new_systems with
  | [] => Return by_id
  | s :: rest =>
      match merge_one by_id s with
      | Raise e => Raise e
      | Return by_id => merge_all rest by_id
      end
  end.

Definition set_last (parts : list string) (x : string) : list string :=
  removelast parts ++ [x].

(** The [try] block: the bumped version, or the old one when [int] or [str]
    raises. *)
Definition bump_version (version : string) : string :=
  let parts := Text.split "." version in
  match Num.py_int (last parts EmptyString) with
  | Some n =>
      match Text.str_of_int (n + 1) with
      | Some bumped => Text.join "." (set_last parts bumped)
      | None => version
      end
  | None => version
  end.

(** [existing.get("systems", [])] and [existing.get("version", "1.0.0")] *)
Definition systems_of (c : Catalog) : list System :=
  match cat_systems c with Some l => l | None => [] end.

Definition version_of (existing : Catalog) : string :=
  match cat_version existing with
  | Some v => v
  | None => "1.0.0"%string
  end.

(** [today] is [datetime.utcnow().date().isoformat()]. *)
Definition merge_into_existing (today : string) (existing : Catalog)
           (new_systems : list System) : result Catalog :=
  match clean (systems_of existing) with
  | Raise e => Raise e
  | Return cleaned_existing =>
      let by_id :=
        fold_left (fun d s => upsert (sys_id s) s d) cleaned_existing [] in
      match merge_all new_systems by_id with
      | Raise e => Raise e
      | Return by_id =>
          let version := version_of existing in
          Return {| cat_version := Some (bump_version version);
                    cat_lastUpdated := Some today;
                    cat_systems := Some (map snd by_id);
                    cat_other := cat_other existing |}
      end
  end.

(** *** A merge that returns

    When no validation raises, the two loops are a filter and a fold, and
    the merge returns [merged]; [MergerFacts.merge_cases] says so, and the
    properties of [merge_into_existing] are derived from those of
    [merged]. *)

(** A system of the existing catalog that the first loop keeps, and a new
    system that the second loop does not upsert. *)
Definition keep_existing (s : System) : bool :=
  if country_is_India s then Validator.accepts s else true.

Definition skipped (s : System) : bool :=
  falsy (sys_id s) || (country_is_India s && negb (Validator.accepts s)).

Definition merge_new (by_id : by_id_map) (s : System) : by_id_map :=
  let sid := sys_id s in
  if falsy sid then by_id
  else if country_is_India s && negb (Validator.accepts s) then by_id
  else upsert sid s by_id.

(** [by_id] after the pass over the existing catalog, and at the end. *)
Definition initial_by_id (existing : Catalog) : by_id_map :=
  fold_left (fun d s => upsert (sys_id s) s d)
            (filter keep_existing (systems_of existing)) [].

Definition final_by_id (existing : Catalog) (new_systems : list System)
  : by_id_map :=
  fold_left merge_new new_systems (initial_by_id existing).

Definition merged (today : string) (existing : Catalog)
           (new_systems : list System) : Catalog :=
  {| cat_version := Some (bump_version (version_of existing));
     cat_lastUpdated := Some today;
     cat_systems := Some (map snd (final_by_id existing new_systems));
     cat_other := cat_other existing |}.

(** A system on which the first loop raises, one on which the second loop
    raises, and a merge that raises. *)
Definition raising (s : System) : bool :=
  country_is_India s && Validator.raises s.

Definition new_raising (s : System) : bool :=
  negb (falsy (sys_id s)) && raising s.

Definition crashes (existing : Catalog) (new_systems : list System) : bool :=
  existsb raising (systems_of existing) || existsb new_raising new_systems.

(** Notions the properties of [by_id] are stated with: its keys, the binding
    of a key, every system stored under its own id, the entries of a list
    that carry a given id, and a list of ids without repetition. *)
Definition keys (d : by_id_map) : list (option string) := map fst d.

Fixpoint find (key : option string) (d : by_id_map) : option System :=
  match d with
  | [] => None
  | (k, v) :: rest => if key_eqb key k then Some v else find key rest
  end.

Definition well_keyed (d : by_id_map) : Prop :=
  Forall (fun kv => sys_id (snd kv) = fst kv) d.

Definition good (d : by_id_map) : Prop := NoDup (keys d) /\ well_keyed d.

(** Every system of [by_id] would pass the cleaning pass. *)
Definition all_kept (d : by_id_map) : Prop :=
  Forall (fun kv => keep_existing (snd kv) = true) d.

Definition entries_with_id (key : option string) (l : list System)
  : list System :=
  filter (fun s => key_eqb (sys_id s) key) l.

Fixpoint distinct (l : list (option string)) : bool :=
  match l with
  | [] => true
  | x :: l' => negb (existsb (key_eqb x) l') && distinct l'
  end.

End Merger.

(** ** Baseline mode: [country_baselines] *)

Module Baselines.

Local Open Scope string_scope.
Local Open Scope float_scope.

Definition row (grade : string) (points : float) (more : dict) : value :=
  VDict (("grade", VStr grade) :: ("points", VFloat points) :: more).

Definition percentage (p : string) : string * value := ("percentage", VStr p).
Definition description (d : string) : string * value := ("description", VStr d).

Definition baseline (id name country region descr : string) (scale : float)
           (grades : list value) : System :=
  {| sys_id := Some id;
     sys_name := name;
     sys_country := Some country;
     sys_region := region;
     sys_description := descr;
     sys_scale := VFloat scale;
     sys_grades := VList grades |}.

Definition country_baselines : list System :=
  [
    baseline "china_100" "China 100-Point Scale" "China"
      "East Asia" "Chinese 0–100 scale" 100.0
      [ row "Excellent" 95.0 [percentage "95-100"];
        row "Very Good" 85.0 [percentage "85-94"];
        row "Good" 75.0 [percentage "75-84"];
        row "Satisfactory" 65.0 [percentage "65-74"];
        row "Pass" 60.0 [percentage "60-64"];
        row "Fail" 0.0 [percentage "0-59"] ];
    baseline "russia_5" "Russia 5-Point Scale" "Russia"
      "Europe" "Russian 5-point scale (5=Excellent, 2=Unsatisfactory)" 5.0
      [ row "5" 5.0 [percentage "85-100"; description "Excellent"];
        row "4" 4.0 [percentage "70-84"; description "Good"];
        row "3" 3.0 [percentage "60-69"; description "Satisfactory"];
        row "2" 0.0 [percentage "0-59"; description "Unsatisfactory"] ];
    baseline "portugal_20" "Portugal 20-Point Scale" "Portugal"
      "Europe" "Portuguese 0–20 scale" 20.0
      [ row "20" 20.0 [percentage "95-100"];
        row "18-19" 19.0 [percentage "90-94"];
        row "16-17" 17.0 [percentage "80-89"];
        row "14-15" 15.0 [percentage "70-79"];
        row "10-13" 12.0 [percentage "50-69"];
        row "0-9" 0.0 [percentage "0-49"] ];
    baseline "austria_5" "Austria 5-Point Scale" "Austria"
      "Europe" "Austrian 1–5 scale (1=Sehr gut, 5=Nicht genügend)" 5.0
      [ row "1" 1.0 [percentage "90-100"; description "Sehr gut"];
        row "2" 2.0 [percentage "80-89"; description "Gut"];
        row "3" 3.0 [percentage "65-79"; description "Befriedigend"];
        row "4" 4.0 [percentage "50-64"; description "Genügend"];
        row "5" 5.0 [percentage "0-49"; description "Nicht genügend"] ];
    baseline "czech_1_4" "Czech Republic 1–4 Scale" "Czech Republic"
      "Europe" "Czech 1–4 scale (1=best, 4=fail)" 4.0
      [ row "1" 1.0 [percentage "90-100"; description "Výborně"];
        row "2" 2.0 [percentage "75-89"; description "Velmi dobře"];
        row "3" 3.0 [percentage "60-74"; description "Dobře"];
        row "4" 4.0 [percentage "0-59"; description "Nedostatečně"] ];
    baseline "poland_2_5" "Poland 2–5 Scale" "Poland"
      "Europe" "Polish 2–5 scale (5=very good, 2=fail)" 5.0
      [ row "5" 5.0 [percentage "90-100"; description "Bardzo dobry"];
        row "4" 4.0 [percentage "75-89"; description "Dobry"];
        row "3" 3.0 [percentage "60-74"; description "Dostateczny"];
        row "2" 0.0 [percentage "0-59"; description "Niedostateczny"] ];
    baseline "hungary_5" "Hungary 5-Point Scale" "Hungary"
      "Europe" "Hungarian 1–5 scale (5=Jeles, 1=Elégtelen)" 5.0
      [ row "5" 5.0 [percentage "90-100"; description "Jeles"];
        row "4" 4.0 [percentage "80-89"; description "Jó"];
        row "3" 3.0 [percentage "65-79"; description "Közepes"];
        row "2" 2.0 [percentage "50-64"; description "Elégséges"];
        row "1" 0.0 [percentage "0-49"; description "Elégtelen"] ];
    baseline "romania_10" "Romania 10-Point Scale" "Romania"
      "Europe" "Romanian 1–10 scale" 10.0
      [ row "10" 10.0 [percentage "95-100"];
        row "9" 9.0 [percentage "85-94"];
        row "8" 8.0 [percentage "75-84"];
        row "7" 7.0 [percentage "65-74"];
        row "6" 6.0 [percentage "55-64"];
        row "5" 5.0 [percentage "50-54"];
        row "0-4" 0.0 [percentage "0-49"] ];
    baseline "greece_10" "Greece 10-Point Scale" "Greece"
      "Europe" "Greek 0–10 scale" 10.0
      [ row "9-10" 9.5 [percentage "90-100"; description "Άριστα"];
        row "7-8.9" 8.0 [percentage "70-89"; description "Λίαν Καλώς"];
        row "5-6.9" 6.0 [percentage "50-69"; description "Καλώς"];
        row "0-4.9" 0.0 [percentage "0-49"; description "Ανεπιτυχώς"] ];
    baseline "turkey_100" "Turkey 100-Point Scale" "Turkey"
      "Europe" "Turkish 0–100 scale" 100.0
      [ row "90-100" 95.0 [percentage "90-100"; description "AA"];
        row "80-89" 85.0 [percentage "80-89"; description "BA/BB"];
        row "70-79" 75.0 [percentage "70-79"; description "CB/CC"];
        row "60-69" 65.0 [percentage "60-69"; description "DC/DD"];
        row "50-59" 55.0 [percentage "50-59"; description "FD"];
        row "0-49" 0.0 [percentage "0-49"; description "FF"] ];
    baseline "argentina_10" "Argentina 10-Point Scale" "Argentina"
      "South America" "Argentine 0–10 scale" 10.0
      [ row "10" 10.0 [percentage "95-100"];
        row "9" 9.0 [percentage "90-94"];
        row "8" 8.0 [percentage "80-89"];
        row "7" 7.0 [percentage "70-79"];
        row "6" 6.0 [percentage "60-69"];
        row "0-5" 0.0 [percentage "0-59"] ];
    baseline "chile_7" "Chile 7-Point Scale" "Chile"
      "South America" "Chilean 1.0–7.0 scale" 7.0
      [ row "7.0" 7.0 [percentage "95-100"; description "Sobresaliente"];
        row "6.0" 6.0 [percentage "85-94"; description "Muy bueno"];
        row "5.0" 5.0 [percentage "75-84"; description "Bueno"];
        row "4.0" 4.0 [percentage "60-74"; description "Suficiente"];
        row "1.0-3.9" 0.0 [percentage "0-59"; description "Insuficiente"] ];
    baseline "colombia_5" "Colombia 5-Point Scale" "Colombia"
      "South America" "Colombian 0–5 scale" 5.0
      [ row "5.0" 5.0 [percentage "90-100"];
        row "4.0" 4.0 [percentage "80-89"];
        row "3.0" 3.0 [percentage "70-79"];
        row "2.0" 2.0 [percentage "60-69"];
        row "0-1.9" 0.0 [percentage "0-59"] ];
    baseline "peru_20" "Peru 20-Point Scale" "Peru"
      "South America" "Peruvian 0–20 scale" 20.0
      [ row "18-20" 19.0 [percentage "90-100"];
        row "14-17" 15.0 [percentage "70-89"];
        row "11-13" 12.0 [percentage "55-69"];
        row "0-10" 0.0 [percentage "0-54"] ];
    baseline "philippines_5" "Philippines 1.0–5.0 Scale" "Philippines"
      "Southeast Asia" "Philippine 1.0 (best) to 5.0 (fail)" 5.0
      [ row "1.0" 1.0 [percentage "96-100"; description "Excellent"];
        row "1.5" 1.5 [percentage "90-95"];
        row "2.0" 2.0 [percentage "84-89"];
        row "2.5" 2.5 [percentage "78-83"];
        row "3.0" 3.0 [percentage "75-77"; description "Pass"];
        row "5.0" 5.0 [percentage "0-74"; description "Fail"] ];
    baseline "malaysia_4_0" "Malaysia 4.0 Scale" "Malaysia"
      "Southeast Asia" "Malaysian 4.0 GPA scale" 4.0
      [ row "A" 4.0 [percentage "80-100"];
        row "A-" 3.7 [percentage "75-79"];
        row "B+" 3.3 [percentage "70-74"];
        row "B" 3.0 [percentage "65-69"];
        row "B-" 2.7 [percentage "60-64"];
        row "C+" 2.3 [percentage "55-59"];
        row "C" 2.0 [percentage "50-54"];
        row "F" 0.0 [percentage "0-49"] ];
    baseline "indonesia_4_0" "Indonesia 4.0 Scale" "Indonesia"
      "Southeast Asia" "Indonesian 4.0 GPA scale" 4.0
      [ row "A" 4.0 [percentage "85-100"];
        row "A-" 3.7 [percentage "80-84"];
        row "B+" 3.3 [percentage "75-79"];
        row "B" 3.0 [percentage "70-74"];
        row "C+" 2.3 [percentage "65-69"];
        row "C" 2.0 [percentage "60-64"];
        row "D" 1.0 [percentage "50-59"];
        row "E" 0.0 [percentage "0-49"] ];
    baseline "singapore_5_0" "Singapore 5.0 Scale" "Singapore"
      "Southeast Asia" "Singaporean 5.0 GPA scale variant" 5.0
      [ row "A+" 5.0 [];
        row "A" 5.0 [];
        row "A-" 4.5 [];
        row "B+" 4.0 [];
        row "B" 3.5 [];
        row "B-" 3.0 [];
        row "C+" 2.5 [];
        row "C" 2.0 [];
        row "D" 1.0 [];
        row "F" 0.0 [] ];
    baseline "saudi_arabia_5_0" "Saudi Arabia 5.0 Scale" "Saudi Arabia"
      "Middle East" "Saudi 5.0 GPA scale" 5.0
      [ row "A+" 5.0 [];
        row "A" 4.5 [];
        row "B+" 4.0 [];
        row "B" 3.5 [];
        row "C+" 3.0 [];
        row "C" 2.5 [];
        row "D+" 2.0 [];
        row "D" 1.0 [];
        row "F" 0.0 [] ];
    baseline "uae_4_0" "UAE 4.0 Scale" "United Arab Emirates"
      "Middle East" "UAE 4.0 GPA scale" 4.0
      [ row "A" 4.0 [];
        row "A-" 3.7 [];
        row "B+" 3.3 [];
        row "B" 3.0 [];
        row "C+" 2.3 [];
        row "C" 2.0 [];
        row "D" 1.0 [];
        row "F" 0.0 [] ];
    baseline "iran_20" "Iran 20-Point Scale" "Iran"
      "Middle East" "Iranian 0–20 scale" 20.0
      [ row "18-20" 19.0 [percentage "90-100"];
        row "15-17" 16.0 [percentage "75-89"];
        row "10-14" 12.0 [percentage "50-74"];
        row "0-9" 0.0 [percentage "0-49"] ];
    baseline "pakistan_4_0" "Pakistan 4.0 Scale" "Pakistan"
      "South Asia" "Pakistani 4.0 GPA scale" 4.0
      [ row "A" 4.0 [];
        row "B" 3.0 [];
        row "C" 2.0 [];
        row "D" 1.0 [];
        row "F" 0.0 [] ];
    baseline "nigeria_5_0" "Nigeria 5.0 Scale" "Nigeria"
      "Africa" "Nigerian 5.0 GPA scale" 5.0
      [ row "A" 5.0 [];
        row "B" 4.0 [];
        row "C" 3.0 [];
        row "D" 2.0 [];
        row "E" 1.0 [];
        row "F" 0.0 [] ];
    baseline "kenya_100" "Kenya 100-Point Scale" "Kenya"
      "Africa" "Kenyan 0–100 with letter categories" 100.0
      [ row "A" 90.0 [percentage "80-100"];
        row "B" 70.0 [percentage "65-79"];
        row "C" 55.0 [percentage "50-64"];
        row "D" 40.0 [percentage "40-49"];
        row "E" 0.0 [percentage "0-39"] ]
  ].

End Baselines.

(** ** Sample data: the scenarios of the specification and small inputs *)

Module Samples.

Local Open Scope string_scope.
Local Open Scope float_scope.

Definition grade_row (grade : string) (points : float) : value :=
  VDict [("grade", VStr grade); ("points", VFloat points)].

(** Scenario 1: a catalog at version 1.0.3 and one valid Indian system. *)
Definition catalog_1_0_3 : Catalog :=
  {| cat_version := Some "1.0.3";
     cat_lastUpdated := Some "2024-01-01";
     cat_systems := Some [];
     cat_other := [] |}.

Definition anna_university : System :=
  {| sys_id := Some "anna_university";
     sys_name := "Anna University";
     sys_country := Some "India";
     sys_region := "South Asia";
     sys_description := "Anna University grading system";
     sys_scale := VFloat 10.0;
     sys_grades := VList [grade_row "O" 10.0; grade_row "A+" 9.0;
                          grade_row "A" 8.0; grade_row "B+" 7.0] |}.

(** The same system with newer values, and one without an id. *)
Definition anna_university_revised : System :=
  {| sys_id := Some "anna_university";
     sys_name := "Anna University";
     sys_country := Some "India";
     sys_region := "South Asia";
     sys_description := "Anna University grading system";
     sys_scale := VFloat 10.0;
     sys_grades := VList [grade_row "O" 10.0; grade_row "A+" 9.0;
                          grade_row "A" 8.0; grade_row "B+" 7.0;
                          grade_row "B" 6.0] |}.

Definition anonymous_system : System :=
  {| sys_id := None;
     sys_name := "Anna University";
     sys_country := Some "India";
     sys_region := "South Asia";
     sys_description := "Anna University grading system";
     sys_scale := VFloat 10.0;
     sys_grades := VList [grade_row "O" 10.0; grade_row "A+" 9.0;
                          grade_row "A" 8.0; grade_row "B+" 7.0] |}.

(** Two systems of another country, as the world crawl produces them. *)
Definition kathmandu : System :=
  {| sys_id := Some "nepal_kathmandu_university";
     sys_name := "Kathmandu University (Nepal)";
     sys_country := Some "Nepal";
     sys_region := "Unknown";
     sys_description := "Kathmandu University grading system";
     sys_scale := VFloat 4.0;
     sys_grades := VList [grade_row "A" 4.0; grade_row "B" 3.0] |}.

Definition tribhuvan : System :=
  {| sys_id := Some "nepal_tribhuvan_university";
     sys_name := "Tribhuvan University (Nepal)";
     sys_country := Some "Nepal";
     sys_region := "Unknown";
     sys_description := "Tribhuvan University grading system";
     sys_scale := VFloat 4.0;
     sys_grades := VList [grade_row "A" 4.0; grade_row "B" 3.0] |}.

(** A system on a scale of 3, and one with the label [A] twice. *)
Definition three_point : System :=
  {| sys_id := Some "three_point";
     sys_name := "Three Point";
     sys_country := Some "India";
     sys_region := "South Asia";
     sys_description := "Three Point grading system";
     sys_scale := VFloat 3.0;
     sys_grades := VList [grade_row "A" 3.0; grade_row "B" 2.0;
                          grade_row "C" 1.0] |}.


(** A system of India whose scale is the [int] 10^400, and a catalog that
    holds it. *)
Definition huge_scale : System :=
  {| sys_id := Some "huge_scale";
     sys_name := "Huge Scale";
     sys_country := Some "India";
     sys_region := "South Asia";
     sys_description := "Huge Scale grading system";
     sys_scale := VInt (10 ^ 400);
     sys_grades := VList [grade_row "A" 10.0; grade_row "B" 8.0;
                          grade_row "C" 6.0] |}.

Definition catalog_huge_scale : Catalog :=
  {| cat_version := Some "1.0.3";
     cat_lastUpdated := Some "2024-01-01";
     cat_systems := Some [huge_scale];
     cat_other := [] |}.




(** A page with one table: a caption naming the 4.0 scale, the header
    cells Grade and Points, and four rows, the last with 7 points. *)
Definition four_point_table : Table :=
  {| th_texts := ["Grade"; "Points"];
     tr_cells := [[]; ["A"; "4"]; ["B"; "3"]; ["C"; "2"]; ["D"; "7"]];
     all_texts := ["Grades on the 4.0 scale"; "Grade Points"; "Grade";
                   "Points"; "A 4"; "A"; "4"; "B 3"; "B"; "3"; "C 2"; "C";
                   "2"; "D 7"; "D"; "7"] |}.

Definition four_point_page : Soup :=
  {| tables := [four_point_table]; anchors := [] |}.

Definition four_point_rows : list dict :=
  [[("grade", VStr "A"); ("points", VFloat 4.0)];
   [("grade", VStr "B"); ("points", VFloat 3.0)];
   [("grade", VStr "C"); ("points", VFloat 2.0)];
   [("grade", VStr "D"); ("points", VFloat 7.0)]].

(** A small site: the homepage links to itself, to a page of regulations
    that does not load, to a sports page and to the academics page, which
    holds the table above. *)
Definition site_fetch (url : string) : option string :=
  if String.eqb url "https://u.example/" then Some "HOME"
  else if String.eqb url "https://u.example/academics" then Some "ACADEMICS"
  else None.

Definition site_parser (html : string) : Soup :=
  if String.eqb html "HOME" then
    {| tables := [];
       anchors := [ {| href := "/"; a_text := "Academic calendar" |};
                    {| href := "/regulations"; a_text := "Rules" |};
                    {| href := "/sports"; a_text := "Sports" |};
                    {| href := "/academics"; a_text := "Programmes" |} ] |}
  else if String.eqb html "ACADEMICS" then four_point_page
  else {| tables := []; anchors := [] |}.

End Samples.

(** ** Link Extractor: [extract_universities_from_wikipedia] *)

(** An [<a>] inside an [<li>]: [li.get_text()] and [li.get("href")], which
    is [None] when the attribute is missing. *)
Record ListAnchor : Type := mkListAnchor {
  la_text : string;
  la_href : option string
}.

(** The dataclass [University]. *)
Record University : Type := mkUniversity {
  uni_name : string;
  uni_url : option string;
  uni_kind : option string
}.

Module LinkExtractor.

Definition excluded_tokens : list string :=
  ["list of"; "states and union territories"; "ugc"; "nai"; "ranking";
   "accreditation"]%string.

Definition university_keywords : list string :=
  ["university"; "institute"; "college"; "academy"; "iit"; "nit"; "iiit";
   "iisc"; "law university"; "state university"]%string.

Definition wikipedia : string := "https://en.wikipedia.org".

(** The body of the loop over [soup.select("li a")]: the university an
    anchor stands for, or [None] for [continue]. *)
Definition university_of (a : ListAnchor) : option University :=
  let name := Text.strip Text.is_space (la_text a) in
  match la_href a with
  | None => None
  | Some href =>
      if String.eqb name EmptyString || String.eqb href EmptyString then None
      else if Text.startswith href "#"
              || negb (Text.startswith href "/wiki/") then None
      else if Text.contains_any excluded_tokens (Text.lower name) then None
      else if negb (Text.contains_any university_keywords (Text.lower name))
      then None
      else Some {| uni_name := name;
                   uni_url := Some (wikipedia ++ href)%string;
                   uni_kind := None |}
  end.

(** The second loop: keep the first university of each lower-cased name. *)
Fixpoint dedupe (seen : list string) (universities : list University)
  : list University :=
  match universities with
  | [] => []
  | u :: rest =>
      let key := Text.lower (uni_name u) in
      if Text.mem key seen then dedupe seen rest
      else u :: dedupe (key :: seen) rest
  end.

(** [anchors] is [soup.select("li a")] of the parsed page. *)
Definition extract_universities_from_wikipedia (anchors : list ListAnchor)
  : list University :=
  let universities := Interpreter.filter_map university_of anchors in
  dedupe [] universities.

(** The first university of [l] whose lower-cased name is [key]. *)
Fixpoint first_named (key : string) (l : list University)
  : option University :=
  match l with
  | [] => None
  | u :: rest =>
      if String.eqb (Text.lower (uni_name u)) key then Some u
      else first_named key rest
  end.

End LinkExtractor.

(** ** The command line: [main] *)

Module Cli.

(** What [main] finds at [gpacalculator/grading-systems.json]: no file, a
    file that [json.load] refuses, or the catalog, a JSON object of the
    shape of [Catalog]. *)
Inductive CatalogFile : Type :=
| Missing : CatalogFile
| Unreadable : CatalogFile
| Loaded : Catalog -> CatalogFile.

Inductive Mode : Type := World | Countries | India.

(** ["--world" in sys.argv] is tested before ["--countries" in sys.argv]. *)
Definition mode_of (argv : list string) : Mode :=
  if Text.mem "--world" argv then World
  else if Text.mem "--countries" argv then Countries
  else India.

(** The exit status of the script, which ends with
    [raise SystemExit(main())], and, when it writes the file, the catalog it
    writes.  An exception that leaves [main] ends the script with status 1;
    the merge raises before the file is opened for writing. *)
Record Outcome : Type := mkOutcome {
  exit_code : Z;
  written : option Catalog
}.

(** [world_crawl] and [indian_crawl] are what [crawl_world_universities()]
    and [crawl_indian_universities()] return in this run. *)
Definition main (today : string) (argv : list string) (file : CatalogFile)
           (world_crawl indian_crawl : list System) : Outcome :=
  match file with
  | Missing => mkOutcome 1 None
  | Unreadable => mkOutcome 1 None
  | Loaded existing =>
      let new_systems :=
        match mode_of argv with
        | World => world_crawl
        | Countries => Baselines.country_baselines
        | India => indian_crawl
        end in
      match new_systems with
      | [] => mkOutcome 0 None
      | _ :: _ =>
          match Merger.merge_into_existing today existing new_systems with
          | Raise _ => mkOutcome 1 None
          | Return merged => mkOutcome 0 (Some merged)
          end
      end
  end.

End Cli.

(** ** The two crawls: [crawl_indian_universities] and
    [crawl_world_universities]

    Both start their tasks with [asyncio.gather]; the order in which the
    tasks append to [systems] is that of the network and is not modelled.
    What is: the links [crawl_world_universities] collects from the index
    page, and the systems one task appends for a university. *)

Module Crawls.

Import Re Interpreter Crawler.

(** [.] and a literal under [re.I] *)
Definition dot_char (c : ascii) : bool := negb (Ascii.eqb c "010").
Definition dot : regex := Cls dot_char.

Definition same_letter (c x : ascii) : bool :=
  Ascii.eqb (Text.lower_char x) (Text.lower_char c).

Fixpoint lit_i (s : string) : regex :=
  match s with
  | EmptyString => Eps
  | String c s' => Cat (Cls (same_letter c)) (lit_i s')
  end.

(** What a closing [(.+)] takes: the rest of the line. *)
Fixpoint line_of (s : string) : string :=
  match s with
  | EmptyString => EmptyString
  | String c s' => if dot_char c then String c (line_of s') else EmptyString
  end.

(** [re.match(kind + r".* in (.+)", text, flags=re.I)] and its
    [group(1)] *)
Definition group1 (kind text : string) : option string :=
  run (Cat (lit_i kind) (Cat (Star dot) (lit_i " in "))) None text
      (fun _ rest =>
         match line_of rest with
         | EmptyString => None
         | g => Some g
         end).

(** The body of the loop over [soup.select("a[href]")]: the link it
    appends to [country_links], or [None]. *)
Definition country_link (a : Anchor) : option (string * string) :=
  let text := Text.strip Text.is_space (a_text a) in
  let href := href a in
  if String.eqb text EmptyString || String.eqb href EmptyString then None
  else if negb (Text.startswith href "/wiki/") then None
  else
    let m1 := group1 "List of universities" text in
    let m2 := group1 "List of colleges" text in
    let m := match m1 with Some g => Some g | None => m2 end in
    match m with
    | Some g =>
        Some ((LinkExtractor.wikipedia ++ href)%string,
              Text.strip Text.is_space g)
    | None => None
    end.

(** [key in seen] for the pairs [(url, country.lower())] *)
Definition mem_pair (key : string * string) (seen : list (string * string))
  : bool :=
  existsb (fun k => String.eqb (fst k) (fst key)
                    && String.eqb (snd k) (snd key)) seen.

Definition link_key (link : string * string) : string * string :=
  (fst link, Text.lower (snd link)).

Fixpoint dedupe_links (seen : list (string * string))
         (links : list (string * string)) : list (string * string) :=
  match links with
  | [] => []
  | link :: rest =>
      if mem_pair (link_key link) seen then dedupe_links seen rest
      else link :: dedupe_links (link_key link :: seen) rest
  end.

(** [country_links] after the deduplication, from the anchors of the index
    page. *)
Definition country_links (anchors : list Anchor)
  : list (string * string) :=
  dedupe_links [] (filter_map country_link anchors).

Section Session.

Variable fetch : string -> option string.
Variable BeautifulSoup : string -> Soup.
Variable fuel : nat.

(** What a task appends on the outcome of its exploration; [None] when the
    passes did not suffice. *)
Definition appended (homepage : string) (build : float -> list dict -> System)
  : option (list System) :=
  match find_and_parse_grading fetch BeautifulSoup fuel homepage with
  | None => None
  | Some (None, _) => Some []
  | Some (Some (scale, grades), _) => Some [build scale grades]
  end.

(** [process_uni(u)] of [crawl_indian_universities] *)
Definition process_uni (u : University) : option (list System) :=
  match uni_url u with
  | None => Some []
  | Some homepage =>
      if String.eqb homepage EmptyString then Some []
      else appended homepage
             (normalize_system (uni_name u) "India" "South Asia")
  end.

(** The body of [for u in unis] in [process_country(list_url, country)] of
    [crawl_world_universities], which explores [u.url or ""]. *)
Definition process_world_uni (country : string) (u : University)
  : option (list System) :=
  let homepage :=
    match uni_url u with
    | Some url => url
    | None => EmptyString
    end in
  appended homepage (world_system (uni_name u) country).

End Session.

End Crawls.

(** ** Further notions the properties are stated with *)

Module Notions.

Import Merger.

(** The last system of [l] with id [key] that passes [accept]. *)
Fixpoint last_with (accept : System -> bool) (key : option string)
         (l : list System) : option System :=
  match l with
  | [] => None
  | s :: rest =>
      match last_with accept key rest with
      | Some t => Some t
      | None => if accept s && key_eqb (sys_id s) key then Some s else None
      end
  end.

Definition not_skipped (s : System) : bool := negb (skipped s).

(** One pass of either loop of the merge: upsert what is accepted. *)
Definition step (accept : System -> bool) (d : by_id_map) (s : System)
  : by_id_map :=
  if accept s then upsert (sys_id s) s d else d.

(** [s] begins with [p]; [s] ends with [t]. *)
Definition is_prefix (p s : string) : Prop := exists rest, s = (p ++ rest)%string.
Definition is_suffix (t s : string) : Prop := exists front, s = (front ++ t)%string.

(** The first and the last character of a text. *)
Definition first_char (s : string) : option ascii :=
  match s with
  | EmptyString => None
  | String c _ => Some c
  end.

Definition last_char (s : string) : option ascii :=
  first_char (Text.rev s).

(** [s.rstrip(chars)] by recursion on the text: a character is dropped when
    it is in the class and nothing is kept after it. *)
Fixpoint rstrip_rec (p : ascii -> bool) (s : string) : string :=
  match s with
  | EmptyString => EmptyString
  | String c s' =>
      match rstrip_rec p s' with
      | EmptyString => if p c then EmptyString else String c EmptyString
      | kept => String c kept
      end
  end.

(** The characters of a slug: [a-z], [0-9] and the underscore. *)
Definition id_char (c : ascii) : bool :=
  Interpreter.slug_char c || Ascii.eqb c "_".


(** A slug: made of [a-z], [0-9] and underscores, with no underscore at
    either end and no two in a row. *)
Definition is_slug (i : string) : Prop :=
  Text.all_chars id_char i = true
  /\ first_char i <> Some "_"%char
  /\ last_char i <> Some "_"%char
  /\ Text.contains "__" i = false.

(** No ASCII letter and no digit. *)
Definition no_alnum (c : ascii) : bool :=
  negb (Text.is_lower c || Text.is_upper c || Text.is_digit c).

(** The two shapes of a grade row the Table Interpreter builds. *)
Definition row_shape (g : dict) : Prop :=
  exists label points,
    g = [("grade"%string, VStr label); ("points"%string, VFloat points)]
    \/ exists range,
         g = [("grade"%string, VStr label); ("points"%string, VFloat points);
              ("percentage"%string, VStr range)]
         /\ range <> EmptyString
         /\ Text.all_chars (fun c => negb (Text.is_space c)) range = true.

(** The points of a row exceed 10. *)
Definition above_ten (g : dict) : Prop :=
  exists p, Interpreter.row_points g = Some p
            /\ Num.gtb p (Num.NInt 10) = true.

(** [u] was queued from a page of [log]: the page loaded, and one of its
    anchors is a likely link that resolves to [u]. *)
Definition followed_link (fetch : string -> option string)
           (BeautifulSoup : string -> Soup) (base_url : string)
           (log : list string) (u : string) : Prop :=
  exists page html a,
    In page log
    /\ fetch page = Some html
    /\ html <> EmptyString
    /\ In a (anchors (BeautifulSoup html))
    /\ Crawler.likely_link base_url a = Some u.

(** What a queued link looks like: a keyword in the lower-cased text or
    target of the anchor, and a target that is a path from the root,
    resolved against [base_url], or an absolute [http(s)] address. *)
Definition link_shape (base_url : string) (a : Anchor) (u : string) : Prop :=
  (exists k, In k Crawler.key_patterns
             /\ (Text.contains k (Text.lower (a_text a)) = true
                 \/ Text.contains k (Text.lower (href a)) = true))
  /\ ((Text.startswith (href a) "/" = true /\ u = (base_url ++ href a)%string)
      \/ ((Text.startswith (href a) "http://" = true
           \/ Text.startswith (href a) "https://" = true)
          /\ u = href a)).

(** [s] without the prefix [p], when it begins with it. *)
Fixpoint drop_prefix (p s : string) : option string :=
  match p with
  | EmptyString => Some s
  | String a p' =>
      match s with
      | String b s' => if Ascii.eqb a b then drop_prefix p' s' else None
      | EmptyString => None
      end
  end.

Definition not_slash (c : ascii) : bool := negb (Ascii.eqb "/" c).

(** What follows [://] and the longest non-empty run without a slash, when
    [t] begins with them. *)
Definition after_host (t : string) : option string :=
  match drop_prefix "://" t with
  | Some (String c u) =>
      if not_slash c then Some (Text.lstrip not_slash u) else None
  | _ => None
  end.

(** [base] is a scheme and a host, [http(s)://host], and [rest] is nothing
    or begins with a slash. *)
Definition site_root (base rest : string) : Prop :=
  exists scheme host,
    (scheme = "http" \/ scheme = "https")%string
    /\ host <> EmptyString
    /\ Text.all_chars not_slash host = true
    /\ base = (scheme ++ "://" ++ host)%string
    /\ (rest = EmptyString \/ first_char rest = Some "/"%char).

(** [s] without a prefix that is [p] up to letter case. *)
Fixpoint drop_prefix_i (p s : string) : option string :=
  match p with
  | EmptyString => Some s
  | String a p' =>
      match s with
      | String b s' =>
          if Crawls.same_letter a b then drop_prefix_i p' s' else None
      | EmptyString => None
      end
  end.

(** [text] reads [kind], anything, [ in ] and [g], on one line and up to
    letter case, [g] running to the end of the line. *)
Definition names_country (kind text g : string) : Prop :=
  exists head middle sep tail,
    text = (head ++ middle ++ sep ++ g ++ tail)%string
    /\ Text.lower head = Text.lower kind
    /\ Text.all_chars Crawls.dot_char middle = true
    /\ Text.lower sep = " in "%string
    /\ g <> EmptyString
    /\ Text.all_chars Crawls.dot_char g = true
    /\ (tail = EmptyString \/ first_char tail = Some "010"%char).

End Notions.

(** * Properties *)

(** ** Text and numerals *)

Module TextFacts.

Import Text.


Lemma all_chars_rev_onto p s : forall acc,
  all_chars p (rev_onto s acc) = all_chars p s && all_chars p acc.
Proof.
  induction s as [|c s IH]; simpl; intros acc; [reflexivity|].
  rewrite IH. simpl. now rewrite andb_assoc, (andb_comm (all_chars p s)).
Qed.

Lemma all_chars_rev p s : all_chars p (rev s) = all_chars p s.
Proof. unfold rev. rewrite all_chars_rev_onto. simpl. apply andb_true_r. Qed.

Lemma rev_onto_rev_onto s : forall acc acc',
  rev_onto (rev_onto s acc) acc' = rev_onto acc (String.append s acc').
Proof.
  induction s as [|c s IH]; simpl; intros acc acc'; [reflexivity|].
  now rewrite IH.
Qed.

Lemma append_empty s : String.append s EmptyString = s.
Proof. induction s as [|c s IH]; simpl; [reflexivity | now rewrite IH]. Qed.

Lemma rev_involutive s : rev (rev s) = s.
Proof.
  unfold rev. rewrite rev_onto_rev_onto. simpl. apply append_empty.
Qed.



Lemma split_nonempty sep s : split sep s <> [].
Proof.
  destruct s as [|c s]; simpl; [discriminate|].
  destruct (Ascii.eqb c sep); [discriminate|].
  destruct (split sep s); discriminate.
Qed.








End TextFacts.

Module NumFacts.

Import Num TextFacts.









(** [float(n)] raises from [2^1024 - 2^970] on, and below its opposite. *)
Lemma float_of_Z_range :
  float_of_Z (2 ^ 1024 - 2 ^ 970 - 1) = Return 0x1.fffffffffffffp+1023%float
  /\ float_of_Z (2 ^ 1024 - 2 ^ 970) = Raise OverflowError
  /\ float_of_Z (- (2 ^ 1024 - 2 ^ 970)) = Raise OverflowError
  /\ float_of_Z (10 ^ 400) = Raise OverflowError.
Proof. repeat split; vm_compute; reflexivity. Qed.

(** *** The digit limit and the magnitude

    [int(s)] gives a number of at most 4300 digits, and [str(n)] raises only
    from [10^4300] on. *)













End NumFacts.

(** ** Floats: the sign of a rounded number *)

Module FloatFacts.

Import Num.

Lemma shr_1_nonneg mrs : (0 <= shr_m mrs)%Z -> (0 <= shr_m (shr_1 mrs))%Z.
Proof.
  destruct mrs as [m r s]. simpl.
  destruct m as [|[p|p|]|p]; simpl; lia.
Qed.

Lemma iter_shr_1_nonneg p : forall mrs,
  (0 <= shr_m mrs)%Z -> (0 <= shr_m (iter_pos shr_1 p mrs))%Z.
Proof.
  induction p as [p IH|p IH|]; intros mrs H; simpl.
  - apply IH, IH, shr_1_nonneg, H.
  - apply IH, IH, H.
  - apply shr_1_nonneg, H.
Qed.

Lemma shr_fexp_nonneg m e l :
  (0 <= m)%Z -> (0 <= shr_m (fst (shr_fexp prec emax m e l)))%Z.
Proof.
  intros H. unfold shr_fexp, shr.
  assert (0 <= shr_m (shr_record_of_loc m l))%Z as H0.
  { destruct l as [|[]]; exact H. }
  destruct (fexp prec emax (Zdigits2 m + e) - e)%Z; simpl; try exact H0.
  now apply iter_shr_1_nonneg.
Qed.

Lemma round_nearest_even_nonneg m l :
  (0 <= m)%Z -> (0 <= round_nearest_even m l)%Z.
Proof.
  intros H. destruct l as [|[]]; simpl; try lia.
  destruct (Z.even m); lia.
Qed.

(** Rounding a magnitude under a positive sign gives a number that is not
    negative. *)
Lemma binary_round_aux_sign m e l :
  (0 <= m)%Z -> not_negative (binary_round_aux prec emax false m e l) = true.
Proof.
  intros H. unfold binary_round_aux.
  pose proof (shr_fexp_nonneg m e l H) as H1.
  destruct (shr_fexp prec emax m e l) as [mrs' e']. simpl in H1.
  pose proof (shr_fexp_nonneg _ e' loc_Exact
                (round_nearest_even_nonneg _ (loc_of_shr_record mrs') H1))
    as H2.
  destruct (shr_fexp prec emax
              (round_nearest_even (shr_m mrs') (loc_of_shr_record mrs'))
              e' loc_Exact) as [mrs'' e'']. simpl in H2.
  destruct (shr_m mrs'') as [|p|p]; [reflexivity| |lia].
  now destruct (e'' <=? emax - prec)%Z.
Qed.

Lemma binary_round_sign m e :
  not_negative (binary_round prec emax false m e) = true.
Proof.
  unfold binary_round.
  destruct (shl_align m e (fexp prec emax (Z.pos (digits2_pos m) + e)))
    as [mz ez].
  apply binary_round_aux_sign. lia.
Qed.

Lemma binary_normalize_sign z e :
  (0 <= z)%Z -> not_negative (binary_normalize prec emax z e false) = true.
Proof.
  destruct z as [|p|p]; intros H; simpl; [reflexivity | | lia].
  apply binary_round_sign.
Qed.

Lemma SFldexp_sign x e :
  not_negative x = true -> not_negative (SFldexp prec emax x e) = true.
Proof.
  destruct x as [s|s| |s m ex]; simpl; try (intros H; exact H).
  destruct s; [discriminate|]. intros _. apply binary_round_sign.
Qed.

Lemma SFdiv_sign p q :
  (0 <= p)%Z -> (0 < q)%Z ->
  not_negative (SFdiv prec emax (exact p) (exact q)) = true.
Proof.
  intros Hp Hq. destruct q as [|q|q]; try lia.
  destruct p as [|p|p]; try lia; simpl; [reflexivity|].
  unfold SFdiv_core_binary.
  set (e' := Z.min _ _). set (m' := match (0 - 0 - e')%Z with
                                    | Z0 => Z.pos p
                                    | Z.pos _ => Z.shiftl (Z.pos p) (0 - 0 - e')
                                    | Z.neg _ => 0%Z
                                    end).
  assert (0 <= m')%Z as Hm.
  { subst m'. destruct (0 - 0 - e')%Z; try lia.
    apply Z.shiftl_nonneg. lia. }
  pose proof (Z_div_mod m' (Z.pos q) eq_refl) as Hdiv.
  destruct (Z.div_eucl m' (Z.pos q)) as [quot r].
  apply binary_round_aux_sign. nia.
Qed.

(** Going to a primitive float and back keeps a number that is not negative
    such. *)
Lemma SF2Prim_sign x :
  not_negative x = true -> not_negative (Prim2SF (SF2Prim x)) = true.
Proof.
  destruct x as [s|s| |s m e]; simpl; try discriminate.
  - destruct s; intros _; vm_compute; reflexivity.
  - destruct s; [discriminate|]. intros _. vm_compute. reflexivity.
  - destruct s; [discriminate|]. intros _. unfold Z.ldexp.
    rewrite ldshiftexp_spec. apply SFldexp_sign.
    rewrite of_uint63_spec. apply binary_normalize_sign.
    apply Uint63.to_Z_bounded.
Qed.

Lemma digits_value_nonneg s : forall acc,
  Text.all_chars Text.is_digit s = true ->
  (0 <= acc)%Z -> (0 <= digits_value s acc)%Z.
Proof.
  induction s as [|c s IH]; cbn [digits_value Text.all_chars];
    intros acc Hs Hacc; [exact Hacc|].
  apply andb_prop in Hs. destruct Hs as [Hc Hs].
  apply IH; [exact Hs|].
  unfold digit_value, Text.is_digit, Text.between in *.
  apply andb_prop in Hc. destruct Hc as [Hlo _].
  apply N.leb_le in Hlo. lia.
Qed.

Lemma decimal_sign int_part frac_part :
  Text.all_chars Text.is_digit int_part = true ->
  Text.all_chars Text.is_digit frac_part = true ->
  not_negative (Prim2SF (decimal int_part frac_part)) = true.
Proof.
  intros Hi Hf. unfold decimal. apply SF2Prim_sign, SFdiv_sign.
  - apply digits_value_nonneg; [exact Hf|].
    apply digits_value_nonneg; [exact Hi | lia].
  - apply Z.pow_pos_nonneg; lia.
Qed.

Lemma float_of_token_sign tok x :
  float_of_token tok = Some x -> not_negative (Prim2SF x) = true.
Proof.
  unfold float_of_token.
  destruct (Text.split "." tok) as [|i [|f [|? ?]]]; try discriminate.
  - destruct (Text.all_chars Text.is_digit i) eqn:Hi; [|discriminate].
    destruct (negb (String.eqb i EmptyString)); [|discriminate].
    intros [= <-]. now apply decimal_sign.
  - destruct (Text.all_chars Text.is_digit i) eqn:Hi; [|discriminate].
    destruct (Text.all_chars Text.is_digit f) eqn:Hf; [|discriminate].
    simpl. destruct (negb _); [|discriminate].
    intros [= <-]. now apply decimal_sign.
Qed.

(** Python's [x < 0] is false of a float that is not negative. *)
Lemma not_below_zero x :
  not_negative (Prim2SF x) = true -> Num.ltb (NFloat x) (NInt 0) = false.
Proof.
  unfold Num.ltb, Num.compare, compare_Z_SF.
  destruct (Prim2SF x) as [s|s| |s m e]; simpl; try discriminate.
  - reflexivity.
  - destruct s; [discriminate | reflexivity].
  - destruct s; [discriminate|]. intros _.
    destruct (0 <=? e)%Z eqn:E; [|reflexivity].
    apply Z.leb_le in E.
    assert (0 < Z.pos m * 2 ^ e)%Z as H
        by (apply Z.mul_pos_pos; [lia | apply Z.pow_pos_nonneg; lia]).
    destruct (Z.pos m * 2 ^ e)%Z; [lia | reflexivity | lia].
Qed.

End FloatFacts.

(** ** Validator *)

Module ValidatorFacts.

Import Validator.

(** On a finite non-zero number, the floats' [==] is equality. *)
Lemma float_eqb_eq x y :
  Num.is_finite y = true -> PrimFloat.eqb x y = true -> x = y.
Proof.
  unfold Num.is_finite. intros Hy H. apply Prim2SF_inj.
  rewrite FloatAxioms.eqb_spec in H. unfold SFeqb, SFcompare in H.
  destruct (Prim2SF y) as [| | |sy my ey]; try discriminate.
  destruct (Prim2SF x) as [sx|sx| |sx mx ex]; try discriminate.
  - destruct sy; discriminate.
  - destruct sx; discriminate.
  - destruct sx, sy; try discriminate;
      destruct (Z.compare ex ey) eqn:E; try discriminate;
      apply Z.compare_eq in E; subst;
      destruct (Pos.compare_cont Eq mx my) eqn:E'; try discriminate;
      apply Pos.compare_eq in E'; now subst.
Qed.

Lemma float_in_In x l :
  forallb Num.is_finite l = true -> Num.float_in x l = true -> In x l.
Proof.
  unfold Num.float_in. induction l as [|y l IH]; simpl; [discriminate|].
  intros Hl H. apply andb_prop in Hl. destruct Hl as [Hy Hl].
  apply orb_prop in H. destruct H as [H|H].
  - left. symmetry. now apply float_eqb_eq.
  - right. now apply IH.
Qed.

Lemma allowed_scales_finite : forallb Num.is_finite allowed_scales = true.
Proof. vm_compute. reflexivity. Qed.

Lemma mem_In x l : Text.mem x l = true <-> In x l.
Proof.
  unfold Text.mem. rewrite existsb_exists. split.
  - intros (y & Hy & E). apply String.eqb_eq in E. now subst.
  - intros H. exists x. split; [assumption | apply String.eqb_refl].
Qed.

(** [float] raises on the scale of a system exactly when the scale is an
    [int] whose nearest float is not finite. *)
Lemma py_float_scale v n :
  as_number v = Some n ->
  Num.py_float n
  = if scale_overflows v then Raise OverflowError
    else Return (match n with
                 | Num.NInt z => Num.nearest_float z
                 | Num.NFloat f => f
                 end).
Proof.
  destruct v as [|b|z|f| | |]; try discriminate; intros [= <-].
  - destruct b; vm_compute; reflexivity.
  - unfold scale_overflows. cbn [Num.py_float]. unfold Num.float_of_Z.
    destruct (Prim2SF (Num.nearest_float z)); try reflexivity.
  - reflexivity.
Qed.

Lemma not_number_no_overflow v : as_number v = None -> scale_overflows v = false.
Proof. destruct v; try discriminate; reflexivity. Qed.

(** The Validator raises on an overflowing scale, and returns otherwise. *)
Lemma valid_cases s :
  is_valid_indian_system s
  = if scale_overflows (sys_scale s) then Raise OverflowError
    else Return (accepts s).
Proof.
  unfold accepts, is_valid_indian_system.
  destruct (as_number (sys_scale s)) as [n|] eqn:En.
  - rewrite (py_float_scale _ _ En).
    now destruct (scale_overflows (sys_scale s)).
  - now rewrite (not_number_no_overflow _ En).
Qed.

Lemma raises_overflow s : raises s = scale_overflows (sys_scale s).
Proof.
  unfold raises. rewrite valid_cases.
  now destruct (scale_overflows (sys_scale s)).
Qed.

Lemma accepts_true s : accepts s = true <-> is_valid_indian_system s = Return true.
Proof.
  unfold accepts. destruct (is_valid_indian_system s) as [[]|e];
    split; congruence.
Qed.

Lemma returned_verdict s valid :
  is_valid_indian_system s = Return valid -> accepts s = valid.
Proof. unfold accepts. now intros ->. Qed.

Lemma rejects_inadmissible s :
  ~ scale_admissible (sys_scale s) -> accepts s = false.
Proof.
  intros Hn. unfold accepts, is_valid_indian_system.
  destruct (as_number (sys_scale s)) as [n|] eqn:En; [|reflexivity].
  destruct (Num.py_float n) as [f|e] eqn:Ef; [|reflexivity].
  unfold checks.
  destruct (Num.float_in f allowed_scales) eqn:E; [|reflexivity].
  exfalso. apply Hn. exists n, f. split; [assumption|]. split; [assumption|].
  apply float_in_In; [apply allowed_scales_finite | assumption].
Qed.

Lemma three_not_admissible : ~ scale_admissible (VFloat 3).
Proof.
  intros (n & f & Hn & Hf & Hin). injection Hn as <-. injection Hf as <-.
  simpl in Hin.
  repeat (destruct Hin as [Hin|Hin];
          [apply (f_equal (PrimFloat.eqb 3)) in Hin; vm_compute in Hin;
           discriminate|]).
  exact Hin.
Qed.

Lemma overflowing_not_admissible v :
  scale_overflows v = true -> ~ scale_admissible v.
Proof.
  intros Ho (n & f & Hn & Hf & _).
  rewrite (py_float_scale _ _ Hn), Ho in Hf. discriminate.
Qed.

(** What an accepted list of rows looks like: every row is a dictionary with
    in-range numeric points and a string label not seen before, and no two
    rows share a label. *)
Lemma check_rows_true scale grades : forall seen_labels,
  check_rows scale grades seen_labels = true ->
  NoDup (map grade_of grades)
  /\ Forall (fun row => exists label, grade_of row = VStr label
                                      /\ ~ In label seen_labels) grades
  /\ Forall (row_in_range scale) grades.
Proof.
  induction grades as [|row rest IH]; intros seen H.
  - repeat constructor.
  - simpl in H. destruct row as [| | | | | |d]; try discriminate.
    destruct (as_number (get "points" d)) as [points|] eqn:Ep;
      [|discriminate].
    destruct (out_of_range points scale) eqn:Er; [discriminate|].
    destruct (get "grade" d) as [| | | |label| |] eqn:Eg; try discriminate.
    destruct (looks_like_grade_label label); [|discriminate]. simpl in H.
    destruct (Text.mem label seen) eqn:Em; [discriminate|].
    destruct (IH _ H) as (Hnd & Hlab & Hrange).
    assert (~ In label seen) as Hseen.
    { intros Hin. apply mem_In in Hin. congruence. }
    split; [|split].
    + simpl. rewrite Eg. constructor; [|assumption].
      intros Hin. apply in_map_iff in Hin. destruct Hin as (r & Hr & Hin).
      rewrite Forall_forall in Hlab.
      destruct (Hlab r Hin) as (l & Hl & Hnot).
      rewrite Hr in Hl. injection Hl as <-. apply Hnot. now left.
    + constructor.
      * exists label. simpl. now split.
      * eapply Forall_impl; [|exact Hlab].
        intros r (l & Hl & Hnot). exists l. split; [assumption|].
        intros Hin. apply Hnot. now right.
    + constructor; [|assumption].
      exists d, points. unfold out_of_range in Er.
      apply orb_false_elim in Er. destruct Er as [E1 E2]. now repeat split.
Qed.

(** What an accepted system looks like. *)
Lemma valid_system s :
  is_valid_indian_system s = Return true ->
  exists scale f grades,
    as_number (sys_scale s) = Some scale
    /\ Num.py_float scale = Return f
    /\ In f allowed_scales
    /\ sys_grades s = VList grades
    /\ 3 <= List.length grades
    /\ NoDup (map grade_of grades)
    /\ Forall (row_in_range f) grades.
Proof.
  unfold is_valid_indian_system. intros H.
  destruct (as_number (sys_scale s)) as [n|]; [|discriminate].
  destruct (Num.py_float n) as [f|e] eqn:Ef; [|discriminate].
  injection H as H. unfold checks in H.
  destruct (Num.float_in f allowed_scales) eqn:E; [|discriminate].
  simpl in H.
  destruct (sys_grades s) as [| | | | |grades|]; try discriminate.
  destruct (Nat.ltb_spec (List.length grades) 3) as [Hlt|Hge];
    [discriminate|].
  destruct (check_rows_true _ _ _ H) as (Hnd & _ & Hr).
  exists n, f, grades. repeat split; try assumption.
  apply float_in_In; [apply allowed_scales_finite | assumption].
Qed.

(** C5: a system whose scale is not a number of the admissible set, a scale
    of 3.0 for one, is rejected whatever its grade rows are, but for one
    case: when the scale is an [int] whose nearest float is not finite,
    [float(scale)] raises [OverflowError], which nothing catches, and the
    Validator returns nothing.  At a scale of 3.0 it returns false; at the
    scale 10^400, which is not admissible, it raises. *)
Theorem inadmissible_scale_rejected :
  (forall s,
      ~ scale_admissible (sys_scale s) \/ sys_scale s = VFloat 3 ->
      is_valid_indian_system s
      = if scale_overflows (sys_scale s) then Raise OverflowError
        else Return false)
  /\ is_valid_indian_system Samples.three_point = Return false
  /\ sys_scale Samples.huge_scale = VInt (10 ^ 400)
  /\ ~ scale_admissible (sys_scale Samples.huge_scale)
  /\ is_valid_indian_system Samples.huge_scale = Raise OverflowError.
Proof.
  split; [|split; [|split; [|split]]].
  - intros s H. rewrite valid_cases.
    destruct (scale_overflows (sys_scale s)); [reflexivity|]. f_equal.
    destruct H as [H|H]; apply rejects_inadmissible; [assumption|].
    rewrite H. apply three_not_admissible.
  - vm_compute. reflexivity.
  - reflexivity.
  - apply overflowing_not_admissible. vm_compute. reflexivity.
  - vm_compute. reflexivity.
Qed.



End ValidatorFacts.

(** ** The [by_id] dictionary *)

Module ById.

Import Merger.

Lemma key_eqb_eq a b : key_eqb a b = true <-> a = b.
Proof.
  destruct a as [x|], b as [y|]; simpl; split; intro H;
    try discriminate; try reflexivity.
  - apply String.eqb_eq in H. now subst.
  - injection H as ->. apply String.eqb_refl.
Qed.

Lemma key_eqb_refl a : key_eqb a a = true.
Proof. now apply key_eqb_eq. Qed.

Lemma key_eqb_neq a b : key_eqb a b = false <-> a <> b.
Proof.
  rewrite <- key_eqb_eq. destruct (key_eqb a b); split; congruence.
Qed.

Lemma keys_upsert_in k s d :
  In k (keys d) -> keys (upsert k s d) = keys d.
Proof.
  induction d as [|[k' v] d IH]; simpl; [tauto|].
  intros [<-|Hin].
  - now rewrite key_eqb_refl.
  - destruct (key_eqb k k') eqn:E; simpl; [reflexivity|].
    now rewrite IH.
Qed.

Lemma keys_upsert_notin k s d :
  ~ In k (keys d) -> keys (upsert k s d) = keys d ++ [k].
Proof.
  induction d as [|[k' v] d IH]; simpl; [reflexivity|].
  intros Hn. destruct (key_eqb k k') eqn:E.
  - apply key_eqb_eq in E. subst. tauto.
  - simpl. rewrite IH; tauto.
Qed.

Lemma in_keys_dec k (d : by_id_map) : {In k (keys d)} + {~ In k (keys d)}.
Proof.
  apply in_dec. decide equality. apply string_dec.
Qed.

Lemma NoDup_keys_upsert k s d :
  NoDup (keys d) -> NoDup (keys (upsert k s d)).
Proof.
  intros Hd. destruct (in_keys_dec k d) as [Hin|Hn].
  - now rewrite keys_upsert_in.
  - rewrite keys_upsert_notin by assumption.
    apply NoDup_app; [assumption | repeat constructor; simpl; tauto |].
    intros x Hx [<-|[]]. contradiction.
Qed.

Lemma well_keyed_upsert s d :
  well_keyed d -> well_keyed (upsert (sys_id s) s d).
Proof.
  unfold well_keyed. induction d as [|[k v] d IH]; simpl; intros Hd.
  - repeat constructor.
  - inversion Hd as [|? ? Hkv Hrest]; subst.
    destruct (key_eqb (sys_id s) k) eqn:E.
    + constructor; [|assumption]. simpl. now apply key_eqb_eq.
    + constructor; [assumption | now apply IH].
Qed.

Lemma find_upsert_same k s d : find k (upsert k s d) = Some s.
Proof.
  induction d as [|[k' v] d IH]; simpl.
  - now rewrite key_eqb_refl.
  - destruct (key_eqb k k') eqn:E; simpl; now rewrite E.
Qed.

Lemma find_upsert_other k k' s d :
  k <> k' -> find k' (upsert k s d) = find k' d.
Proof.
  intros Hne. induction d as [|[k0 v] d IH]; simpl.
  - assert (key_eqb k' k = false) as -> by (apply key_eqb_neq; congruence).
    reflexivity.
  - destruct (key_eqb k k0) eqn:E; simpl.
    + apply key_eqb_eq in E. subst k0.
      assert (key_eqb k' k = false) as -> by (apply key_eqb_neq; congruence).
      reflexivity.
    + now rewrite IH.
Qed.

Lemma find_None_notin k d : find k d = None <-> ~ In k (keys d).
Proof.
  induction d as [|[k' v] d IH]; simpl; [tauto|].
  destruct (key_eqb k k') eqn:E.
  - apply key_eqb_eq in E. subst. split; [discriminate | tauto].
  - apply key_eqb_neq in E. rewrite IH. split; [|tauto].
    intros Hn [Heq|Hin]; congruence.
Qed.

(** With distinct keys and every system under its own id, the entries that
    carry an id are the binding of that id and nothing else. *)
Lemma entries_of_values k d :
  NoDup (keys d) -> well_keyed d ->
  entries_with_id k (map snd d)
  = match find k d with Some v => [v] | None => [] end.
Proof.
  unfold entries_with_id, well_keyed.
  induction d as [|[k' v] d IH]; simpl; intros Hnd Hwk; [reflexivity|].
  apply NoDup_cons_iff in Hnd. destruct Hnd as [Hnotin Hnd].
  apply Forall_cons_iff in Hwk. destruct Hwk as [Hkv Hwk].
  simpl in Hkv. rewrite Hkv.
  destruct (key_eqb k' k) eqn:E.
  - apply key_eqb_eq in E. rewrite E in *. rewrite key_eqb_refl.
    rewrite IH by assumption.
    apply find_None_notin in Hnotin. now rewrite Hnotin.
  - assert (key_eqb k k' = false) as ->.
    { apply key_eqb_neq. apply key_eqb_neq in E. congruence. }
    now apply IH.
Qed.

Lemma ids_of_values d :
  well_keyed d -> map sys_id (map snd d) = keys d.
Proof.
  unfold well_keyed, keys. induction 1 as [|[k v] d Hkv _ IH]; simpl.
  - reflexivity.
  - simpl in Hkv. now rewrite Hkv, IH.
Qed.

(** Two insertions under different keys commute up to the order of the
    entries, and exactly when one of the keys is already bound. *)
Lemma upsert_swap_perm ka a kb b d :
  ka <> kb ->
  Permutation (upsert ka a (upsert kb b d)) (upsert kb b (upsert ka a d)).
Proof.
  intros Hne. induction d as [|[k v] d IH]; simpl.
  - assert (key_eqb ka kb = false) as -> by now apply key_eqb_neq.
    assert (key_eqb kb ka = false) as ->
        by (apply key_eqb_neq; congruence).
    apply perm_swap.
  - destruct (key_eqb ka k) eqn:Ea, (key_eqb kb k) eqn:Eb; simpl;
      rewrite ?Ea, ?Eb.
    + apply key_eqb_eq in Ea, Eb. congruence.
    + reflexivity.
    + reflexivity.
    + now apply perm_skip.
Qed.

Lemma upsert_swap_eq ka a kb b d :
  ka <> kb -> In ka (keys d) \/ In kb (keys d) ->
  upsert ka a (upsert kb b d) = upsert kb b (upsert ka a d).
Proof.
  intros Hne. induction d as [|[k v] d IH]; simpl; [tauto|].
  intros Hin.
  destruct (key_eqb ka k) eqn:Ea, (key_eqb kb k) eqn:Eb; simpl;
    rewrite ?Ea, ?Eb; try reflexivity.
  - apply key_eqb_eq in Ea, Eb. congruence.
  - f_equal. apply IH. apply key_eqb_neq in Ea, Eb.
    destruct Hin as [[Heq|Hin]|[Heq|Hin]]; try congruence; tauto.
Qed.

End ById.

(** ** Merger *)

Module MergerFacts.

Import Merger ById.

Lemma systems_of_merge today existing new_systems :
  systems_of (merged today existing new_systems)
  = map snd (final_by_id existing new_systems).
Proof. reflexivity. Qed.

Lemma merge_new_cases d s :
  merge_new d s = if skipped s then d else upsert (sys_id s) s d.
Proof.
  unfold merge_new, skipped. destruct (falsy (sys_id s)); simpl; [reflexivity|].
  now destruct (country_is_India s && negb (Validator.accepts s)).
Qed.

Lemma good_nil : good [].
Proof. split; constructor. Qed.

Lemma good_upsert s d : good d -> good (upsert (sys_id s) s d).
Proof.
  intros [Hnd Hwk]. split.
  - now apply NoDup_keys_upsert.
  - now apply well_keyed_upsert.
Qed.

Lemma good_merge_new d s : good d -> good (merge_new d s).
Proof.
  intros Hd. rewrite merge_new_cases. destruct (skipped s); [assumption|].
  now apply good_upsert.
Qed.

Lemma good_fold (f : by_id_map -> System -> by_id_map) l :
  (forall d s, good d -> good (f d s)) ->
  forall d, good d -> good (fold_left f l d).
Proof.
  intros Hf. induction l as [|s l IH]; simpl; intros d Hd; [assumption|].
  apply IH, Hf, Hd.
Qed.

Lemma good_initial existing : good (initial_by_id existing).
Proof.
  unfold initial_by_id. apply good_fold; [|apply good_nil].
  intros d s. apply good_upsert.
Qed.

Lemma good_final existing new_systems : good (final_by_id existing new_systems).
Proof.
  unfold final_by_id. apply good_fold; [|apply good_initial].
  apply good_merge_new.
Qed.

(** Later systems with other ids leave a binding alone. *)
Lemma find_fold_other k post :
  (forall t, In t post -> sys_id t <> k) ->
  forall d, find k (fold_left merge_new post d) = find k d.
Proof.
  induction post as [|t post IH]; simpl; intros Hpost d; [reflexivity|].
  rewrite IH by (intros; apply Hpost; now right).
  rewrite merge_new_cases. destruct (skipped t); [reflexivity|].
  apply find_upsert_other. apply Hpost. now left.
Qed.

(** A system that is not skipped and that no later system shares its id
    with is the one entry under its id. *)
Lemma entries_after_upsert today existing pre s post :
  skipped s = false ->
  (forall t, In t post -> sys_id t <> sys_id s) ->
  entries_with_id (sys_id s)
    (systems_of (merged today existing (pre ++ s :: post)))
  = [s].
Proof.
  intros Hs Hpost. rewrite systems_of_merge.
  destruct (good_final existing (pre ++ s :: post)) as [Hnd Hwk].
  rewrite entries_of_values by assumption.
  unfold final_by_id. rewrite fold_left_app. simpl.
  rewrite find_fold_other by assumption.
  rewrite merge_new_cases, Hs. now rewrite find_upsert_same.
Qed.

Lemma distinct_NoDup l : distinct l = true -> NoDup l.
Proof.
  induction l as [|x l IH]; simpl; intros H; constructor;
    apply andb_prop in H; destruct H as [Hx Hl].
  - intros Hin. apply negb_true_iff in Hx.
    assert (existsb (key_eqb x) l = true) as E; [|congruence].
    apply existsb_exists. exists x. split; [assumption|apply key_eqb_refl].
  - now apply IH.
Qed.

(** In a list without repeated ids, nothing after a system has its id. *)
Lemma split_at_system (l : list System) s :
  NoDup (map sys_id l) -> In s l ->
  exists pre post, l = pre ++ s :: post
                   /\ forall t, In t post -> sys_id t <> sys_id s.
Proof.
  intros Hnd Hin. apply in_split in Hin. destruct Hin as (pre & post & ->).
  exists pre, post. split; [reflexivity|].
  intros t Ht Heq. rewrite map_app in Hnd. simpl in Hnd.
  apply NoDup_remove_2 in Hnd. apply Hnd. apply in_or_app. right.
  rewrite <- Heq. now apply in_map.
Qed.

Lemma values_upsert k s d x :
  In x (map snd (upsert k s d)) -> x = s \/ In x (map snd d).
Proof.
  induction d as [|[k' v] d IH]; simpl.
  - intros [<-|[]]. now left.
  - destruct (key_eqb k k'); simpl.
    + intros [<-|Hin]; [now left | right; now right].
    + intros [<-|Hin]; [right; now left |].
      destruct (IH Hin) as [->|Hd]; [now left | right; now right].
Qed.

Lemma values_fold_upsert l : forall d x,
  In x (map snd (fold_left (fun d s => upsert (sys_id s) s d) l d)) ->
  In x l \/ In x (map snd d).
Proof.
  induction l as [|s l IH]; simpl; intros d x Hin; [now right|].
  destruct (IH _ _ Hin) as [Hl|Hd]; [left; now right|].
  destruct (values_upsert _ _ _ _ Hd) as [->|Hd']; [left; now left | now right].
Qed.

Lemma values_fold_merge l : forall d x,
  In x (map snd (fold_left merge_new l d)) ->
  (In x l /\ skipped x = false) \/ In x (map snd d).
Proof.
  induction l as [|s l IH]; simpl; intros d x Hin; [now right|].
  destruct (IH _ _ Hin) as [[Hl Hs]|Hd]; [left; split; [now right|assumption]|].
  rewrite merge_new_cases in Hd. destruct (skipped s) eqn:Es; [now right|].
  destruct (values_upsert _ _ _ _ Hd) as [->|Hd']; [left | now right].
  split; [now left | assumption].
Qed.

(** Nothing is invented and nothing slips through: an entry of the merged
    catalog is an entry of the existing catalog that was kept, or a new
    system that was not skipped. *)
Lemma merged_entry_passed today existing new_systems x :
  In x (systems_of (merged today existing new_systems)) ->
  (In x (systems_of existing) /\ keep_existing x = true)
  \/ (In x new_systems /\ skipped x = false).
Proof.
  rewrite systems_of_merge. unfold final_by_id. intros Hin.
  destruct (values_fold_merge _ _ _ Hin) as [Hn|Hi]; [now right|left].
  unfold initial_by_id in Hi.
  destruct (values_fold_upsert _ _ _ Hi) as [Hf|[]].
  now apply filter_In in Hf.
Qed.

Lemma merged_entry_origin today existing new_systems x :
  In x (systems_of (merged today existing new_systems)) ->
  In x (systems_of existing) \/ In x new_systems.
Proof.
  intros Hin. destruct (merged_entry_passed _ _ _ _ Hin) as [[H _]|[H _]]; tauto.
Qed.

(** A system of India in the merged catalog has passed the Validator. *)
Lemma merged_indian_valid today existing new_systems x :
  In x (systems_of (merged today existing new_systems)) ->
  country_is_India x = true ->
  Validator.is_valid_indian_system x = Return true.
Proof.
  intros Hin Hc. apply ValidatorFacts.accepts_true. revert Hin Hc.
  intros Hin Hc. destruct (merged_entry_passed _ _ _ _ Hin) as [[_ H]|[_ H]].
  - unfold keep_existing in H. now rewrite Hc in H.
  - unfold skipped in H. apply orb_false_elim in H. destruct H as [_ H].
    rewrite Hc in H. simpl in H. now apply negb_false_iff in H.
Qed.

Lemma skipped_of_falsy s : falsy (sys_id s) = true -> skipped s = true.
Proof. unfold skipped. now intros ->. Qed.

Lemma falsy_iff sid : falsy sid = true <-> sid = None \/ sid = Some EmptyString.
Proof.
  destruct sid as [x|]; simpl.
  - rewrite String.eqb_eq. split; [intros ->; now right|].
    intros [H|H]; [discriminate | now injection H].
  - split; [now left | reflexivity].
Qed.

Lemma final_skip existing pre s post :
  skipped s = true ->
  final_by_id existing (pre ++ s :: post) = final_by_id existing (pre ++ post).
Proof.
  intros Hs. unfold final_by_id. rewrite !fold_left_app. simpl.
  now rewrite merge_new_cases, Hs.
Qed.

Lemma merge_skip today existing pre s post :
  skipped s = true ->
  merged today existing (pre ++ s :: post)
  = merged today existing (pre ++ post).
Proof.
  intros Hs. unfold merged. now rewrite (final_skip _ _ _ _ Hs).
Qed.

(** *** Merging again

    The systems of a merged catalog all pass the cleaning pass of the next
    merge, which rebuilds [by_id] as it was: merging in two runs gives the
    systems that merging in one run gives. *)

Lemma upsert_fresh k s d : ~ In k (keys d) -> upsert k s d = d ++ [(k, s)].
Proof.
  induction d as [|[k' v] d IH]; simpl; intros Hn; [reflexivity|].
  destruct (key_eqb k k') eqn:E.
  - apply key_eqb_eq in E. subst. tauto.
  - rewrite IH; tauto.
Qed.

Lemma rebuild d2 : forall d1,
  NoDup (keys (d1 ++ d2)) -> well_keyed d2 ->
  fold_left (fun d s => upsert (sys_id s) s d) (map snd d2) d1 = d1 ++ d2.
Proof.
  induction d2 as [|[k s] d2 IH]; simpl; intros d1 Hnd Hwk.
  - now rewrite app_nil_r.
  - apply Forall_cons_iff in Hwk. destruct Hwk as [Hk Hwk]. simpl in Hk.
    rewrite Hk. rewrite upsert_fresh.
    + rewrite IH; [now rewrite <- app_assoc | | assumption].
      now rewrite <- app_assoc.
    + unfold keys in Hnd. rewrite map_app in Hnd. simpl in Hnd.
      apply NoDup_remove_2 in Hnd. intros Hin. apply Hnd.
      apply in_or_app. now left.
Qed.

Lemma all_kept_upsert k s d :
  keep_existing s = true -> all_kept d -> all_kept (upsert k s d).
Proof.
  unfold all_kept. intros Hs. induction d as [|[k' v] d IH]; simpl; intros Hd.
  - repeat constructor. exact Hs.
  - apply Forall_cons_iff in Hd. destruct Hd as [Hv Hd].
    destruct (key_eqb k k'); constructor; auto.
Qed.

Lemma all_kept_fold_upsert l : forall d,
  Forall (fun s => keep_existing s = true) l -> all_kept d ->
  all_kept (fold_left (fun d s => upsert (sys_id s) s d) l d).
Proof.
  induction l as [|s l IH]; simpl; intros d Hl Hd; [assumption|].
  apply Forall_cons_iff in Hl. destruct Hl as [Hs Hl].
  apply IH; [assumption|]. now apply all_kept_upsert.
Qed.

Lemma kept_of_not_skipped s : skipped s = false -> keep_existing s = true.
Proof.
  unfold skipped, keep_existing. intros H.
  apply orb_false_elim in H. destruct H as [_ H].
  destruct (country_is_India s); [|reflexivity].
  simpl in H. now apply negb_false_iff in H.
Qed.

Lemma all_kept_final existing new_systems :
  all_kept (final_by_id existing new_systems).
Proof.
  unfold final_by_id.
  assert (all_kept (initial_by_id existing)) as Hi.
  { unfold initial_by_id. apply all_kept_fold_upsert; [|constructor].
    apply Forall_forall. intros s Hs. now apply filter_In in Hs. }
  revert Hi. generalize (initial_by_id existing).
  induction new_systems as [|s l IH]; simpl; intros d Hd; [assumption|].
  apply IH. rewrite merge_new_cases. destruct (skipped s) eqn:Es; [assumption|].
  apply all_kept_upsert; [|assumption]. now apply kept_of_not_skipped.
Qed.

Lemma filter_all {A} (f : A -> bool) l :
  Forall (fun x => f x = true) l -> filter f l = l.
Proof.
  induction 1 as [|x l Hx _ IH]; simpl; [reflexivity|]. now rewrite Hx, IH.
Qed.

Lemma initial_of_merged today existing new_systems :
  initial_by_id (merged today existing new_systems)
  = final_by_id existing new_systems.
Proof.
  unfold initial_by_id. rewrite systems_of_merge.
  destruct (good_final existing new_systems) as [Hnd Hwk].
  rewrite filter_all.
  - now apply (rebuild _ []).
  - apply Forall_map. exact (all_kept_final existing new_systems).
Qed.

(** Merging [l1] and then, in another run, [l2] gives the systems of
    merging [l1 ++ l2] at once. *)
Lemma merge_twice_systems today today' existing l1 l2 :
  systems_of (merged today'
                (merged today existing l1) l2)
  = systems_of (merged today existing (l1 ++ l2)).
Proof.
  rewrite !systems_of_merge. unfold final_by_id at 1.
  rewrite initial_of_merged. unfold final_by_id. now rewrite fold_left_app.
Qed.

(** *** The merge as the script runs it

    Either loop raises on the first system of India on whose scale [float]
    raises, the second loop only when that system has an id; otherwise the
    merge returns [merged]. *)

Lemma kept_cases s :
  kept s = if raising s then Raise OverflowError
           else Return (keep_existing s).
Proof.
  unfold kept, raising, keep_existing.
  destruct (country_is_India s); [|reflexivity]. cbn [andb].
  rewrite ValidatorFacts.raises_overflow, ValidatorFacts.valid_cases.
  now destruct (Validator.scale_overflows (sys_scale s)).
Qed.

Lemma clean_cases l :
  clean l = if existsb raising l then Raise OverflowError
            else Return (filter keep_existing l).
Proof.
  induction l as [|s l IH]; [reflexivity|].
  cbn [clean existsb filter]. rewrite kept_cases.
  destruct (raising s); [reflexivity|]. cbn [orb]. rewrite IH.
  destruct (existsb raising l); [reflexivity|].
  now destruct (keep_existing s).
Qed.

Lemma merge_one_cases d s :
  merge_one d s = if new_raising s then Raise OverflowError
                  else Return (merge_new d s).
Proof.
  unfold merge_one, new_raising, raising, merge_new.
  destruct (falsy (sys_id s)); [reflexivity|]. cbn [negb andb].
  destruct (country_is_India s); [|reflexivity]. cbn [andb].
  rewrite ValidatorFacts.raises_overflow, ValidatorFacts.valid_cases.
  destruct (Validator.scale_overflows (sys_scale s)); [reflexivity|].
  now destruct (Validator.accepts s).
Qed.

Lemma merge_all_cases l : forall d,
  merge_all l d = if existsb new_raising l then Raise OverflowError
                  else Return (fold_left merge_new l d).
Proof.
  induction l as [|s l IH]; intros d; [reflexivity|].
  cbn [merge_all existsb fold_left]. rewrite merge_one_cases.
  destruct (new_raising s); [reflexivity|]. apply IH.
Qed.

Lemma merge_cases today existing new_systems :
  merge_into_existing today existing new_systems
  = if crashes existing new_systems then Raise OverflowError
    else Return (merged today existing new_systems).
Proof.
  unfold merge_into_existing, crashes. rewrite clean_cases.
  destruct (existsb raising (systems_of existing)); [reflexivity|].
  cbn [orb]. rewrite merge_all_cases.
  now destruct (existsb new_raising new_systems).
Qed.

Lemma merge_returns today existing new_systems c :
  merge_into_existing today existing new_systems = Return c ->
  crashes existing new_systems = false
  /\ c = merged today existing new_systems.
Proof.
  rewrite merge_cases. destruct (crashes existing new_systems);
    [discriminate|]. now intros [= <-].
Qed.

Lemma merge_when_safe today existing new_systems :
  crashes existing new_systems = false ->
  merge_into_existing today existing new_systems
  = Return (merged today existing new_systems).
Proof. intros H. now rewrite merge_cases, H. Qed.

Lemma crashes_app existing l1 l2 :
  crashes existing (l1 ++ l2)
  = crashes existing l1 || existsb new_raising l2.
Proof. unfold crashes. now rewrite existsb_app, orb_assoc. Qed.

Lemma crashes_skip existing pre s post :
  falsy (sys_id s) = true ->
  crashes existing (pre ++ s :: post) = crashes existing (pre ++ post).
Proof.
  intros Hs. unfold crashes. rewrite !existsb_app. cbn [existsb].
  unfold new_raising at 2. now rewrite Hs.
Qed.

(** No entry of a catalog that a merge returned makes the next merge
    raise. *)
Lemma kept_not_raising s : keep_existing s = true -> raising s = false.
Proof.
  unfold keep_existing, raising, Validator.accepts, Validator.raises.
  destruct (country_is_India s); [|reflexivity]. cbn [andb].
  now destruct (Validator.is_valid_indian_system s).
Qed.

Lemma merged_never_raising today existing l :
  existsb raising (systems_of (merged today existing l)) = false.
Proof.
  rewrite systems_of_merge.
  destruct (existsb raising (map snd (final_by_id existing l))) eqn:E;
    [|reflexivity].
  apply existsb_exists in E. destruct E as (x & Hin & Hx).
  pose proof (all_kept_final existing l) as Hk. unfold all_kept in Hk.
  apply in_map_iff in Hin. destruct Hin as (kv & <- & Hkv).
  rewrite Forall_forall in Hk.
  now rewrite (kept_not_raising _ (Hk kv Hkv)) in Hx.
Qed.

Lemma crashes_again today existing l l' :
  crashes (merged today existing l) l' = existsb new_raising l'.
Proof. unfold crashes. now rewrite merged_never_raising. Qed.

End MergerFacts.

(** ** The claims about the Merger *)

Module MergerClaims.

Import Merger ById MergerFacts.

(** C10: whatever the existing catalog and the new systems are, the systems
    of the catalog that the merge returns have pairwise distinct ids. *)
Theorem merged_ids_distinct today existing new_systems c :
  merge_into_existing today existing new_systems = Return c ->
  NoDup (map sys_id (systems_of c)).
Proof.
  intros Hc. apply merge_returns in Hc. destruct Hc as [_ ->].
  rewrite systems_of_merge.
  destruct (good_final existing new_systems) as [Hnd Hwk].
  now rewrite ids_of_values.
Qed.

Lemma merged_ids_distinct_witness :
  merge_into_existing "2024-06-01" Samples.catalog_1_0_3
    [Samples.kathmandu; Samples.anna_university; Samples.kathmandu]
  = Return (merged "2024-06-01" Samples.catalog_1_0_3
              [Samples.kathmandu; Samples.anna_university;
               Samples.kathmandu])
  /\ NoDup (map sys_id
              (systems_of
                 (merged "2024-06-01" Samples.catalog_1_0_3
                    [Samples.kathmandu; Samples.anna_university;
                     Samples.kathmandu]))).
Proof.
  split; [reflexivity|].
  apply (merged_ids_distinct "2024-06-01" Samples.catalog_1_0_3
           [Samples.kathmandu; Samples.anna_university; Samples.kathmandu]).
  reflexivity.
Defined.

(** C9: a new system whose id is missing or empty is skipped, valid or not,
    before the Validator sees it: the merge does what it does without that
    system, and when it returns, a system that is neither in the existing
    catalog nor elsewhere among the new ones is not in the result. *)
Theorem missing_id_skipped today existing pre s post :
  sys_id s = None \/ sys_id s = Some EmptyString ->
  merge_into_existing today existing (pre ++ s :: post)
  = merge_into_existing today existing (pre ++ post)
  /\ (forall c,
         merge_into_existing today existing (pre ++ s :: post) = Return c ->
         ~ In s (systems_of existing) -> ~ In s pre -> ~ In s post ->
         ~ In s (systems_of c)).
Proof.
  intros Hid. apply falsy_iff in Hid.
  pose proof (skipped_of_falsy _ Hid) as Hs.
  assert (merge_into_existing today existing (pre ++ s :: post)
          = merge_into_existing today existing (pre ++ post)) as Heq.
  { rewrite !merge_cases, (crashes_skip _ _ _ _ Hid).
    now rewrite (merge_skip _ _ _ _ _ Hs). }
  split; [exact Heq|].
  intros c Hc He Hpre Hpost Hin. rewrite Heq in Hc.
  apply merge_returns in Hc. destruct Hc as [_ ->].
  apply merged_entry_origin in Hin. destruct Hin as [Hin|Hin]; [tauto|].
  apply in_app_or in Hin. tauto.
Qed.

Lemma missing_id_skipped_witness :
  Validator.is_valid_indian_system Samples.anonymous_system = Return true
  /\ merge_into_existing "2024-06-01" Samples.catalog_1_0_3
       ([Samples.kathmandu] ++ Samples.anonymous_system :: [Samples.tribhuvan])
     = merge_into_existing "2024-06-01" Samples.catalog_1_0_3
         ([Samples.kathmandu] ++ [Samples.tribhuvan]).
Proof.
  split; [vm_compute; reflexivity|].
  apply (missing_id_skipped "2024-06-01" Samples.catalog_1_0_3
           [Samples.kathmandu] Samples.anonymous_system [Samples.tribhuvan]).
  left. reflexivity.
Defined.

(** C4: when a system that is not skipped is merged after another one with
    the same id, in the same run or in the next one, the catalog that the
    merge returns holds exactly one entry with that id, and it is the later
    system. *)
Theorem same_id_merged_twice today today' existing s1 s2 :
  sys_id s1 = sys_id s2 ->
  skipped s2 = false ->
  (forall c,
      merge_into_existing today existing [s1; s2] = Return c ->
      entries_with_id (sys_id s2) (systems_of c) = [s2])
  /\ (forall c1 c2,
         merge_into_existing today existing [s1] = Return c1 ->
         merge_into_existing today' c1 [s2] = Return c2 ->
         entries_with_id (sys_id s2) (systems_of c2) = [s2]).
Proof.
  intros _ Hs. split.
  - intros c Hc. apply merge_returns in Hc. destruct Hc as [_ ->].
    apply (entries_after_upsert today existing [s1] s2 []); [assumption|].
    intros t [].
  - intros c1 c2 _ Hc2. apply merge_returns in Hc2. destruct Hc2 as [_ ->].
    apply (entries_after_upsert today' _ [] s2 []); [assumption|].
    intros t [].
Qed.

Lemma same_id_merged_twice_witness :
  merge_into_existing "2024-06-01" Samples.catalog_1_0_3
    [Samples.anna_university; Samples.anna_university_revised]
  = Return (merged "2024-06-01" Samples.catalog_1_0_3
              [Samples.anna_university; Samples.anna_university_revised])
  /\ entries_with_id (Some "anna_university"%string)
       (systems_of (merged "2024-06-01" Samples.catalog_1_0_3
                      [Samples.anna_university;
                       Samples.anna_university_revised]))
     = [Samples.anna_university_revised].
Proof.
  split; [vm_compute; reflexivity|].
  apply (proj1 (same_id_merged_twice "2024-06-01" "2024-06-02"
                  Samples.catalog_1_0_3 Samples.anna_university
                  Samples.anna_university_revised eq_refl eq_refl)).
  vm_compute. reflexivity.
Defined.

Lemma find_swap ka a kb b d k :
  ka <> kb ->
  find k (upsert ka a (upsert kb b d)) = find k (upsert kb b (upsert ka a d)).
Proof.
  intros Hne.
  destruct (key_eqb ka k) eqn:Ea; [apply key_eqb_eq in Ea; subst k|].
  - rewrite find_upsert_same.
    rewrite find_upsert_other by congruence. now rewrite find_upsert_same.
  - apply key_eqb_neq in Ea. rewrite find_upsert_other by assumption.
    destruct (key_eqb kb k) eqn:Eb; [apply key_eqb_eq in Eb; subst k|].
    + now rewrite !find_upsert_same.
    + apply key_eqb_neq in Eb.
      now rewrite !find_upsert_other by assumption.
Qed.

Lemma final_two existing a b :
  final_by_id existing [a; b]
  = merge_new (merge_new (initial_by_id existing) a) b.
Proof. reflexivity. Qed.

(** The two orders of two new systems, in one run or in two, on the merge
    that returns. *)
Lemma merged_order today today' existing a b :
  sys_id a <> sys_id b ->
  let m1 := merged today existing [a; b] in
  let m2 := merged today existing [b; a] in
  let r1 := merged today' (merged today existing [a]) [b] in
  let r2 := merged today' (merged today existing [b]) [a] in
  cat_version m1 = cat_version m2
  /\ cat_lastUpdated m1 = cat_lastUpdated m2
  /\ cat_other m1 = cat_other m2
  /\ Permutation (systems_of m1) (systems_of m2)
  /\ (forall k, entries_with_id k (systems_of m1)
                = entries_with_id k (systems_of m2))
  /\ (skipped a = true \/ skipped b = true
      \/ In (sys_id a) (keys (initial_by_id existing))
      \/ In (sys_id b) (keys (initial_by_id existing)) ->
      m1 = m2)
  /\ cat_version r1 = cat_version r2
  /\ cat_lastUpdated r1 = cat_lastUpdated r2
  /\ cat_other r1 = cat_other r2
  /\ systems_of r1 = systems_of m1
  /\ systems_of r2 = systems_of m2.
Proof.
  intros Hne m1 m2 r1 r2.
  assert (Permutation (systems_of m1) (systems_of m2)) as Hperm.
  { subst m1 m2. rewrite !systems_of_merge, !final_two, !merge_new_cases.
    destruct (skipped a), (skipped b); try reflexivity.
    apply Permutation_map. apply Permutation_sym.
    now apply upsert_swap_perm. }
  split; [reflexivity|]. split; [reflexivity|]. split; [reflexivity|].
  split; [exact Hperm|]. split; [|split].
  - intros k. subst m1 m2. rewrite !systems_of_merge.
    destruct (good_final existing [a; b]) as [Hnd1 Hwk1].
    destruct (good_final existing [b; a]) as [Hnd2 Hwk2].
    rewrite !entries_of_values by assumption.
    rewrite !final_two, !merge_new_cases.
    destruct (skipped a), (skipped b); try reflexivity.
    rewrite (find_swap (sys_id b) b (sys_id a) a) by congruence.
    reflexivity.
  - intros Hcase. subst m1 m2. unfold merged.
    rewrite !final_two, !merge_new_cases.
    destruct (skipped a) eqn:Sa, (skipped b) eqn:Sb; try reflexivity.
    destruct Hcase as [H|[H|H]]; try discriminate.
    rewrite (upsert_swap_eq (sys_id b) b (sys_id a) a) by (congruence || tauto).
    reflexivity.
  - split; [reflexivity|]. split; [reflexivity|]. split; [reflexivity|].
    subst m1 m2 r1 r2. split; apply merge_twice_systems.
Qed.

Lemma crashes_two existing a b :
  crashes existing [a; b] = false ->
  crashes existing [b; a] = false
  /\ crashes existing [a] = false
  /\ crashes existing [b] = false
  /\ new_raising a = false
  /\ new_raising b = false.
Proof.
  unfold crashes. cbn [existsb].
  destruct (existsb raising (systems_of existing)); [discriminate|].
  destruct (new_raising a); [discriminate|].
  destruct (new_raising b); [discriminate|]. auto.
Qed.

(** C2, as the code has it: for two new systems with different ids, when
    the merge of the two in one order returns, so do the merge in the other
    order and the merges in two runs; the two orders give the same version,
    date and other fields, and the same entries under every id; the lists of
    systems are permutations of each other, and are equal when one of the
    two is skipped or one of the ids is already in the cleaned catalog. *)
Theorem merge_order_up_to_permutation today today' existing a b m1 :
  sys_id a <> sys_id b ->
  merge_into_existing today existing [a; b] = Return m1 ->
  exists m2 ca cb r1 r2,
    merge_into_existing today existing [b; a] = Return m2
    /\ merge_into_existing today existing [a] = Return ca
    /\ merge_into_existing today' ca [b] = Return r1
    /\ merge_into_existing today existing [b] = Return cb
    /\ merge_into_existing today' cb [a] = Return r2
    /\ cat_version m1 = cat_version m2
    /\ cat_lastUpdated m1 = cat_lastUpdated m2
    /\ cat_other m1 = cat_other m2
    /\ Permutation (systems_of m1) (systems_of m2)
    /\ (forall k, entries_with_id k (systems_of m1)
                  = entries_with_id k (systems_of m2))
    /\ (skipped a = true \/ skipped b = true
        \/ In (sys_id a) (keys (initial_by_id existing))
        \/ In (sys_id b) (keys (initial_by_id existing)) ->
        m1 = m2)
    /\ cat_version r1 = cat_version r2
    /\ cat_lastUpdated r1 = cat_lastUpdated r2
    /\ cat_other r1 = cat_other r2
    /\ systems_of r1 = systems_of m1
    /\ systems_of r2 = systems_of m2.
Proof.
  intros Hne Hm1. apply merge_returns in Hm1. destruct Hm1 as [Hsafe ->].
  destruct (crashes_two _ _ _ Hsafe) as (Hba & Ha & Hb & Hna & Hnb).
  exists (merged today existing [b; a]), (merged today existing [a]),
    (merged today existing [b]),
    (merged today' (merged today existing [a]) [b]),
    (merged today' (merged today existing [b]) [a]).
  split; [now apply merge_when_safe|].
  split; [now apply merge_when_safe|].
  split; [apply merge_when_safe; rewrite crashes_again; cbn [existsb];
          now rewrite Hnb|].
  split; [now apply merge_when_safe|].
  split; [apply merge_when_safe; rewrite crashes_again; cbn [existsb];
          now rewrite Hna|].
  exact (merged_order today today' existing a b Hne).
Qed.

Lemma merge_order_up_to_permutation_witness :
  exists m2 ca cb r1 r2,
    merge_into_existing "2024-06-01" Samples.catalog_1_0_3
      [Samples.tribhuvan; Samples.kathmandu] = Return m2
    /\ merge_into_existing "2024-06-01" Samples.catalog_1_0_3
         [Samples.kathmandu] = Return ca
    /\ merge_into_existing "2024-06-02" ca [Samples.tribhuvan] = Return r1
    /\ merge_into_existing "2024-06-01" Samples.catalog_1_0_3
         [Samples.tribhuvan] = Return cb
    /\ merge_into_existing "2024-06-02" cb [Samples.kathmandu] = Return r2
    /\ cat_version
         (merged "2024-06-01" Samples.catalog_1_0_3
            [Samples.kathmandu; Samples.tribhuvan])
       = cat_version m2
    /\ cat_lastUpdated
         (merged "2024-06-01" Samples.catalog_1_0_3
            [Samples.kathmandu; Samples.tribhuvan])
       = cat_lastUpdated m2
    /\ cat_other
         (merged "2024-06-01" Samples.catalog_1_0_3
            [Samples.kathmandu; Samples.tribhuvan])
       = cat_other m2
    /\ Permutation
         (systems_of (merged "2024-06-01" Samples.catalog_1_0_3
                        [Samples.kathmandu; Samples.tribhuvan]))
         (systems_of m2)
    /\ (forall k,
           entries_with_id k
             (systems_of (merged "2024-06-01" Samples.catalog_1_0_3
                            [Samples.kathmandu; Samples.tribhuvan]))
           = entries_with_id k (systems_of m2))
    /\ (skipped Samples.kathmandu = true \/ skipped Samples.tribhuvan = true
        \/ In (sys_id Samples.kathmandu)
              (keys (initial_by_id Samples.catalog_1_0_3))
        \/ In (sys_id Samples.tribhuvan)
              (keys (initial_by_id Samples.catalog_1_0_3)) ->
        merged "2024-06-01" Samples.catalog_1_0_3
          [Samples.kathmandu; Samples.tribhuvan] = m2)
    /\ cat_version r1 = cat_version r2
    /\ cat_lastUpdated r1 = cat_lastUpdated r2
    /\ cat_other r1 = cat_other r2
    /\ systems_of r1
       = systems_of (merged "2024-06-01" Samples.catalog_1_0_3
                       [Samples.kathmandu; Samples.tribhuvan])
    /\ systems_of r2 = systems_of m2.
Proof.
  apply (merge_order_up_to_permutation "2024-06-01" "2024-06-02"
           Samples.catalog_1_0_3 Samples.kathmandu Samples.tribhuvan).
  - simpl. discriminate.
  - vm_compute. reflexivity.
Defined.

(** C2 as stated fails: two new systems with different ids land in the
    catalog in the order in which they are merged, in one run or in two. *)
Lemma merge_order_counterexample :
  sys_id Samples.kathmandu <> sys_id Samples.tribhuvan
  /\ (exists m1 m2,
         merge_into_existing "2024-06-01" Samples.catalog_1_0_3
           [Samples.kathmandu; Samples.tribhuvan] = Return m1
         /\ merge_into_existing "2024-06-01" Samples.catalog_1_0_3
              [Samples.tribhuvan; Samples.kathmandu] = Return m2
         /\ systems_of m1 = [Samples.kathmandu; Samples.tribhuvan]
         /\ systems_of m2 = [Samples.tribhuvan; Samples.kathmandu]
         /\ m1 <> m2)
  /\ merge_into_existing "2024-06-01" Samples.catalog_1_0_3
       [Samples.kathmandu; Samples.tribhuvan]
     <> merge_into_existing "2024-06-01" Samples.catalog_1_0_3
          [Samples.tribhuvan; Samples.kathmandu]
  /\ (exists ck ct r1 r2,
         merge_into_existing "2024-06-01" Samples.catalog_1_0_3
           [Samples.kathmandu] = Return ck
         /\ merge_into_existing "2024-06-02" ck [Samples.tribhuvan]
            = Return r1
         /\ merge_into_existing "2024-06-01" Samples.catalog_1_0_3
              [Samples.tribhuvan] = Return ct
         /\ merge_into_existing "2024-06-02" ct [Samples.kathmandu]
            = Return r2
         /\ systems_of r1 = [Samples.kathmandu; Samples.tribhuvan]
         /\ systems_of r2 = [Samples.tribhuvan; Samples.kathmandu]
         /\ r1 <> r2).
Proof.
  split; [simpl; discriminate|]. split; [|split].
  - eexists. eexists. split; [vm_compute; reflexivity|].
    split; [vm_compute; reflexivity|].
    split; [reflexivity|]. split; [reflexivity|].
    intros H. apply (f_equal systems_of) in H.
    apply (f_equal (map sys_id)) in H. vm_compute in H. discriminate.
  - intros H. vm_compute in H. discriminate.
  - eexists. eexists. eexists. eexists.
    split; [vm_compute; reflexivity|]. split; [vm_compute; reflexivity|].
    split; [vm_compute; reflexivity|]. split; [vm_compute; reflexivity|].
    split; [reflexivity|]. split; [reflexivity|].
    intros H. apply (f_equal systems_of) in H.
    apply (f_equal (map sys_id)) in H. vm_compute in H. discriminate.
Qed.

Lemma baselines_checked :
  forallb (fun s => negb (skipped s) && negb (country_is_India s))
          Baselines.country_baselines = true
  /\ distinct (map sys_id Baselines.country_baselines) = true.
Proof. split; vm_compute; reflexivity. Qed.

Lemma other_country_never_raising s :
  country_is_India s = false -> new_raising s = false.
Proof.
  intros Hc. unfold new_raising, raising. rewrite Hc.
  now destruct (falsy (sys_id s)).
Qed.

(** C8: a new system of another country with a non-empty id is upserted
    without the Validator being called: the merge raises with it exactly
    when it raises without it and, when it returns, the system is the one
    entry under its id, unless a later system takes that id.  Every baseline
    system is merged unchanged, although the scale 20 of some of them is not
    admissible. *)
Theorem other_countries_not_validated :
  (forall today existing pre s post c,
      country_is_India s = false ->
      falsy (sys_id s) = false ->
      (forall t, In t post -> sys_id t <> sys_id s) ->
      merge_into_existing today existing (pre ++ s :: post) = Return c ->
      entries_with_id (sys_id s) (systems_of c) = [s])
  /\ (forall today existing pre s post e,
         country_is_India s = false ->
         merge_into_existing today existing (pre ++ s :: post) = Raise e
         <-> merge_into_existing today existing (pre ++ post) = Raise e)
  /\ (forall today existing s c,
        In s Baselines.country_baselines ->
        merge_into_existing today existing Baselines.country_baselines
        = Return c ->
        entries_with_id (sys_id s) (systems_of c) = [s])
  /\ (exists s, In s Baselines.country_baselines
                /\ sys_scale s = VFloat 20%float
                /\ Validator.is_valid_indian_system s = Return false).
Proof.
  split; [|split; [|split]].
  - intros today existing pre s post c Hc Hid Hpost Hret.
    apply merge_returns in Hret. destruct Hret as [_ ->].
    apply entries_after_upsert; [|assumption].
    unfold skipped. now rewrite Hid, Hc.
  - intros today existing pre s post e Hc.
    rewrite !merge_cases.
    assert (crashes existing (pre ++ s :: post)
            = crashes existing (pre ++ post)) as ->.
    { unfold crashes. rewrite !existsb_app. cbn [existsb].
      now rewrite (other_country_never_raising s Hc). }
    destruct (crashes existing (pre ++ post)); [tauto|].
    split; discriminate.
  - intros today existing s c Hin Hret.
    apply merge_returns in Hret. destruct Hret as [_ ->].
    destruct baselines_checked as [Hall Hdist].
    destruct (split_at_system _ s (distinct_NoDup _ Hdist) Hin)
      as (pre & post & Heq & Hpost).
    rewrite Heq. apply entries_after_upsert; [|assumption].
    rewrite forallb_forall in Hall. specialize (Hall s Hin).
    apply andb_prop in Hall. destruct Hall as [Hs _].
    now apply negb_true_iff in Hs.
  - exists (nth 2 Baselines.country_baselines Samples.kathmandu).
    split; [|split]; [|reflexivity|vm_compute; reflexivity].
    simpl. right. right. left. reflexivity.
Qed.

Lemma other_countries_not_validated_witness :
  Validator.is_valid_indian_system Samples.kathmandu = Return false
  /\ merge_into_existing "2024-06-01" Samples.catalog_1_0_3
       ([Samples.tribhuvan] ++ Samples.kathmandu :: [])
     = Return (merged "2024-06-01" Samples.catalog_1_0_3
                 [Samples.tribhuvan; Samples.kathmandu])
  /\ entries_with_id (sys_id Samples.kathmandu)
       (systems_of (merged "2024-06-01" Samples.catalog_1_0_3
                      [Samples.tribhuvan; Samples.kathmandu]))
     = [Samples.kathmandu].
Proof.
  split; [vm_compute; reflexivity|]. split; [vm_compute; reflexivity|].
  apply (proj1 other_countries_not_validated "2024-06-01"%string
           Samples.catalog_1_0_3 [Samples.tribhuvan] Samples.kathmandu []).
  - reflexivity.
  - reflexivity.
  - intros t [].
  - vm_compute. reflexivity.
Defined.




End MergerClaims.

(** ** Table Interpreter *)

Module InterpreterFacts.

Import Interpreter.

Lemma find_points_sign cells : forall points,
  find_points cells = Some points ->
  Num.not_negative (Prim2SF points) = true.
Proof.
  induction cells as [|cell cells IH]; simpl; intros points H; [discriminate|].
  destruct (Re.search re_number cell) as [m|]; [|now apply IH].
  destruct (Num.float_of_token (Re.group0 m)) as [val|] eqn:E; [|now apply IH].
  injection H as <-. now apply (FloatFacts.float_of_token_sign _ _ E).
Qed.

Lemma grade_of_row_extracted r g : grade_of_row r = Some g -> extracted_row g.
Proof.
  unfold grade_of_row. destruct r as [|grade_label cells]; [discriminate|].
  destruct (find_points cells) as [points|] eqn:Ep; [|discriminate].
  destruct (String.eqb grade_label EmptyString) eqn:El; [discriminate|].
  intros [= <-]. exists grade_label, points. repeat split.
  - now apply String.eqb_neq.
  - apply FloatFacts.not_below_zero. now apply find_points_sign with cells.
Qed.

Lemma filter_map_Forall {A B} (f : A -> option B) (P : B -> Prop) l :
  (forall x y, f x = Some y -> P y) -> Forall P (filter_map f l).
Proof.
  intros Hf. induction l as [|x l IH]; simpl; [constructor|].
  destruct (f x) as [y|] eqn:E; [|exact IH].
  constructor; [now apply (Hf x) | exact IH].
Qed.

Lemma first_success_In {A B} (f : A -> option B) l y :
  first_success f l = Some y -> exists x, In x l /\ f x = Some y.
Proof.
  induction l as [|x l IH]; simpl; [discriminate|].
  destruct (f x) as [y'|] eqn:E.
  - intros [= <-]. exists x. split; [now left | exact E].
  - intros H. destruct (IH H) as (x' & Hin & Hx'). exists x'.
    split; [now right | exact Hx'].
Qed.

Lemma parse_table_rows table scale grades :
  parse_table table = Some (scale, grades) -> Forall extracted_row grades.
Proof.
  unfold parse_table.
  set (rows := filter _ (tr_cells table)).
  destruct (List.length rows <? 2)%nat; [discriminate|].
  pose proof (filter_map_Forall grade_of_row extracted_row rows
                grade_of_row_extracted) as Hrows.
  destruct (filter_map grade_of_row rows) as [|g gs] eqn:Eg; [discriminate|].
  destruct (or_else _ _) as [scale_guess|]; [|discriminate].
  destruct (_ && _); [discriminate|].
  now intros [= _ <-].
Qed.

(** Every row of a Table Interpreter result has a non-empty label and
    points that are a float not below zero. *)
Lemma parsed_rows soup scale grades :
  try_parse_grading_table soup = Some (scale, grades) ->
  Forall extracted_row grades.
Proof.
  unfold try_parse_grading_table. intros H.
  apply first_success_In in H. destruct H as (table & _ & Ht).
  now apply parse_table_rows with table scale.
Qed.

End InterpreterFacts.

(** ** The bound on points *)

Module RangeClaims.

Import Merger MergerFacts Validator ValidatorFacts.

(** C1, as the code has it.  Every row of a Table Interpreter result has
    points that are not below zero; the upper bound is enforced by the
    Validator at the merge, on systems of India, and on whole systems.
    Every system of India in a catalog that the merge returns has a numeric
    scale and rows whose points are numbers neither below 0 nor above the
    scale plus 1e-6; and a new system of India with a row outside the bound
    is skipped as a whole. *)
Theorem indian_points_in_range :
  (forall soup scale grades,
      Interpreter.try_parse_grading_table soup = Some (scale, grades) ->
      Forall Interpreter.extracted_row grades)
  /\ (forall today existing new_systems c s,
      merge_into_existing today existing new_systems = Return c ->
      In s (systems_of c) ->
      country_is_India s = true ->
      exists scale f grades,
        as_number (sys_scale s) = Some scale
        /\ Num.py_float scale = Return f
        /\ sys_grades s = VList grades
        /\ Forall (row_in_range f) grades)
  /\ (forall today existing pre s post scale f grades,
         country_is_India s = true ->
         as_number (sys_scale s) = Some scale ->
         Num.py_float scale = Return f ->
         sys_grades s = VList grades ->
         Exists (fun row => ~ row_in_range f row) grades ->
         merge_into_existing today existing (pre ++ s :: post)
         = merge_into_existing today existing (pre ++ post)).
Proof.
  split; [exact InterpreterFacts.parsed_rows|]. split.
  - intros today existing new_systems c s Hc Hin Hi.
    apply merge_returns in Hc. destruct Hc as [_ ->].
    pose proof (merged_indian_valid _ _ _ _ Hin Hi) as Hv.
    destruct (valid_system s Hv)
      as (n & f & grades & Hn & Hf & _ & Hg & _ & _ & Hr).
    now exists n, f, grades.
  - intros today existing pre s post scale f grades Hc Hn Hf Hg Hex.
    assert (is_valid_indian_system s = Return false) as Hv.
    { destruct (is_valid_indian_system s) as [[]|e] eqn:Hv.
      - exfalso.
        destruct (valid_system s Hv)
          as (n & f' & gs & Hn' & Hf' & _ & Hg' & _ & _ & Hr).
        rewrite Hn in Hn'. injection Hn' as <-.
        rewrite Hf in Hf'. injection Hf' as <-.
        rewrite Hg in Hg'. injection Hg' as <-.
        apply Exists_exists in Hex. destruct Hex as (row & Hin & Hrow).
        rewrite Forall_forall in Hr. now apply Hrow, Hr.
      - reflexivity.
      - unfold is_valid_indian_system in Hv. rewrite Hn, Hf in Hv.
        discriminate. }
    assert (skipped s = true) as Hs.
    { unfold skipped, accepts. rewrite Hc, Hv. apply orb_true_r. }
    assert (new_raising s = false) as Hr.
    { unfold new_raising, raising, raises. rewrite Hv.
      now rewrite andb_false_r, andb_false_r. }
    rewrite !merge_cases, (merge_skip _ _ _ _ _ Hs).
    unfold crashes. rewrite !existsb_app. cbn [existsb].
    now rewrite Hr.
Qed.

Lemma indian_points_in_range_witness :
  exists scale f grades,
    as_number (sys_scale Samples.anna_university) = Some scale
    /\ Num.py_float scale = Return f
    /\ sys_grades Samples.anna_university = VList grades
    /\ Forall (row_in_range f) grades.
Proof.
  apply (proj1 (proj2 indian_points_in_range) "2024-06-01"%string
           Samples.catalog_1_0_3 [Samples.anna_university]
           (merged "2024-06-01" Samples.catalog_1_0_3
              [Samples.anna_university])).
  - vm_compute. reflexivity.
  - vm_compute. left. reflexivity.
  - reflexivity.
Defined.

(** C1 as stated fails.  The table of [Samples.four_point_page] is read as a
    scale of 4.0 with a row of 7 points; the world crawl merges the system
    with that row; and as a system of India it is dropped whole, though
    without that row it would pass. *)
Lemma table_points_counterexample :
  Interpreter.try_parse_grading_table Samples.four_point_page
  = Some (4%float, Samples.four_point_rows)
  /\ In [("grade"%string, VStr "D"); ("points"%string, VFloat 7)]
        Samples.four_point_rows
  /\ out_of_range (Num.NFloat 7) 4 = true
  /\ (exists c,
         merge_into_existing "2024-06-01" Samples.catalog_1_0_3
           [Interpreter.world_system "Kathmandu University" "Nepal" 4
              Samples.four_point_rows] = Return c
         /\ systems_of c
            = [Interpreter.world_system "Kathmandu University" "Nepal" 4
                 Samples.four_point_rows])
  /\ (exists c,
         merge_into_existing "2024-06-01" Samples.catalog_1_0_3
           [Interpreter.normalize_system "Some University" "India"
              "South Asia" 4 Samples.four_point_rows] = Return c
         /\ systems_of c = [])
  /\ is_valid_indian_system
       (Interpreter.normalize_system "Some University" "India" "South Asia"
          4 (removelast Samples.four_point_rows))
     = Return true.
Proof.
  split; [vm_compute; reflexivity|].
  split; [simpl; do 3 right; left; reflexivity|].
  split; [vm_compute; reflexivity|].
  split; [eexists; split; [vm_compute; reflexivity | reflexivity]|].
  split; [eexists; split; [vm_compute; reflexivity | reflexivity]|].
  vm_compute. reflexivity.
Qed.

End RangeClaims.

(** ** Site Crawler *)

Module CrawlerFacts.

Import Interpreter Crawler.

Lemma first_success_snoc {A B} (g : A -> option B) l x :
  first_success g (l ++ [x])
  = match first_success g l with
    | Some y => Some y
    | None => g x
    end.
Proof.
  induction l as [|a l IH]; simpl.
  - now destruct (g x).
  - destruct (g a); [reflexivity | exact IH].
Qed.

Lemma mem_false_notin x l : Text.mem x l = false -> ~ In x l.
Proof.
  unfold Text.mem. intros H Hin.
  assert (existsb (String.eqb x) l = true) as E; [|congruence].
  apply existsb_exists. exists x. split; [assumption | apply String.eqb_refl].
Qed.

Section Explore.

Variable fetch : string -> option string.
Variable BeautifulSoup : string -> Soup.
Variable base_url : string.

Local Abbreviation invariant := (invariant fetch BeautifulSoup).
Local Abbreviation finished := (finished fetch BeautifulSoup).
Local Abbreviation runs_to := (runs_to fetch BeautifulSoup base_url).

Lemma invariant_finished st : invariant st -> finished None st.
Proof.
  intros (Hf & Hnd & Hlen & Hnone). unfold Crawler.finished.
  rewrite Hf at 1 2. rewrite length_rev. split; [|split].
  - assumption.
  - now apply NoDup_rev.
  - now rewrite Hnone.
Qed.

Lemma stop_when_condition_fails st :
  loop_condition st = false -> runs_to st None st.
Proof.
  intros Hc. exists 1. intros [|fuel'] Hle; [lia|]. simpl. now rewrite Hc.
Qed.

Lemma runs_after_next st st' results st'' :
  loop_condition st = true ->
  loop_body fetch BeautifulSoup base_url st = Next st' ->
  runs_to st' results st'' -> runs_to st results st''.
Proof.
  intros Hc Hb (fuel & Hfuel). exists (S fuel).
  intros [|fuel'] Hle; [lia|]. simpl. rewrite Hc, Hb. apply Hfuel. lia.
Qed.

Lemma runs_after_break st result st' :
  loop_condition st = true ->
  loop_body fetch BeautifulSoup base_url st = Break result st' ->
  runs_to st (Some result) st'.
Proof.
  intros Hc Hb. exists 1. intros [|fuel'] Hle; [lia|]. simpl.
  now rewrite Hc, Hb.
Qed.

Lemma invariant_visit url queue v f :
  invariant (mkState (url :: queue) v f) ->
  List.length v < max_pages ->
  ~ In url v ->
  page_result fetch BeautifulSoup url = None ->
  forall queue', invariant (mkState queue' (url :: v) (f ++ [url])).
Proof.
  intros (Hf & Hnd & Hlen & Hnone) Hlt Hnotin Hpage queue'.
  simpl in *. split; [|split; [|split]]; simpl.
  - now rewrite Hf.
  - now constructor.
  - unfold max_pages in *. lia.
  - now rewrite first_success_snoc, Hnone.
Qed.

(** The loop ends from every state that satisfies the invariant: by
    induction on the pages still allowed, then on the queue. *)
Lemma loop_ends : forall budget queue v f,
  max_pages - List.length v <= budget ->
  invariant (mkState queue v f) ->
  exists results st', runs_to (mkState queue v f) results st'
                      /\ finished results st'.
Proof.
  induction budget as [|budget IHbudget]; intros queue v f Hbudget Hinv.
  - exists None, (mkState queue v f). split.
    + apply stop_when_condition_fails. unfold loop_condition. simpl.
      destruct queue; [reflexivity|]. apply Nat.ltb_ge. lia.
    + now apply invariant_finished.
  - revert Hinv. induction queue as [|url queue IHqueue]; intros Hinv.
    + exists None, (mkState [] v f). split.
      * now apply stop_when_condition_fails.
      * now apply invariant_finished.
    + destruct (Nat.ltb_spec (List.length v) max_pages) as [Hlt|Hge].
      2:{ exists None, (mkState (url :: queue) v f). split.
          - apply stop_when_condition_fails. unfold loop_condition. simpl.
            apply Nat.ltb_ge. exact Hge.
          - now apply invariant_finished. }
      assert (loop_condition (mkState (url :: queue) v f) = true) as Hc.
      { unfold loop_condition. simpl. now apply Nat.ltb_lt. }
      destruct (Text.mem url v) eqn:Hmem.
      * (* already visited: [continue] *)
        destruct IHqueue as (results & st' & Hrun & Hfin).
        { exact Hinv. }
        exists results, st'. split; [|assumption].
        eapply runs_after_next; [exact Hc | | exact Hrun].
        unfold loop_body. simpl. now rewrite Hmem.
      * pose proof (mem_false_notin _ _ Hmem) as Hnotin.
        assert (max_pages - List.length (url :: v) <= budget) as Hb'
            by (cbn [List.length]; lia).
        destruct (page_result fetch BeautifulSoup url) as [result|] eqn:Hpage.
        -- (* the page matches: [break] *)
           exists (Some result), (mkState queue (url :: v) (f ++ [url])).
           split.
           ++ apply runs_after_break; [exact Hc|].
              unfold loop_body. simpl. rewrite Hmem.
              unfold page_result in Hpage.
              destruct (fetch url) as [html|]; [|discriminate].
              destruct (String.eqb html EmptyString); [discriminate|].
              now rewrite Hpage.
           ++ destruct Hinv as (Hf & Hnd & Hlen & Hnone). simpl in *.
              unfold Crawler.finished. simpl. split; [|split].
              ** rewrite length_app, Hf, length_rev. simpl. lia.
              ** rewrite Hf.
                 change (List.rev v ++ [url]) with (List.rev (url :: v)).
                 apply NoDup_rev. now constructor.
              ** now rewrite first_success_snoc, Hnone, Hpage.
        -- (* no match: go on with the rest of the queue and the links *)
           unfold page_result in Hpage.
           destruct (fetch url) as [html|] eqn:Hfetch.
           ++ destruct (String.eqb html EmptyString) eqn:Hempty.
              ** destruct (IHbudget queue (url :: v) (f ++ [url]) Hb')
                   as (results & st' & Hrun & Hfin).
                 { apply (invariant_visit url queue v f); try assumption.
                   unfold page_result. now rewrite Hfetch, Hempty. }
                 exists results, st'. split; [|assumption].
                 eapply runs_after_next; [exact Hc | | exact Hrun].
                 unfold loop_body. simpl. now rewrite Hmem, Hfetch, Hempty.
              ** destruct (IHbudget
                             (queue ++ likely_links base_url (BeautifulSoup html))
                             (url :: v) (f ++ [url]) Hb')
                   as (results & st' & Hrun & Hfin).
                 { apply (invariant_visit url queue v f); try assumption.
                   unfold page_result. now rewrite Hfetch, Hempty. }
                 exists results, st'. split; [|assumption].
                 eapply runs_after_next; [exact Hc | | exact Hrun].
                 unfold loop_body. simpl.
                 now rewrite Hmem, Hfetch, Hempty, Hpage.
           ++ destruct (IHbudget queue (url :: v) (f ++ [url]) Hb')
                as (results & st' & Hrun & Hfin).
              { apply (invariant_visit url queue v f); try assumption.
                unfold page_result. now rewrite Hfetch. }
              exists results, st'. split; [|assumption].
              eapply runs_after_next; [exact Hc | | exact Hrun].
              unfold loop_body. simpl. now rewrite Hmem, Hfetch.
Qed.

End Explore.

(** C7: whatever the pages behind the URLs are, the exploration ends (every
    large enough number of passes gives the same outcome); it fetches at most
    five URLs, none of them twice; and it returns what the Table Interpreter
    makes of the first fetched page that matches, or nothing when no fetched
    page does. *)
Theorem explore_within_budget fetch BeautifulSoup homepage_url :
  exists fuel results log,
    (forall fuel', fuel <= fuel' ->
       find_and_parse_grading fetch BeautifulSoup fuel' homepage_url
       = Some (results, log))
    /\ List.length log <= 5
    /\ NoDup log
    /\ results = first_success (page_result fetch BeautifulSoup) log.
Proof.
  destruct (loop_ends fetch BeautifulSoup (base_url_of homepage_url)
              max_pages [homepage_url] [] [])
    as (results & st' & (fuel & Hrun) & Hlen & Hnd & Hres).
  - unfold max_pages. simpl. lia.
  - split; [|split; [|split]]; simpl; try constructor.
    unfold max_pages. lia.
  - exists fuel, results, (fetched st'). split; [|split; [|split]];
      try assumption.
    intros fuel' Hle. unfold find_and_parse_grading.
    now rewrite (Hrun fuel' Hle).
Qed.

(** The exploration of [Samples.site_fetch]: three fetches, the homepage
    only once, and the table of the academics page. *)
Example explore_sample_site :
  find_and_parse_grading Samples.site_fetch Samples.site_parser 10
    "https://u.example/"
  = Some (Some (4%float, Samples.four_point_rows),
          ["https://u.example/"; "https://u.example/regulations";
           "https://u.example/academics"]%string).
Proof. vm_compute. reflexivity. Qed.

End CrawlerFacts.

(** ** More on the Merger *)

Module MergerMore.

Import Merger ById MergerFacts Notions.

Lemma fold_filter_step accept l : forall d,
  fold_left (fun d s => upsert (sys_id s) s d) (filter accept l) d
  = fold_left (step accept) l d.
Proof.
  induction l as [|s l IH]; simpl; intros d; [reflexivity|].
  unfold step at 2. destruct (accept s); simpl; apply IH.
Qed.

Lemma fold_merge_step l : forall d,
  fold_left merge_new l d = fold_left (step not_skipped) l d.
Proof.
  induction l as [|s l IH]; simpl; intros d; [reflexivity|].
  rewrite IH. f_equal. rewrite merge_new_cases. unfold step, not_skipped.
  now destruct (skipped s).
Qed.

Lemma find_step accept d s k :
  find k (step accept d s)
  = if accept s && key_eqb (sys_id s) k then Some s else find k d.
Proof.
  unfold step. destruct (accept s); simpl; [|reflexivity].
  destruct (key_eqb (sys_id s) k) eqn:E.
  - apply key_eqb_eq in E. subst k. apply find_upsert_same.
  - apply key_eqb_neq in E. now apply find_upsert_other.
Qed.

Lemma find_fold_step accept k l : forall d,
  find k (fold_left (step accept) l d)
  = match last_with accept k l with
    | Some s => Some s
    | None => find k d
    end.
Proof.
  induction l as [|s l IH]; simpl; intros d; [reflexivity|].
  rewrite IH, find_step.
  destruct (last_with accept k l); [reflexivity|].
  now destruct (accept s && key_eqb (sys_id s) k).
Qed.

Lemma keys_step accept d s :
  keys (step accept d s)
  = keys d ++ (if accept s && negb (existsb (key_eqb (sys_id s)) (keys d))
               then [sys_id s] else []).
Proof.
  unfold step. destruct (accept s); simpl; [|now rewrite app_nil_r].
  destruct (existsb (key_eqb (sys_id s)) (keys d)) eqn:E; simpl.
  - rewrite app_nil_r. apply keys_upsert_in.
    apply existsb_exists in E. destruct E as (k & Hk & E).
    apply key_eqb_eq in E. now subst.
  - apply keys_upsert_notin. intros Hin.
    assert (existsb (key_eqb (sys_id s)) (keys d) = true) as E'; [|congruence].
    apply existsb_exists. exists (sys_id s). split; [assumption|].
    apply key_eqb_refl.
Qed.

(** The keys after a loop are the keys before it, in place, followed by ids
    of accepted systems. *)
Lemma keys_fold_step accept l : forall d,
  exists added,
    keys (fold_left (step accept) l d) = keys d ++ added
    /\ forall k, In k added -> exists s, In s l /\ sys_id s = k
                                         /\ accept s = true.
Proof.
  induction l as [|s l IH]; simpl; intros d.
  - exists []. split; [now rewrite app_nil_r | intros k []].
  - destruct (IH (step accept d s)) as (added & Hk & Hadded).
    rewrite keys_step in Hk.
    destruct (accept s && negb (existsb (key_eqb (sys_id s)) (keys d))) eqn:E.
    + exists (sys_id s :: added). split.
      * rewrite Hk, <- app_assoc. reflexivity.
      * intros k [<-|Hin].
        -- exists s. apply andb_prop in E. destruct E as [E _].
           repeat split; [now left | exact E].
        -- destruct (Hadded k Hin) as (t & Ht & Hid & Hacc).
           exists t. repeat split; [now right | exact Hid | exact Hacc].
    + exists added. split.
      * now rewrite Hk, app_nil_r.
      * intros k Hin. destruct (Hadded k Hin) as (t & Ht & Hid & Hacc).
        exists t. repeat split; [now right | exact Hid | exact Hacc].
Qed.

Lemma keys_fold_same accept l : forall d,
  (forall s, In s l -> accept s = true -> In (sys_id s) (keys d)) ->
  keys (fold_left (step accept) l d) = keys d.
Proof.
  induction l as [|s l IH]; simpl; intros d Hl; [reflexivity|].
  assert (keys (step accept d s) = keys d) as Hs.
  { rewrite keys_step. destruct (accept s) eqn:Ea; simpl;
      [|apply app_nil_r].
    assert (existsb (key_eqb (sys_id s)) (keys d) = true) as ->.
    { apply existsb_exists. exists (sys_id s).
      split; [apply Hl; [now left | exact Ea] | apply key_eqb_refl]. }
    apply app_nil_r. }
  rewrite IH; [exact Hs|].
  intros t Ht Ha. rewrite Hs. apply Hl; [now right | exact Ha].
Qed.

Lemma accepted_in_keys accept l : forall d s,
  In s l -> accept s = true ->
  In (sys_id s) (keys (fold_left (step accept) l d)).
Proof.
  intros d s Hin Ha.
  assert (find (sys_id s) (fold_left (step accept) l d) <> None) as Hf.
  { rewrite find_fold_step.
    assert (last_with accept (sys_id s) l <> None) as Hl.
    { clear d. induction l as [|t l IH]; simpl; [destruct Hin|].
      destruct (last_with accept (sys_id s) l); [discriminate|].
      destruct Hin as [->|Hin].
      - rewrite Ha, key_eqb_refl. discriminate.
      - exfalso. now apply IH. }
    destruct (last_with accept (sys_id s) l); [discriminate | congruence]. }
  destruct (in_keys_dec (sys_id s) (fold_left (step accept) l d))
    as [H|H]; [exact H|].
  apply find_None_notin in H. contradiction.
Qed.

(** Two dictionaries with the same keys in the same order and the same
    binding under every key are equal. *)
Lemma by_id_ext d1 : forall d2,
  NoDup (keys d1) -> keys d1 = keys d2 ->
  (forall k, find k d1 = find k d2) -> d1 = d2.
Proof.
  induction d1 as [|[k1 v1] d1 IH]; intros [|[k2 v2] d2] Hnd Hk Hf;
    try discriminate; [reflexivity|].
  simpl in Hk. injection Hk as <- Hk.
  change (keys ((k1, v1) :: d1)) with (k1 :: keys d1) in Hnd.
  apply NoDup_cons_iff in Hnd. destruct Hnd as [Hnotin Hnd].
  pose proof (Hf k1) as H1. simpl in H1. rewrite key_eqb_refl in H1.
  injection H1 as <-. f_equal. apply IH; [assumption | assumption |].
  intros k. specialize (Hf k). simpl in Hf.
  destruct (key_eqb k k1) eqn:E; [|exact Hf].
  apply key_eqb_eq in E. subst k.
  assert (~ In k1 (keys d2)) as Hnotin2 by (rewrite <- Hk; exact Hnotin).
  apply find_None_notin in Hnotin, Hnotin2. congruence.
Qed.

Lemma good_fold_step accept l : forall d,
  good d -> good (fold_left (step accept) l d).
Proof.
  apply good_fold. intros d s Hd. unfold step.
  destruct (accept s); [now apply good_upsert | exact Hd].
Qed.

Lemma fold_step_again accept l d :
  good d ->
  fold_left (step accept) l (fold_left (step accept) l d)
  = fold_left (step accept) l d.
Proof.
  intros Hd. apply by_id_ext.
  - apply good_fold_step. now apply good_fold_step.
  - apply keys_fold_same. intros s Hin Ha. now apply accepted_in_keys.
  - intros k. rewrite !find_fold_step.
    now destruct (last_with accept k l).
Qed.

Lemma initial_as_step existing :
  initial_by_id existing
  = fold_left (step keep_existing) (systems_of existing) [].
Proof. unfold initial_by_id. apply fold_filter_step. Qed.

Lemma final_as_step existing l :
  final_by_id existing l
  = fold_left (step not_skipped) l (initial_by_id existing).
Proof. unfold final_by_id. apply fold_merge_step. Qed.

End MergerMore.

Module MergerExtras.

Import Merger ById MergerFacts Notions MergerMore.

Lemma crashes_new existing new_systems :
  crashes existing new_systems = false ->
  crashes existing [] = false /\ existsb new_raising new_systems = false.
Proof.
  unfold crashes. cbn [existsb].
  destruct (existsb raising (systems_of existing)); [discriminate|].
  cbn [orb]. now intros ->.
Qed.

(** X1: the entry of the catalog that the merge returns under an id is the
    last new system with that id that is not skipped; when there is none, it
    is the last system of the existing catalog with that id that survives
    the cleaning pass; when there is none either, the catalog has no entry
    with that id. *)
Theorem merged_entry_lookup today existing new_systems c key :
  merge_into_existing today existing new_systems = Return c ->
  entries_with_id key (systems_of c)
  = match last_with not_skipped key new_systems with
    | Some s => [s]
    | None =>
        match last_with keep_existing key (systems_of existing) with
        | Some s => [s]
        | None => []
        end
    end.
Proof.
  intros Hc. apply merge_returns in Hc. destruct Hc as [_ ->].
  rewrite systems_of_merge.
  destruct (good_final existing new_systems) as [Hnd Hwk].
  rewrite entries_of_values by assumption.
  rewrite final_as_step, find_fold_step, initial_as_step, find_fold_step.
  destruct (last_with not_skipped key new_systems); [reflexivity|].
  now destruct (last_with keep_existing key (systems_of existing)).
Qed.

Lemma merged_entry_lookup_witness :
  merge_into_existing "2024-06-01" Samples.catalog_1_0_3
    [Samples.anna_university; Samples.three_point;
     Samples.anna_university_revised]
  = Return (merged "2024-06-01" Samples.catalog_1_0_3
              [Samples.anna_university; Samples.three_point;
               Samples.anna_university_revised])
  /\ entries_with_id (Some "anna_university"%string)
       (systems_of (merged "2024-06-01" Samples.catalog_1_0_3
                      [Samples.anna_university; Samples.three_point;
                       Samples.anna_university_revised]))
     = [Samples.anna_university_revised].
Proof.
  split; [vm_compute; reflexivity|].
  apply (merged_entry_lookup "2024-06-01" Samples.catalog_1_0_3
           [Samples.anna_university; Samples.three_point;
            Samples.anna_university_revised]).
  vm_compute. reflexivity.
Defined.

(** X2: when a merge returns, so does the merge of nothing into the same
    catalog; the merge leaves the ids of the cleaned catalog where they are
    and appends the ids that are new to it; each appended id is the id of a
    new system that was not skipped. *)
Theorem merge_appends_new_ids today existing new_systems c :
  merge_into_existing today existing new_systems = Return c ->
  exists cleaned added,
    merge_into_existing today existing [] = Return cleaned
    /\ map sys_id (systems_of c)
       = map sys_id (systems_of cleaned) ++ added
    /\ forall k, In k added ->
                 exists s, In s new_systems /\ sys_id s = k
                           /\ skipped s = false.
Proof.
  intros Hc. apply merge_returns in Hc. destruct Hc as [Hsafe ->].
  destruct (crashes_new _ _ Hsafe) as [Hnone _].
  exists (merged today existing []).
  rewrite (merge_when_safe _ _ _ Hnone), !systems_of_merge.
  destruct (good_final existing new_systems) as [_ Hwk1].
  destruct (good_final existing []) as [_ Hwk2].
  rewrite !ids_of_values by assumption.
  rewrite final_as_step.
  destruct (keys_fold_step not_skipped new_systems (initial_by_id existing))
    as (added & Hk & Hadded).
  exists added. split; [reflexivity|]. split; [exact Hk|].
  intros k Hin. destruct (Hadded k Hin) as (s & Hs & Hid & Ha).
  exists s. repeat split; [exact Hs | exact Hid |].
  unfold not_skipped in Ha. now apply negb_true_iff in Ha.
Qed.

Lemma merge_appends_new_ids_witness :
  exists cleaned added,
    merge_into_existing "2024-06-01" Samples.catalog_1_0_3 []
    = Return cleaned
    /\ map sys_id
         (systems_of (merged "2024-06-01" Samples.catalog_1_0_3
                        [Samples.kathmandu; Samples.three_point]))
       = map sys_id (systems_of cleaned) ++ added
    /\ forall k, In k added ->
                 exists s, In s [Samples.kathmandu; Samples.three_point]
                           /\ sys_id s = k /\ skipped s = false.
Proof.
  apply (merge_appends_new_ids "2024-06-01" Samples.catalog_1_0_3
           [Samples.kathmandu; Samples.three_point]).
  vm_compute. reflexivity.
Defined.

(** X3: merging in two runs returns exactly when merging everything in one
    run returns, and gives the same systems: the cleaning pass of the second
    run finds nothing to drop, nothing to raise on, and rebuilds the
    dictionary as the first run left it. *)
Theorem merge_in_two_runs today today' existing first_run second_run :
  (forall c,
      merge_into_existing today existing (first_run ++ second_run)
      = Return c ->
      exists c1 c2,
        merge_into_existing today existing first_run = Return c1
        /\ merge_into_existing today' c1 second_run = Return c2
        /\ systems_of c2 = systems_of c)
  /\ (forall c1 c2,
         merge_into_existing today existing first_run = Return c1 ->
         merge_into_existing today' c1 second_run = Return c2 ->
         exists c,
           merge_into_existing today existing (first_run ++ second_run)
           = Return c
           /\ systems_of c2 = systems_of c).
Proof.
  split.
  - intros c Hc. apply merge_returns in Hc. destruct Hc as [Hsafe ->].
    rewrite crashes_app in Hsafe. apply orb_false_elim in Hsafe.
    destruct Hsafe as [H1 H2].
    exists (merged today existing first_run),
      (merged today' (merged today existing first_run) second_run).
    split; [now apply merge_when_safe|].
    split; [apply merge_when_safe; now rewrite crashes_again|].
    apply merge_twice_systems.
  - intros c1 c2 Hc1 Hc2.
    apply merge_returns in Hc1. destruct Hc1 as [H1 ->].
    apply merge_returns in Hc2. destruct Hc2 as [H2 ->].
    rewrite crashes_again in H2.
    exists (merged today existing (first_run ++ second_run)).
    split; [|apply merge_twice_systems].
    apply merge_when_safe. now rewrite crashes_app, H1, H2.
Qed.

Lemma merge_in_two_runs_witness :
  exists c1 c2,
    merge_into_existing "2024-06-01" Samples.catalog_1_0_3
      [Samples.kathmandu] = Return c1
    /\ merge_into_existing "2024-06-02" c1 [Samples.anna_university]
       = Return c2
    /\ systems_of c2
       = systems_of (merged "2024-06-01" Samples.catalog_1_0_3
                       ([Samples.kathmandu] ++ [Samples.anna_university])).
Proof.
  apply (proj1 (merge_in_two_runs "2024-06-01" "2024-06-02"
                  Samples.catalog_1_0_3 [Samples.kathmandu]
                  [Samples.anna_university])).
  vm_compute. reflexivity.
Defined.

(** X4: after a merge that returned, a second run that brings the same
    systems again, or none, returns too and leaves the systems of the
    catalog as they are. *)
Theorem merge_again_changes_nothing today today' existing new_systems c :
  merge_into_existing today existing new_systems = Return c ->
  exists again idle,
    merge_into_existing today' c new_systems = Return again
    /\ systems_of again = systems_of c
    /\ merge_into_existing today' c [] = Return idle
    /\ systems_of idle = systems_of c.
Proof.
  intros Hc. apply merge_returns in Hc. destruct Hc as [Hsafe ->].
  destruct (crashes_new _ _ Hsafe) as [_ Hnew].
  exists (merged today' (merged today existing new_systems) new_systems),
    (merged today' (merged today existing new_systems) []).
  split; [apply merge_when_safe; now rewrite crashes_again|]. split.
  - rewrite merge_twice_systems, !systems_of_merge. f_equal.
    rewrite !final_as_step, fold_left_app.
    apply fold_step_again. apply good_initial.
  - split; [apply merge_when_safe; now rewrite crashes_again|].
    rewrite merge_twice_systems. now rewrite app_nil_r.
Qed.

Lemma merge_again_changes_nothing_witness :
  exists again idle,
    merge_into_existing "2024-06-02"
      (merged "2024-06-01" Samples.catalog_1_0_3
         [Samples.kathmandu; Samples.anna_university])
      [Samples.kathmandu; Samples.anna_university] = Return again
    /\ systems_of again
       = systems_of (merged "2024-06-01" Samples.catalog_1_0_3
                       [Samples.kathmandu; Samples.anna_university])
    /\ merge_into_existing "2024-06-02"
         (merged "2024-06-01" Samples.catalog_1_0_3
            [Samples.kathmandu; Samples.anna_university]) []
       = Return idle
    /\ systems_of idle
       = systems_of (merged "2024-06-01" Samples.catalog_1_0_3
                       [Samples.kathmandu; Samples.anna_university]).
Proof.
  apply (merge_again_changes_nothing "2024-06-01" "2024-06-02"
           Samples.catalog_1_0_3
           [Samples.kathmandu; Samples.anna_university]).
  vm_compute. reflexivity.
Defined.

(** X5: every entry of a catalog that the merge returns comes from the
    existing catalog or from the new systems, and, when its country is
    India, passes the Validator: entries of India that fail it are dropped
    from the existing catalog too. *)
Theorem merged_entries_pass today existing new_systems c s :
  merge_into_existing today existing new_systems = Return c ->
  In s (systems_of c) ->
  (In s (systems_of existing) \/ In s new_systems)
  /\ (country_is_India s = true ->
      Validator.is_valid_indian_system s = Return true).
Proof.
  intros Hc Hin. apply merge_returns in Hc. destruct Hc as [_ ->]. split.
  - now apply merged_entry_origin with today.
  - intros Hc. now apply merged_indian_valid with today existing new_systems.
Qed.

Lemma merged_entries_pass_witness :
  (In Samples.anna_university (systems_of Samples.catalog_1_0_3)
   \/ In Samples.anna_university
         [Samples.three_point; Samples.anna_university])
  /\ (country_is_India Samples.anna_university = true ->
      Validator.is_valid_indian_system Samples.anna_university
      = Return true).
Proof.
  apply (merged_entries_pass "2024-06-01" Samples.catalog_1_0_3
           [Samples.three_point; Samples.anna_university]
           (merged "2024-06-01" Samples.catalog_1_0_3
              [Samples.three_point; Samples.anna_university])
           Samples.anna_university).
  - vm_compute. reflexivity.
  - vm_compute. left. reflexivity.
Defined.

End MergerExtras.

(** ** More on the Validator *)

Module ValidatorExtras.

Import Validator ValidatorFacts Notions.





End ValidatorExtras.

(** ** More on text *)

Module TextMore.

Import Text TextFacts Notions.

Lemma append_assoc (a b c : string) :
  ((a ++ b) ++ c = a ++ (b ++ c))%string.
Proof. induction a as [|x a IH]; simpl; [reflexivity | now rewrite IH]. Qed.

Lemma rev_onto_append s : forall acc, rev_onto s acc = (rev s ++ acc)%string.
Proof.
  unfold rev. induction s as [|c s IH]; simpl; intros acc; [reflexivity|].
  rewrite IH, (IH (String c EmptyString)), append_assoc. reflexivity.
Qed.

Lemma rev_cons c s : rev (String c s) = (rev s ++ String c EmptyString)%string.
Proof. unfold rev at 1. simpl. apply rev_onto_append. Qed.

Lemma rev_append a b : rev (a ++ b) = (rev b ++ rev a)%string.
Proof.
  induction a as [|c a IH]; simpl.
  - now rewrite append_empty.
  - now rewrite !rev_cons, IH, append_assoc.
Qed.

Lemma lstrip_all p s : all_chars p s = true -> lstrip p s = EmptyString.
Proof.
  induction s as [|c s IH]; simpl; [reflexivity|].
  intros H. apply andb_prop in H. destruct H as [-> Hs]. now apply IH.
Qed.

Lemma lstrip_append p a b :
  lstrip p (a ++ b)
  = if all_chars p a then lstrip p b else (lstrip p a ++ b)%string.
Proof.
  induction a as [|c a IH]; simpl; [reflexivity|].
  destruct (p c); simpl; [exact IH | reflexivity].
Qed.

Lemma lstrip_empty_all p s : lstrip p s = EmptyString -> all_chars p s = true.
Proof.
  induction s as [|c s IH]; simpl; [reflexivity|].
  destruct (p c); [exact IH | discriminate].
Qed.

(** [rstrip], defined with two reversals, is [rstrip_rec]. *)
Lemma rstrip_is_rec p s : rstrip p s = rstrip_rec p s.
Proof.
  unfold rstrip. induction s as [|c s IH]; [reflexivity|].
  rewrite rev_cons, lstrip_append. simpl rstrip_rec. rewrite <- IH.
  destruct (all_chars p (rev s)) eqn:Ea.
  - rewrite (lstrip_all _ _ Ea). simpl.
    destruct (p c); reflexivity.
  - rewrite rev_append. simpl.
    destruct (rev (lstrip p (rev s))) eqn:Er; [|reflexivity].
    exfalso. apply (f_equal rev) in Er. rewrite rev_involutive in Er.
    simpl in Er. apply lstrip_empty_all in Er. congruence.
Qed.

Lemma first_char_lstrip p s c :
  first_char (lstrip p s) = Some c -> p c = false.
Proof.
  induction s as [|x s IH]; simpl; [discriminate|].
  destruct (p x) eqn:E; [exact IH|]. simpl. now intros [= <-].
Qed.

Lemma rstrip_rec_first p s c :
  first_char (rstrip_rec p s) = Some c -> first_char s = Some c.
Proof.
  destruct s as [|x s]; simpl; [discriminate|].
  destruct (rstrip_rec p s); [destruct (p x)|]; simpl; try discriminate;
    now intros [= <-].
Qed.

(** A stripped text neither begins nor ends with a character of the
    class. *)
Lemma strip_ends p s :
  (forall c, first_char (strip p s) = Some c -> p c = false)
  /\ (forall c, last_char (strip p s) = Some c -> p c = false).
Proof.
  unfold strip. split; intros c H.
  - rewrite rstrip_is_rec in H. apply rstrip_rec_first in H.
    now apply first_char_lstrip in H.
  - unfold last_char, rstrip in H. rewrite rev_involutive in H.
    now apply first_char_lstrip in H.
Qed.

Lemma all_chars_lstrip p q s :
  all_chars p s = true -> all_chars p (lstrip q s) = true.
Proof.
  induction s as [|c s IH]; simpl; [reflexivity|].
  intros H. destruct (q c); [|exact H].
  apply andb_prop in H. now apply IH.
Qed.

Lemma all_chars_strip p q s :
  all_chars p s = true -> all_chars p (strip q s) = true.
Proof.
  intros H. unfold strip, rstrip.
  rewrite all_chars_rev. apply all_chars_lstrip.
  rewrite all_chars_rev. now apply all_chars_lstrip.
Qed.

Lemma contains_lstrip k p s :
  contains k (lstrip p s) = true -> contains k s = true.
Proof.
  induction s as [|c s IH]; simpl; [trivial|].
  destruct (p c); [|trivial].
  intros H. rewrite (IH H). apply orb_true_r.
Qed.

Lemma prefix_two_rstrip_rec p x y s :
  String.prefix (String x (String y EmptyString)) (rstrip_rec p s) = true ->
  String.prefix (String x (String y EmptyString)) s = true.
Proof.
  destruct s as [|a s]; simpl; [trivial|].
  destruct (rstrip_rec p s) as [|b kept] eqn:Ek.
  - destruct (p a); simpl; [discriminate|].
    destruct (Ascii.ascii_dec x a); discriminate.
  - simpl. destruct (Ascii.ascii_dec x a); [|discriminate].
    destruct (Ascii.ascii_dec y b); [|discriminate]. intros _.
    assert (first_char s = Some b) as Hb.
    { apply (rstrip_rec_first p). now rewrite Ek. }
    destruct s as [|b' s']; [discriminate|]. simpl in Hb.
    injection Hb as ->. subst y.
    simpl. destruct (Ascii.ascii_dec b b); [now destruct s' | congruence].
Qed.

Lemma contains_two_rstrip_rec p x y s :
  contains (String x (String y EmptyString)) (rstrip_rec p s) = true ->
  contains (String x (String y EmptyString)) s = true.
Proof.
  induction s as [|a s IH]; [trivial|].
  cbn [rstrip_rec]. intros H.
  assert (contains (String x (String y EmptyString))
            (String a (rstrip_rec p s)) = true
          \/ rstrip_rec p (String a s) = String a EmptyString
          \/ rstrip_rec p (String a s) = EmptyString) as Hcase.
  { cbn [rstrip_rec]. destruct (rstrip_rec p s) eqn:Ek.
    - destruct (p a); [right; now right | right; now left].
    - left. exact H. }
  destruct Hcase as [Hc|[Hc|Hc]].
  - cbn [contains] in Hc |- *. apply orb_prop in Hc. destruct Hc as [Hc|Hc].
    + apply orb_true_iff. left.
      apply (prefix_two_rstrip_rec p x y (String a s)).
      cbn [rstrip_rec]. destruct (rstrip_rec p s) eqn:Ek; [|exact Hc].
      simpl in Hc. destruct (Ascii.ascii_dec x a); discriminate.
    + apply orb_true_iff. right. now apply IH.
  - cbn [rstrip_rec] in Hc, H. rewrite Hc in H. simpl in H.
    destruct (Ascii.ascii_dec x a); discriminate.
  - cbn [rstrip_rec] in Hc, H. rewrite Hc in H. discriminate.
Qed.

(** Stripping does not create an occurrence of a two-character text. *)
Lemma contains_two_strip p x y s :
  contains (String x (String y EmptyString)) (strip p s) = true ->
  contains (String x (String y EmptyString)) s = true.
Proof.
  unfold strip. rewrite rstrip_is_rec. intros H.
  apply contains_two_rstrip_rec in H. now apply contains_lstrip in H.
Qed.

End TextMore.

(** ** The identifiers [normalize_system] derives *)

Module SlugExtras.

Import Text Interpreter Notions TextMore.

Lemma slug_char_not_underscore c : slug_char c = true -> Ascii.eqb c "_" = false.
Proof.
  destruct (Ascii.eqb_spec c "_") as [->|_]; [|reflexivity].
  vm_compute. congruence.
Qed.

Lemma sub_runs_chars s : forall in_run,
  all_chars id_char (sub_runs in_run s) = true.
Proof.
  induction s as [|c s IH]; intros in_run; simpl; [reflexivity|].
  destruct (slug_char c) eqn:E.
  - simpl. unfold id_char at 1. now rewrite E, IH.
  - destruct in_run; [apply IH|]. simpl. apply IH.
Qed.

Lemma sub_runs_first s :
  first_char (sub_runs true s) <> Some "_"%char.
Proof.
  induction s as [|c s IH]; simpl; [discriminate|].
  destruct (slug_char c) eqn:E; [|exact IH].
  simpl. intros [= ->]. vm_compute in E. discriminate.
Qed.

Lemma prefix_cons a s1 b s2 :
  String.prefix (String a s1) (String b s2)
  = if Ascii.ascii_dec a b then String.prefix s1 s2 else false.
Proof. reflexivity. Qed.

Lemma prefix_underscores s :
  String.prefix "__" (String "_" s) = true -> first_char s = Some "_"%char.
Proof.
  destruct s as [|c s]; [vm_compute; discriminate|].
  rewrite !prefix_cons.
  destruct (Ascii.ascii_dec "_" "_"); [|congruence].
  destruct (Ascii.ascii_dec "_" c) as [<-|Hne]; [reflexivity | discriminate].
Qed.

Lemma sub_runs_no_double s : forall in_run,
  contains "__" (sub_runs in_run s) = false.
Proof.
  induction s as [|c s IH]; intros in_run; [reflexivity|].
  cbn [sub_runs]. destruct (slug_char c) eqn:E.
  - cbn [contains]. rewrite IH, orb_false_r.
    rewrite prefix_cons.
    destruct (Ascii.ascii_dec "_" c) as [<-|Hne]; [|reflexivity].
    vm_compute in E. discriminate.
  - destruct in_run; [apply IH|].
    cbn [contains]. rewrite IH, orb_false_r.
    destruct (String.prefix "__" (String "_" (sub_runs true s))) eqn:Ep;
      [|reflexivity].
    apply prefix_underscores in Ep. now apply sub_runs_first in Ep.
Qed.

Lemma slug_of_text s : is_slug (strip (Ascii.eqb "_") (sub_runs false s)).
Proof.
  destruct (strip_ends (Ascii.eqb "_") (sub_runs false s)) as [Hfirst Hlast].
  split; [|split; [|split]].
  - apply all_chars_strip, sub_runs_chars.
  - intros H. apply Hfirst in H. discriminate.
  - intros H. apply Hlast in H. discriminate.
  - destruct (contains "__" (strip (Ascii.eqb "_") (sub_runs false s))) eqn:E;
      [|reflexivity].
    apply (contains_two_strip _ "_" "_") in E.
    now rewrite sub_runs_no_double in E.
Qed.

(** X7: the id that [normalize_system] and the world crawl derive from a
    name is a slug: only [a-z], [0-9] and underscores, no underscore at
    either end and no two in a row. *)
Theorem derived_ids_are_slugs name country region scale grades :
  (exists i, sys_id (normalize_system name country region scale grades)
             = Some i /\ is_slug i)
  /\ (exists i, sys_id (world_system name country scale grades) = Some i
                /\ is_slug i).
Proof.
  split; eexists; (split; [reflexivity | apply slug_of_text]).
Qed.

Lemma lower_no_alnum s :
  all_chars no_alnum s = true ->
  all_chars (fun c => negb (slug_char c)) (lower s) = true.
Proof.
  induction s as [|c s IH]; simpl; [reflexivity|].
  intros H. apply andb_prop in H. destruct H as [Hc Hs].
  rewrite (IH Hs), andb_true_r. unfold no_alnum in Hc.
  apply negb_true_iff in Hc. apply orb_false_elim in Hc.
  destruct Hc as [Hc Hd]. apply orb_false_elim in Hc. destruct Hc as [Hl Hu].
  unfold lower_char. rewrite Hu. unfold slug_char. now rewrite Hl, Hd.
Qed.

Lemma sub_runs_nothing s :
  all_chars (fun c => negb (slug_char c)) s = true ->
  sub_runs true s = EmptyString
  /\ (sub_runs false s = EmptyString \/ sub_runs false s = "_"%string).
Proof.
  induction s as [|c s IH]; simpl; [now split; [|left]|].
  intros H. apply andb_prop in H. destruct H as [Hc Hs].
  apply negb_true_iff in Hc. rewrite Hc.
  destruct (IH Hs) as [-> _]. now split; [|right].
Qed.

(** X8: an ASCII name without any letter or digit gets the empty id, and
    the merge skips the system built from it, before the Validator sees
    it.  (Of a name outside ASCII this does not hold: Python's [lower] maps
    some letters outside ASCII to ASCII ones.) *)
Theorem nameless_system_never_merged name country region scale grades :
  is_ascii name = true ->
  all_chars no_alnum name = true ->
  sys_id (normalize_system name country region scale grades)
  = Some EmptyString
  /\ forall today existing pre post,
       Merger.merge_into_existing today existing
         (pre ++ normalize_system name country region scale grades :: post)
       = Merger.merge_into_existing today existing (pre ++ post).
Proof.
  intros _ H.
  assert (sys_id (normalize_system name country region scale grades)
          = Some EmptyString) as Hid.
  { simpl. f_equal.
    destruct (sub_runs_nothing _ (lower_no_alnum _ H)) as [_ [->| ->]];
      reflexivity. }
  split; [exact Hid|]. intros today existing pre post.
  assert (Merger.falsy
            (sys_id (normalize_system name country region scale grades))
          = true) as Hf by now rewrite Hid.
  rewrite !MergerFacts.merge_cases, (MergerFacts.crashes_skip _ _ _ _ Hf).
  now rewrite (MergerFacts.merge_skip _ _ _ _ _
                 (MergerFacts.skipped_of_falsy _ Hf)).
Qed.

Lemma nameless_system_never_merged_witness :
  sys_id (normalize_system "***" "India" "South Asia" 10 [])
  = Some EmptyString.
Proof.
  apply (nameless_system_never_merged "***" "India" "South Asia" 10 []);
    reflexivity.
Defined.

End SlugExtras.

(** ** More on the Table Interpreter *)

Module InterpreterExtras.

Import Text Interpreter Notions.

Lemma first_success_split {A B} (f : A -> option B) l y :
  first_success f l = Some y ->
  exists pre x post, l = pre ++ x :: post /\ f x = Some y
                     /\ forall z, In z pre -> f z = None.
Proof.
  induction l as [|a l IH]; simpl; [discriminate|].
  destruct (f a) as [y'|] eqn:E.
  - intros [= <-]. exists [], a, l. repeat split; [exact E | intros z []].
  - intros H. destruct (IH H) as (pre & x & post & -> & Hx & Hpre).
    exists (a :: pre), x, post. repeat split; [exact Hx|].
    intros z [<-|Hz]; [exact E | now apply Hpre].
Qed.

Lemma first_success_none {A B} (f : A -> option B) l :
  first_success f l = None <-> forall z, In z l -> f z = None.
Proof.
  induction l as [|a l IH]; simpl.
  - split; [intros _ z [] | reflexivity].
  - destruct (f a) eqn:E.
    + split; [discriminate|]. intros H. rewrite <- E. apply H. now left.
    + rewrite IH. split.
      * intros H z [<-|Hz]; [exact E | now apply H].
      * intros H z Hz. apply H. now right.
Qed.

Lemma filter_split {A} (p : A -> bool) l : forall pre' x post',
  filter p l = pre' ++ x :: post' ->
  exists pre post, l = pre ++ x :: post /\ filter p pre = pre'
                   /\ p x = true.
Proof.
  induction l as [|a l IH]; simpl; intros pre' x post' H.
  - destruct pre'; discriminate.
  - destruct (p a) eqn:E.
    + destruct pre' as [|b pre'].
      * injection H as -> _. exists [], l. now repeat split.
      * injection H as -> H.
        destruct (IH _ _ _ H) as (pre & post & -> & Hpre & Hx).
        exists (b :: pre), post. repeat split; [|exact Hx].
        simpl. now rewrite E, Hpre.
    + destruct (IH _ _ _ H) as (pre & post & -> & Hpre & Hx).
      exists (a :: pre), post. repeat split; [|exact Hx].
      simpl. now rewrite E.
Qed.

Lemma filter_map_length {A B} (f : A -> option B) l :
  List.length (filter_map f l) <= List.length l.
Proof.
  induction l as [|a l IH]; simpl; [lia|]. destruct (f a); simpl; lia.
Qed.

Lemma parse_table_size table scale grades :
  parse_table table = Some (scale, grades) ->
  grades <> [] /\ List.length grades <= List.length (tr_cells table)
  /\ 2 <= List.length (tr_cells table).
Proof.
  unfold parse_table. set (rows := filter _ (tr_cells table)).
  pose proof (filter_length_le (fun cells => (2 <=? List.length cells)%nat)
                (tr_cells table)) as Hrows. fold rows in Hrows.
  destruct (Nat.ltb_spec (List.length rows) 2) as [|Hge]; [discriminate|].
  pose proof (filter_map_length grade_of_row rows) as Hgrades.
  destruct (filter_map grade_of_row rows) as [|g gs] eqn:Eg; [discriminate|].
  destruct (or_else _ _); [|discriminate].
  destruct (_ && _); [discriminate|].
  intros [= _ <-]. repeat split; [discriminate | lia | lia].
Qed.

(** X9: when the Table Interpreter returns a result, it is the result of
    the first table in document order that has a grading keyword in its
    header and parses; every table before it lacks the keyword or does not
    parse.  That table has two rows or more, and the result has at least
    one grade row and no more grade rows than the table has rows. *)
Theorem first_parsable_table_wins soup scale grades :
  try_parse_grading_table soup = Some (scale, grades) ->
  exists before table after,
    tables soup = before ++ table :: after
    /\ is_candidate table = true
    /\ parse_table table = Some (scale, grades)
    /\ (forall t, In t before ->
                  is_candidate t = false \/ parse_table t = None)
    /\ 2 <= List.length (tr_cells table)
    /\ grades <> []
    /\ List.length grades <= List.length (tr_cells table).
Proof.
  unfold try_parse_grading_table. intros H.
  apply first_success_split in H.
  destruct H as (pre' & table & post' & Hf & Ht & Hpre').
  apply filter_split in Hf. destruct Hf as (pre & post & Htab & Hpre & Hc).
  destruct (parse_table_size _ _ _ Ht) as (Hne & Hlen & Hrows).
  exists pre, table, post. repeat split; try assumption.
  intros t Hin. destruct (is_candidate t) eqn:E; [right | now left].
  apply Hpre'. rewrite <- Hpre. apply filter_In. now split.
Qed.

Lemma first_parsable_table_wins_witness :
  exists before table after,
    tables Samples.four_point_page = before ++ table :: after
    /\ is_candidate table = true
    /\ parse_table table = Some (4%float, Samples.four_point_rows)
    /\ (forall t, In t before ->
                  is_candidate t = false \/ parse_table t = None)
    /\ 2 <= List.length (tr_cells table)
    /\ Samples.four_point_rows <> []
    /\ List.length Samples.four_point_rows <= List.length (tr_cells table).
Proof.
  apply (first_parsable_table_wins Samples.four_point_page 4
           Samples.four_point_rows).
  vm_compute. reflexivity.
Defined.

(** X10: the Table Interpreter returns nothing exactly when every table of
    the page lacks a grading keyword in its header or does not parse. *)
Theorem no_result_exactly_when soup :
  try_parse_grading_table soup = None
  <-> forall t, In t (tables soup) ->
                is_candidate t = false \/ parse_table t = None.
Proof.
  unfold try_parse_grading_table. rewrite first_success_none. split.
  - intros H t Hin. destruct (is_candidate t) eqn:E; [right | now left].
    apply H. apply filter_In. now split.
  - intros H t Hin. apply filter_In in Hin. destruct Hin as [Hin Hc].
    destruct (H t Hin) as [E|E]; [congruence | exact E].
Qed.

Lemma guess_values tokens x :
  guess_scale_from_tokens tokens = Some x ->
  x = 10%float \/ x = 7%float \/ x = 4%float.
Proof.
  unfold guess_scale_from_tokens.
  repeat match goal with
         | |- context [if ?b then _ else _] => destruct b
         end; intros [= <-]; auto.
Qed.

Lemma py_max_In items m : py_max items = Some m -> In m items.
Proof.
  destruct items as [|first others]; simpl; [discriminate|].
  intros [= <-]. revert first.
  induction others as [|item others IH]; simpl; intros first; [now left|].
  destruct (IH (if Num.gtb item first then item else first)) as [H|H].
  - destruct (Num.gtb item first); [right; left | left]; exact H.
  - right. now right.
Qed.

Lemma filter_map_In {A B} (f : A -> option B) l y :
  In y (filter_map f l) -> exists x, In x l /\ f x = Some y.
Proof.
  induction l as [|a l IH]; simpl; [intros []|].
  destruct (f a) as [b|] eqn:E.
  - intros [<-|H]; [exists a; split; [now left | exact E]|].
    destruct (IH H) as (x & Hx & Hfx). exists x. split; [now right | exact Hfx].
  - intros H. destruct (IH H) as (x & Hx & Hfx).
    exists x. split; [now right | exact Hfx].
Qed.

(** The greatest of the points of the rows that [grade_of_row] builds is a
    float, on which [float] does not raise. *)
Lemma float_of_max_faithful rows m :
  py_max (filter_map row_points (filter_map grade_of_row rows)) = Some m ->
  Num.py_float m = Return (float_of_max m).
Proof.
  intros H. apply py_max_In in H. apply filter_map_In in H.
  destruct H as (g & Hg & Hm). apply filter_map_In in Hg.
  destruct Hg as (r & _ & Hr).
  destruct (InterpreterFacts.grade_of_row_extracted _ _ Hr)
    as (label & points & _ & _ & Hp & _).
  unfold row_points in Hm. rewrite Hp in Hm. now injection Hm as <-.
Qed.

Lemma parse_table_scale table scale grades :
  parse_table table = Some (scale, grades) ->
  (((scale = 10 \/ scale = 7 \/ scale = 4)%float
    /\ forall g, In g grades -> ~ above_ten g)
   \/ exists g, In g grades /\ get "points" g = VFloat scale)
  /\ ((exists g, In g grades /\ above_ten g) ->
      Num.leb (Num.NFloat scale) (Num.NInt 10) = false).
Proof.
  intros Hparse.
  pose proof (InterpreterFacts.parse_table_rows _ _ _ Hparse) as Hrows.
  revert Hparse. unfold parse_table. set (rows := filter _ (tr_cells table)).
  destruct (List.length rows <? 2)%nat; [discriminate|].
  destruct (filter_map grade_of_row rows) as [|g0 gs] eqn:Eg; [discriminate|].
  set (gradelist := g0 :: gs) in *.
  destruct (or_else (guess_scale_from_tokens (all_texts table))
                    (option_map float_of_max
                       (py_max (filter_map row_points gradelist))))
    as [scale_guess|] eqn:Eo; [|discriminate].
  destruct (existsb _ gradelist && Num.leb (Num.NFloat scale_guess) (Num.NInt 10))
    eqn:Ec; [discriminate|].
  intros [= <- <-].
  assert (forall g, In g gradelist -> above_ten g ->
                    existsb (fun g => Num.gtb (match row_points g with
                                               | Some p => p
                                               | None => Num.NInt 0
                                               end) (Num.NInt 10))
                            gradelist = true) as Habove.
  { intros g Hin (p & Hp & Hgt). apply existsb_exists. exists g.
    split; [exact Hin|]. now rewrite Hp. }
  split.
  - unfold or_else in Eo.
    destruct (guess_scale_from_tokens (all_texts table)) as [x|] eqn:Egs.
    + apply guess_values in Egs.
      assert (PrimFloat.eqb x 0 = false
              /\ Num.leb (Num.NFloat x) (Num.NInt 10) = true) as [Hz Hle].
      { destruct Egs as [->|[->| ->]]; split; vm_compute; reflexivity. }
      rewrite Hz in Eo. injection Eo as <-. left. split; [exact Egs|].
      intros g Hin Hg. rewrite (Habove g Hin Hg), Hle in Ec. discriminate.
    + right. destruct (py_max (filter_map row_points gradelist)) as [m|] eqn:Em;
        [|discriminate].
      injection Eo as <-. apply py_max_In in Em.
      apply filter_map_In in Em. destruct Em as (g & Hin & Hg).
      exists g. split; [exact Hin|].
      rewrite Forall_forall in Hrows.
      destruct (Hrows g Hin) as (label & points & _ & _ & Hp & _).
      unfold row_points in Hg. rewrite Hp in Hg. simpl in Hg.
      injection Hg as <-. exact Hp.
  - intros (g & Hin & Hg). rewrite (Habove g Hin Hg) in Ec. exact Ec.
Qed.

(** X11: the scale of a Table Interpreter result is 10, 7 or 4, read from
    the text of the table, and then no row has points above 10; or it is the
    points of one of the rows.  When a row has points above 10, the scale is
    above 10 as well. *)
Theorem scale_of_result soup scale grades :
  try_parse_grading_table soup = Some (scale, grades) ->
  (((scale = 10 \/ scale = 7 \/ scale = 4)%float
    /\ forall g, In g grades -> ~ above_ten g)
   \/ exists g, In g grades /\ get "points" g = VFloat scale)
  /\ ((exists g, In g grades /\ above_ten g) ->
      Num.leb (Num.NFloat scale) (Num.NInt 10) = false).
Proof.
  intros H. apply InterpreterFacts.first_success_In in H.
  destruct H as (table & _ & Ht). now apply parse_table_scale with table.
Qed.

Lemma scale_of_result_witness :
  (((4 = 10 \/ 4 = 7 \/ 4 = 4)%float
    /\ forall g, In g Samples.four_point_rows -> ~ above_ten g)
   \/ exists g, In g Samples.four_point_rows /\ get "points" g = VFloat 4)
  /\ ((exists g, In g Samples.four_point_rows /\ above_ten g) ->
      Num.leb (Num.NFloat 4) (Num.NInt 10) = false).
Proof.
  apply (scale_of_result Samples.four_point_page 4 Samples.four_point_rows).
  vm_compute. reflexivity.
Defined.

Lemma remove_spaces_clean s :
  all_chars (fun c => negb (is_space c)) (remove_spaces s) = true.
Proof.
  induction s as [|c s IH]; simpl; [reflexivity|].
  destruct (is_space c) eqn:E; [exact IH|]. simpl. now rewrite E, IH.
Qed.

Lemma grade_of_row_shape r g : grade_of_row r = Some g -> row_shape g.
Proof.
  unfold grade_of_row. destruct r as [|grade_label cells]; [discriminate|].
  destruct (find_points cells) as [points|]; [|discriminate].
  destruct (String.eqb grade_label EmptyString); [discriminate|].
  intros [= <-]. exists grade_label, points.
  destruct (find_percentage cells) as [range|] eqn:Ep; [|now left].
  destruct (String.eqb range EmptyString) eqn:Er; [now left|].
  right. exists range. repeat split.
  - now apply String.eqb_neq.
  - clear Er. induction cells as [|cell cells IH]; simpl in Ep; [discriminate|].
    destruct (Re.found re_range cell); [|now apply IH].
    injection Ep as <-. apply remove_spaces_clean.
Qed.

(** X12: every grade row of a Table Interpreter result is a dictionary with
    the keys grade and points, in this order, holding a string and a float,
    and possibly a third key percentage holding a non-empty string without
    blanks. *)
Theorem rows_of_result_shape soup scale grades :
  try_parse_grading_table soup = Some (scale, grades) ->
  Forall row_shape grades.
Proof.
  intros H. apply InterpreterFacts.first_success_In in H.
  destruct H as (table & _ & Ht). revert Ht. unfold parse_table.
  set (rows := filter _ (tr_cells table)).
  destruct (List.length rows <? 2)%nat; [discriminate|].
  pose proof (InterpreterFacts.filter_map_Forall grade_of_row row_shape rows
                grade_of_row_shape) as Hrows.
  destruct (filter_map grade_of_row rows) as [|g gs]; [discriminate|].
  destruct (or_else _ _); [|discriminate].
  destruct (_ && _); [discriminate|].
  now intros [= _ <-].
Qed.

Lemma rows_of_result_shape_witness :
  Forall row_shape Samples.four_point_rows.
Proof.
  apply (rows_of_result_shape Samples.four_point_page 4
           Samples.four_point_rows).
  vm_compute. reflexivity.
Defined.

Lemma lower_char_idempotent c : lower_char (lower_char c) = lower_char c.
Proof. destruct c as [[] [] [] [] [] [] [] []]; reflexivity. Qed.

Lemma lower_idempotent s : lower (lower s) = lower s.
Proof.
  induction s as [|c s IH]; simpl; [reflexivity|].
  now rewrite lower_char_idempotent, IH.
Qed.

Lemma lower_append a b : lower (a ++ b) = (lower a ++ lower b)%string.
Proof. induction a as [|c a IH]; simpl; [reflexivity | now rewrite IH]. Qed.

Lemma lower_join sep tokens :
  lower (join sep (map lower tokens)) = lower (join sep tokens).
Proof.
  unfold join. induction tokens as [|t ts IH]; [reflexivity|].
  destruct ts as [|u ts].
  - simpl. apply lower_idempotent.
  - change (String.concat sep (map lower (t :: u :: ts)))
      with (lower t ++ sep ++ String.concat sep (map lower (u :: ts)))%string.
    change (String.concat sep (t :: u :: ts))
      with (t ++ sep ++ String.concat sep (u :: ts))%string.
    rewrite !lower_append, lower_idempotent, IH. reflexivity.
Qed.

(** X13: the scale guessed from the text of a table does not depend on the
    letter case of that text. *)
Theorem guess_ignores_case tokens :
  guess_scale_from_tokens (map lower tokens) = guess_scale_from_tokens tokens.
Proof.
  unfold guess_scale_from_tokens. now rewrite lower_join.
Qed.

End InterpreterExtras.

(** ** Link Extractor *)

Module LinkExtras.

Import Text LinkExtractor.
Local Open Scope string_scope.

Lemma dedupe_keys universities : forall seen,
  NoDup (map (fun u => lower (uni_name u)) (dedupe seen universities))
  /\ forall u, In u (dedupe seen universities) ->
               In u universities /\ ~ In (lower (uni_name u)) seen.
Proof.
  induction universities as [|u rest IH]; intros seen; simpl.
  - split; [constructor | intros u []].
  - destruct (mem (lower (uni_name u)) seen) eqn:Em.
    + destruct (IH seen) as [Hnd Hin]. split; [exact Hnd|].
      intros v Hv. destruct (Hin v Hv). split; [now right | assumption].
    + destruct (IH (lower (uni_name u) :: seen)) as [Hnd Hin]. split.
      * simpl. constructor; [|exact Hnd].
        intros H. apply in_map_iff in H. destruct H as (v & Hkey & Hv).
        destruct (Hin v Hv) as [_ Hnot]. apply Hnot. left. now symmetry.
      * intros v [<-|Hv].
        -- split; [now left|]. intros H.
           apply ValidatorFacts.mem_In in H. congruence.
        -- destruct (Hin v Hv) as [H1 H2]. split; [now right|].
           intros H. apply H2. now right.
Qed.

(** X14: no two universities of the result have the same name up to letter
    case. *)
Theorem extracted_names_distinct anchors :
  NoDup (map (fun u => lower (uni_name u))
             (extract_universities_from_wikipedia anchors)).
Proof. apply dedupe_keys. Qed.

Lemma university_of_sound a u :
  university_of a = Some u ->
  exists href,
    la_href a = Some href
    /\ startswith href "/wiki/" = true
    /\ uni_name u = strip is_space (la_text a)
    /\ uni_name u <> EmptyString
    /\ uni_url u = Some (wikipedia ++ href)%string
    /\ uni_kind u = None
    /\ contains_any university_keywords (lower (uni_name u)) = true
    /\ contains_any excluded_tokens (lower (uni_name u)) = false.
Proof.
  unfold university_of. set (name := strip is_space (la_text a)).
  destruct (la_href a) as [href|]; [|discriminate].
  destruct (String.eqb name EmptyString) eqn:En; cbn [orb negb];
    [discriminate|].
  destruct (String.eqb href EmptyString) eqn:Eh; cbn [orb negb];
    [discriminate|].
  destruct (startswith href "#") eqn:E1; cbn [orb negb]; [discriminate|].
  destruct (startswith href "/wiki/") eqn:Ew; cbn [orb negb];
    [|discriminate].
  destruct (contains_any excluded_tokens (lower name)) eqn:Ex;
    [discriminate|].
  destruct (contains_any university_keywords (lower name)) eqn:Ek;
    cbn [orb negb]; [|discriminate].
  intros [= <-]. exists href. cbn [uni_name uni_url uni_kind].
  repeat split; try assumption. now apply String.eqb_neq.
Qed.

(** X15: every university of the result stands for an anchor of the page
    whose link is an article path [/wiki/...]: its name is the stripped
    text of the anchor, is not empty, holds an institution keyword and none
    of the excluded tokens; its URL is the Wikipedia address of the article;
    its kind is unset. *)
Theorem extracted_university_sound anchors u :
  In u (extract_universities_from_wikipedia anchors) ->
  exists a href,
    In a anchors
    /\ la_href a = Some href
    /\ startswith href "/wiki/" = true
    /\ uni_name u = strip is_space (la_text a)
    /\ uni_name u <> EmptyString
    /\ uni_url u = Some (wikipedia ++ href)%string
    /\ uni_kind u = None
    /\ contains_any university_keywords (lower (uni_name u)) = true
    /\ contains_any excluded_tokens (lower (uni_name u)) = false.
Proof.
  unfold extract_universities_from_wikipedia. intros H.
  apply dedupe_keys in H. destruct H as [H _].
  apply InterpreterExtras.filter_map_In in H. destruct H as (a & Ha & Hu).
  destruct (university_of_sound a u Hu) as (href & Hrest).
  exists a, href. split; [exact Ha | exact Hrest].
Qed.

Lemma extracted_university_sound_witness :
  exists a href,
    In a [mkListAnchor " Anna University " (Some "/wiki/Anna_University")]
    /\ la_href a = Some href
    /\ startswith href "/wiki/" = true
    /\ "Anna University"%string = strip is_space (la_text a)
    /\ "Anna University"%string <> EmptyString
    /\ Some "https://en.wikipedia.org/wiki/Anna_University"%string
       = Some (wikipedia ++ href)%string
    /\ @None string = None
    /\ contains_any university_keywords (lower "Anna University") = true
    /\ contains_any excluded_tokens (lower "Anna University") = false.
Proof.
  apply (extracted_university_sound
           [mkListAnchor " Anna University " (Some "/wiki/Anna_University")]
           (mkUniversity "Anna University"
              (Some "https://en.wikipedia.org/wiki/Anna_University") None)).
  vm_compute. left. reflexivity.
Defined.

Lemma first_named_dedupe key universities : forall seen,
  first_named key (dedupe seen universities)
  = if mem key seen then None else first_named key universities.
Proof.
  induction universities as [|u rest IH]; intros seen; simpl.
  - now destruct (mem key seen).
  - destruct (mem (lower (uni_name u)) seen) eqn:Em.
    + rewrite IH. destruct (mem key seen) eqn:Ek; [reflexivity|].
      destruct (String.eqb_spec (lower (uni_name u)) key) as [E|_];
        [congruence | reflexivity].
    + simpl. rewrite IH. simpl.
      destruct (String.eqb_spec (lower (uni_name u)) key) as [E|E].
      * subst key. now rewrite Em.
      * assert (String.eqb key (lower (uni_name u)) = false) as ->
            by (apply String.eqb_neq; congruence).
        reflexivity.
Qed.

(** X16: deduplication loses no name and keeps the first bearer of each:
    under every lower-cased name, the result holds the first university of
    the page that passes the filters with that name. *)
Theorem first_of_each_name_kept anchors key :
  first_named key (extract_universities_from_wikipedia anchors)
  = first_named key (Interpreter.filter_map university_of anchors).
Proof.
  unfold extract_universities_from_wikipedia.
  now rewrite first_named_dedupe.
Qed.

End LinkExtras.

(** ** More on the Site Crawler *)

Module CrawlerExtras.

Import Text Interpreter Crawler Notions.

Section Explore.

Variable fetch : string -> option string.
Variable BeautifulSoup : string -> Soup.
Variable base_url : string.

Local Abbreviation loop := (loop fetch BeautifulSoup).
Local Abbreviation loop_body := (loop_body fetch BeautifulSoup base_url).
Local Abbreviation page_result := (page_result fetch BeautifulSoup).

(** A property of the state that every pass keeps holds when the loop
    ends. *)
Lemma loop_invariant (P : State -> Prop) :
  (forall st st', loop_condition st = true -> P st ->
                  loop_body st = Next st' -> P st') ->
  (forall st result st', loop_condition st = true -> P st ->
                         loop_body st = Break result st' -> P st') ->
  forall fuel st results st',
    P st -> loop fuel base_url st = Some (results, st') -> P st'.
Proof.
  intros Hnext Hbreak. induction fuel as [|fuel IH]; intros st results st' HP;
    simpl; [discriminate|].
  destruct (loop_condition st) eqn:Hc.
  - destruct (Crawler.loop_body fetch BeautifulSoup base_url st)
      as [st1|result st1] eqn:Hb.
    + intros H. apply (IH st1 results st'); [|exact H].
      now apply (Hnext st st1).
    + intros [= <- <-]. now apply (Hbreak st result st1).
  - now intros [= <- <-].
Qed.

(** What one pass does to the record of the fetches: nothing, or one more
    URL, taken from the queue. *)
Lemma loop_body_fetched st :
  match loop_body st with
  | Next st' | Break _ st' =>
      fetched st' = fetched st
      \/ exists url, In url (to_visit st) /\ fetched st' = fetched st ++ [url]
  end.
Proof.
  unfold Crawler.loop_body. destruct (to_visit st) as [|url queue]; [now left|].
  destruct (mem url (visited st)); [now left|].
  assert (exists u, In u (url :: queue)
                    /\ fetched st ++ [url] = fetched st ++ [u]) as H
      by (exists url; split; [now left | reflexivity]).
  destruct (fetch url) as [html|]; [|now right].
  destruct (String.eqb html EmptyString); [now right|].
  destruct (try_parse_grading_table (BeautifulSoup html)); now right.
Qed.

Lemma fetched_grows homepage_url :
  forall fuel st results st',
    (exists rest, fetched st = homepage_url :: rest) ->
    loop fuel base_url st = Some (results, st') ->
    exists rest, fetched st' = homepage_url :: rest.
Proof.
  apply (loop_invariant
           (fun st => exists rest, fetched st = homepage_url :: rest)).
  - intros st st' _ (rest & Hrest) Hb.
    pose proof (loop_body_fetched st) as H. rewrite Hb in H.
    destruct H as [->|(url & _ & ->)]; rewrite Hrest; eauto.
    exists (rest ++ [url]). reflexivity.
  - intros st result st' _ (rest & Hrest) Hb.
    pose proof (loop_body_fetched st) as H. rewrite Hb in H.
    destruct H as [->|(url & _ & ->)]; rewrite Hrest; eauto.
    exists (rest ++ [url]). reflexivity.
Qed.

Lemma followed_link_more log log' u :
  (forall p, In p log -> In p log') ->
  followed_link fetch BeautifulSoup base_url log u ->
  followed_link fetch BeautifulSoup base_url log' u.
Proof.
  intros Hsub (page & html & a & Hp & Hrest).
  exists page, html, a. split; [now apply Hsub | exact Hrest].
Qed.

(** Every URL in the queue or among the fetches is the homepage or was
    queued from a fetched page. *)
Definition traced (homepage_url : string) (st : State) : Prop :=
  forall u, In u (to_visit st) \/ In u (fetched st) ->
            u = homepage_url
            \/ followed_link fetch BeautifulSoup base_url (fetched st) u.

Lemma traced_kept homepage_url st :
  traced homepage_url st ->
  match loop_body st with
  | Next st' | Break _ st' => traced homepage_url st'
  end.
Proof.
  intros Ht. unfold Crawler.loop_body.
  destruct (to_visit st) as [|url queue] eqn:Eq; [exact Ht|].
  assert (forall u, In u queue \/ In u (fetched st ++ [url]) ->
                    u = homepage_url
                    \/ followed_link fetch BeautifulSoup base_url
                         (fetched st ++ [url]) u) as Hpop.
  { intros u Hu.
    assert (In u (to_visit st) \/ In u (fetched st)) as Hu'.
    { rewrite Eq. destruct Hu as [Hu|Hu]; [left; now right|].
      apply in_app_or in Hu. destruct Hu as [Hu|[<-|[]]];
        [now right | left; now left]. }
    destruct (Ht u Hu') as [->|Hl]; [now left | right].
    apply (followed_link_more (fetched st)); [|exact Hl].
    intros p Hp. apply in_or_app. now left. }
  destruct (mem url (visited st)).
  - intros u Hu. apply Ht. rewrite Eq. simpl in Hu.
    destruct Hu as [Hu|Hu]; [left; now right | now right].
  - destruct (fetch url) as [html|] eqn:Ef; [|exact Hpop].
    destruct (String.eqb html EmptyString) eqn:Ee; [exact Hpop|].
    destruct (try_parse_grading_table (BeautifulSoup html)); [exact Hpop|].
    intros u Hu. cbn [to_visit fetched] in Hu.
    destruct Hu as [Hu|Hu]; [|apply Hpop; now right].
    apply in_app_or in Hu. destruct Hu as [Hu|Hu]; [apply Hpop; now left|].
    right. unfold likely_links in Hu.
    apply InterpreterExtras.filter_map_In in Hu.
    destruct Hu as (a & Ha & Hlink).
    exists url, html, a. cbn [fetched]. repeat split; try assumption.
    + apply in_or_app. right. now left.
    + now apply String.eqb_neq.
Qed.

Lemma traced_at_end homepage_url :
  forall fuel st results st',
    traced homepage_url st ->
    loop fuel base_url st = Some (results, st') -> traced homepage_url st'.
Proof.
  apply loop_invariant.
  - intros st st' _ Ht Hb. pose proof (traced_kept homepage_url st Ht) as H.
    now rewrite Hb in H.
  - intros st result st' _ Ht Hb.
    pose proof (traced_kept homepage_url st Ht) as H. now rewrite Hb in H.
Qed.

End Explore.

Lemma likely_link_shape base_url a u :
  likely_link base_url a = Some u -> link_shape base_url a u.
Proof.
  unfold likely_link, link_shape.
  destruct (String.eqb (href a) EmptyString); [discriminate|].
  destruct (existsb _ key_patterns) eqn:Ek.
  2:{ destruct (startswith (href a) "/"); [discriminate|].
      destruct (startswith (href a) "http://" || startswith (href a) "https://");
        discriminate. }
  apply existsb_exists in Ek. destruct Ek as (k & Hk & Hc).
  apply orb_prop in Hc. intros H. split; [now exists k|].
  destruct (startswith (href a) "/") eqn:E1.
  - injection H as <-. now left.
  - destruct (startswith (href a) "http://") eqn:E2;
      destruct (startswith (href a) "https://") eqn:E3;
      cbn [orb] in H; try discriminate; injection H as <-; right; auto.
Qed.

(** X17: the first URL the exploration fetches is the homepage.  When the
    homepage holds a grading table, that is the result and nothing else is
    fetched; when the homepage does not load, the result is absent and
    nothing else is fetched. *)
Theorem homepage_fetched_first fetch BeautifulSoup fuel homepage_url
        results log :
  find_and_parse_grading fetch BeautifulSoup fuel homepage_url
  = Some (results, log) ->
  (exists rest, log = homepage_url :: rest)
  /\ (forall result,
        page_result fetch BeautifulSoup homepage_url = Some result ->
        results = Some result /\ log = [homepage_url])
  /\ (fetch homepage_url = None \/ fetch homepage_url = Some EmptyString ->
      results = None /\ log = [homepage_url]).
Proof.
  unfold find_and_parse_grading.
  set (base := base_url_of homepage_url).
  destruct (loop fetch BeautifulSoup fuel base
              (mkState [homepage_url] [] [])) as [[r st]|] eqn:Hloop;
    [|discriminate].
  intros [= <- <-]. destruct fuel as [|fuel]; [discriminate|].
  cbn [loop] in Hloop.
  change (loop_condition (mkState [homepage_url] [] [])) with true in Hloop.
  unfold loop_body, page_result in *. cbn [to_visit visited fetched] in Hloop.
  change (mem homepage_url []) with false in Hloop.
  cbn [app] in Hloop.
  assert (forall queue, loop fetch BeautifulSoup fuel base
                          (mkState queue [homepage_url] [homepage_url])
                        = Some (r, st) ->
                        exists rest, fetched st = homepage_url :: rest)
    as Hgrow.
  { intros queue H.
    refine (fetched_grows fetch BeautifulSoup base homepage_url fuel _ _ _
              _ H).
    now exists []. }
  assert (loop fetch BeautifulSoup fuel base
            (mkState [] [homepage_url] [homepage_url]) = Some (r, st) ->
          r = None /\ fetched st = [homepage_url]) as Hstop.
  { destruct fuel; [discriminate|]. simpl. now intros [= <- <-]. }
  destruct (fetch homepage_url) as [html|] eqn:Ef.
  - destruct (String.eqb html EmptyString) eqn:Ee.
    + apply String.eqb_eq in Ee. subst html.
      destruct (Hstop Hloop) as [-> ->].
      split; [now exists []|]. split; [discriminate | now intros _].
    + destruct (try_parse_grading_table (BeautifulSoup html)) as [result|]
        eqn:Ep.
      * injection Hloop as <- <-. cbn [fetched].
        split; [now exists []|]. split.
        -- now intros ? [= <-].
        -- intros [H|H]; [discriminate|]. injection H as ->.
           discriminate.
      * split; [exact (Hgrow _ Hloop)|]. split; [discriminate|].
        intros [H|H]; [discriminate|]. injection H as ->. discriminate.
  - destruct (Hstop Hloop) as [-> ->].
    split; [now exists []|]. split; [discriminate | now intros _].
Qed.

Lemma homepage_fetched_first_witness :
  (exists rest,
      ["https://u.example/"; "https://u.example/regulations";
       "https://u.example/academics"]%string
      = "https://u.example/"%string :: rest)
  /\ (forall result,
        page_result Samples.site_fetch Samples.site_parser
                    "https://u.example/" = Some result ->
        Some (4%float, Samples.four_point_rows) = Some result
        /\ ["https://u.example/"; "https://u.example/regulations";
            "https://u.example/academics"]%string
           = ["https://u.example/"%string])
  /\ (Samples.site_fetch "https://u.example/" = None
      \/ Samples.site_fetch "https://u.example/" = Some EmptyString ->
      Some (4%float, Samples.four_point_rows) = None
      /\ ["https://u.example/"; "https://u.example/regulations";
          "https://u.example/academics"]%string
         = ["https://u.example/"%string]).
Proof.
  apply (homepage_fetched_first Samples.site_fetch Samples.site_parser 10
           "https://u.example/"
           (Some (4%float, Samples.four_point_rows))
           ["https://u.example/"; "https://u.example/regulations";
            "https://u.example/academics"]%string).
  vm_compute. reflexivity.
Defined.

(** X18: every URL the exploration fetches is the homepage or was queued
    from a page fetched in the same exploration, which loaded: one of the
    anchors of that page has a keyword in its text or target, and a target
    that is a path from the root, resolved against the base of the homepage
    URL, or an absolute [http(s)] address. *)
Theorem fetched_urls_traced fetch BeautifulSoup fuel homepage_url
        results log :
  find_and_parse_grading fetch BeautifulSoup fuel homepage_url
  = Some (results, log) ->
  forall u, In u log ->
    u = homepage_url
    \/ exists page html a,
         In page log
         /\ fetch page = Some html
         /\ html <> EmptyString
         /\ In a (anchors (BeautifulSoup html))
         /\ link_shape (base_url_of homepage_url) a u.
Proof.
  unfold find_and_parse_grading.
  destruct (loop fetch BeautifulSoup fuel (base_url_of homepage_url)
              (mkState [homepage_url] [] [])) as [[r st]|] eqn:Hloop;
    [|discriminate].
  intros [= <- <-] u Hu.
  assert (traced fetch BeautifulSoup (base_url_of homepage_url) homepage_url
            (mkState [homepage_url] [] [])) as H0.
  { intros v [[<-|[]]|[]]. now left. }
  pose proof (traced_at_end fetch BeautifulSoup _ homepage_url fuel _ _ _
                H0 Hloop u (or_intror Hu)) as [->|Hl]; [now left | right].
  destruct Hl as (page & html & a & Hp & Hf & Hne & Ha & Hlink).
  exists page, html, a.
  split; [exact Hp|]. split; [exact Hf|]. split; [exact Hne|].
  split; [exact Ha|]. now apply likely_link_shape.
Qed.

Lemma fetched_urls_traced_witness :
  "https://u.example/academics"%string = "https://u.example/"%string
  \/ exists page html a,
       In page ["https://u.example/"; "https://u.example/regulations";
                "https://u.example/academics"]%string
       /\ Samples.site_fetch page = Some html
       /\ html <> EmptyString
       /\ In a (anchors (Samples.site_parser html))
       /\ link_shape (base_url_of "https://u.example/") a
                      "https://u.example/academics".
Proof.
  apply (fetched_urls_traced Samples.site_fetch Samples.site_parser 10
           "https://u.example/"
           (Some (4%float, Samples.four_point_rows))
           ["https://u.example/"; "https://u.example/regulations";
            "https://u.example/academics"]%string).
  - vm_compute. reflexivity.
  - simpl. right. right. left. reflexivity.
Defined.

End CrawlerExtras.

(** ** The base of a homepage URL *)

Module BaseUrlExtras.

Import Text Re Crawler Notions TextFacts TextMore.

Local Open Scope string_scope.

Lemma drop_prefix_spec l : forall s rest,
  drop_prefix l s = Some rest <-> s = l ++ rest.
Proof.
  induction l as [|a l IH]; intros s rest; simpl.
  - split; [now intros [= ->] | now intros ->].
  - destruct s as [|b s]; [split; discriminate|].
    destruct (Ascii.eqb a b) eqn:E.
    + apply Ascii.eqb_eq in E. subst b. rewrite IH.
      split; [now intros -> | now intros [= ->]].
    + apply Ascii.eqb_neq in E. split; [discriminate|].
      intros [= <- _]. now elim E.
Qed.

(** A literal consumes itself and nothing else. *)
Lemma run_lit l : forall prev s,
  exists prev', forall (A : Type) (k : option ascii -> string -> option A),
    run (lit l) prev s k
    = match drop_prefix l s with
      | Some rest => k prev' rest
      | None => None
      end.
Proof.
  induction l as [|a l IH]; intros prev s.
  - exists prev. reflexivity.
  - destruct s as [|b s]; [exists prev; reflexivity|].
    destruct (IH (Some b) s) as (prev' & H). exists prev'. intros A k.
    simpl. destruct (Ascii.eqb a b); [apply H | reflexivity].
Qed.

(** A starred class takes all it can when what follows always matches. *)
Lemma star_cls_greedy p s : forall prev,
  run (Star (Cls p)) prev s (fun _ rest => Some rest) = Some (lstrip p s).
Proof.
  induction s as [|c s IH]; intros prev; [reflexivity|].
  assert (run (Star (Cls p)) prev (String c s) (fun _ rest => Some rest)
          = match (if p c
                   then if (String.length s <? S (String.length s))%nat
                        then run (Star (Cls p)) (Some c) s
                               (fun _ rest => Some rest)
                        else None
                   else None) with
            | Some x => Some x
            | None => Some (String c s)
            end) as -> by reflexivity.
  simpl lstrip. destruct (p c); [|reflexivity].
  rewrite (proj2 (Nat.ltb_lt _ _)) by apply Nat.lt_succ_diag_r.
  now rewrite IH.
Qed.

Lemma run_after_host prev t :
  run (Cat (lit "://") (plus (none_of (Ascii.eqb "/")))) prev t
      (fun _ rest => Some rest)
  = after_host t.
Proof.
  destruct (run_lit "://" prev t) as (prev' & H).
  change (run (Cat (lit "://") (plus (none_of (Ascii.eqb "/")))) prev t
            (fun _ rest => Some rest))
    with (run (lit "://") prev t
            (fun prev1 s1 =>
               run (plus (none_of (Ascii.eqb "/"))) prev1 s1
                   (fun _ rest => Some rest))).
  rewrite H. unfold after_host.
  destruct (drop_prefix "://" t) as [[|c u]|]; try reflexivity.
  change (run (plus (none_of (Ascii.eqb "/"))) prev' (String c u)
            (fun _ rest => Some rest))
    with (if not_slash c
          then run (Star (Cls not_slash)) (Some c) u (fun _ rest => Some rest)
          else None).
  now rewrite star_cls_greedy.
Qed.

(** What [re.match(r"https?://[^/]+", s)] leaves of [s]. *)
Lemma match_re_base s :
  match_prefix re_base s
  = match drop_prefix "http" s with
    | None => None
    | Some t =>
        match match t with
              | String c t' => if Ascii.eqb "s" c then after_host t' else None
              | EmptyString => None
              end with
        | Some rest => Some rest
        | None => after_host t
        end
    end.
Proof.
  unfold match_prefix, re_base.
  destruct (run_lit "http" None s) as (prev' & H).
  change (run (Cat (lit "http") ?r) None s ?k)
    with (run (lit "http") None s (fun prev1 s1 => run r prev1 s1 k)).
  rewrite H. destruct (drop_prefix "http" s) as [t|]; [|reflexivity].
  change (run (Cat (opt (chr "s")) ?r) prev' t ?k)
    with (match run (chr "s") prev' t (fun prev1 s1 => run r prev1 s1 k) with
          | Some x => Some x
          | None => run r prev' t k
          end).
  rewrite run_after_host.
  destruct t as [|c t']; [reflexivity|].
  change (run (chr "s") prev' (String c t') ?k)
    with (if Ascii.eqb "s" c then k (Some c) t' else None).
  destruct (Ascii.eqb "s" c); [|reflexivity].
  now rewrite run_after_host.
Qed.

Lemma lstrip_split p s :
  exists taken, s = taken ++ lstrip p s /\ all_chars p taken = true.
Proof.
  induction s as [|c s (taken & Hs & Ht)]; [now exists ""|].
  simpl. destruct (p c) eqn:E; [|now exists ""].
  exists (String c taken). simpl. rewrite E, Ht. split; [now f_equal | reflexivity].
Qed.

Lemma after_host_sound t rest :
  after_host t = Some rest ->
  exists host, host <> ""
               /\ all_chars not_slash host = true
               /\ t = "://" ++ host ++ rest
               /\ (rest = "" \/ first_char rest = Some "/"%char).
Proof.
  unfold after_host. destruct (drop_prefix "://" t) as [[|c u]|] eqn:Ed;
    try discriminate.
  destruct (not_slash c) eqn:Ec; [|discriminate]. intros [= <-].
  apply drop_prefix_spec in Ed.
  destruct (lstrip_split not_slash u) as (taken & Hu & Ht).
  exists (String c taken). split; [discriminate|]. split; [|split].
  - simpl. now rewrite Ec, Ht.
  - rewrite Ed. simpl. now rewrite <- Hu.
  - destruct (lstrip not_slash u) as [|x v] eqn:El; [now left | right].
    assert (not_slash x = false) as Hx
        by (apply (first_char_lstrip not_slash u); now rewrite El).
    unfold not_slash in Hx. apply negb_false_iff, Ascii.eqb_eq in Hx.
    now subst x.
Qed.

Lemma after_host_complete host rest :
  host <> "" -> all_chars not_slash host = true ->
  after_host ("://" ++ host ++ rest) <> None.
Proof.
  intros Hne Hall. unfold after_host.
  rewrite (proj2 (drop_prefix_spec "://" _ (host ++ rest)) eq_refl).
  destruct host as [|c host]; [now elim Hne|]. simpl in *.
  apply andb_prop in Hall. destruct Hall as [-> _]. discriminate.
Qed.

Lemma length_append a b :
  String.length (a ++ b) = (String.length a + String.length b)%nat.
Proof. induction a as [|c a IH]; simpl; [reflexivity | now rewrite IH]. Qed.

Lemma group0_front front rest : group0 (front ++ rest, rest) = front.
Proof.
  unfold group0. rewrite length_append, Nat.add_sub.
  induction front as [|c front IH]; simpl.
  - now destruct rest.
  - now rewrite IH.
Qed.

(** X19: the base URL of a homepage URL that begins with a scheme and a
    host, [http(s)://host], is that beginning, the host running up to the
    first slash or to the end; the base URL of any other homepage URL is
    the homepage URL itself. *)
Theorem base_url_shape homepage_url :
  (exists rest, homepage_url = base_url_of homepage_url ++ rest
                /\ site_root (base_url_of homepage_url) rest)
  \/ (base_url_of homepage_url = homepage_url
      /\ forall base rest, homepage_url = base ++ rest ->
                           site_root base rest -> False).
Proof.
  unfold base_url_of. rewrite match_re_base.
  assert (forall scheme t rest,
             after_host t = Some rest ->
             homepage_url = scheme ++ t ->
             scheme = "http" \/ scheme = "https" ->
             exists rest0,
               homepage_url = group0 (homepage_url, rest) ++ rest0
               /\ site_root (group0 (homepage_url, rest)) rest0) as Hyes.
  { intros scheme t rest Ha Hs Hscheme.
    destruct (after_host_sound t rest Ha) as (host & Hne & Hall & Ht & Hr).
    assert (homepage_url = (scheme ++ "://" ++ host) ++ rest) as Hh.
    { rewrite Hs, Ht. now rewrite !append_assoc. }
    exists rest. rewrite Hh at 2 3. rewrite group0_front.
    split; [exact Hh|]. now exists scheme, host. }
  destruct (drop_prefix "http" homepage_url) as [t|] eqn:Ed.
  - apply drop_prefix_spec in Ed.
    destruct t as [|c t'].
    + right. split; [reflexivity|].
      intros base rest Hh (scheme & host & Hs & Hne & _ & -> & _).
      rewrite Ed in Hh. destruct host; [now elim Hne|].
      destruct Hs as [-> | ->]; discriminate.
    + destruct (Ascii.eqb "s" c) eqn:Ec.
      * apply Ascii.eqb_eq in Ec. subst c.
        destruct (after_host t') as [rest|] eqn:Ea.
        -- left. apply (Hyes "https" t' rest Ea); [exact Ed | now right].
        -- assert (after_host (String "s" t') = None) as -> by reflexivity.
           right. split; [reflexivity|].
           intros base rest Hh (scheme & host & Hs & Hne & Hall & -> & _).
           rewrite Ed in Hh. destruct Hs as [-> | ->].
           ++ discriminate.
           ++ rewrite !append_assoc in Hh. injection Hh as ->.
              now apply (after_host_complete host rest Hne Hall).
      * destruct (after_host (String c t')) as [rest|] eqn:Ea.
        -- left. apply (Hyes "http" (String c t') rest Ea); [exact Ed | now left].
        -- right. split; [reflexivity|].
           intros base rest Hh (scheme & host & Hs & Hne & Hall & -> & _).
           rewrite Ed in Hh. destruct Hs as [-> | ->].
           ++ rewrite !append_assoc in Hh. injection Hh as -> ->.
              now apply (after_host_complete host rest Hne Hall).
           ++ rewrite !append_assoc in Hh. injection Hh as Hc _.
              apply Ascii.eqb_neq in Ec. now elim Ec.
  - right. split; [reflexivity|].
    intros base rest Hh (scheme & host & Hs & _ & _ & -> & _).
    assert (drop_prefix "http" homepage_url <> None) as Hd; [|now elim Hd].
    rewrite Hh. destruct Hs as [-> | ->]; simpl; discriminate.
Qed.

End BaseUrlExtras.

(** ** The command line *)

Module CliExtras.

Import Merger ById MergerFacts Cli.

Local Open Scope string_scope.







(** On [Samples.catalog_huge_scale] the same run exits with 1 and writes
    nothing. *)
Example countries_run_on_huge_scale :
  main "2024-06-01" ["crawl_india_grading.py"; "--countries"]
       (Loaded Samples.catalog_huge_scale) [] []
  = mkOutcome 1 None.
Proof. vm_compute. reflexivity. Qed.



End CliExtras.

(** ** The two crawls *)

Module CrawlsExtras.

Import Text Re Interpreter Crawler LinkExtractor Crawls Notions.
Import TextFacts TextMore BaseUrlExtras.

Local Open Scope string_scope.

Lemma prefix_split p : forall s,
  String.prefix p s = true -> exists rest, s = p ++ rest.
Proof.
  induction p as [|a p IH]; intros s H; [now exists s|].
  destruct s as [|b s]; [discriminate|]. simpl in H.
  destruct (Ascii.ascii_dec a b) as [<-|]; [|discriminate].
  destruct (IH s H) as (rest & ->). now exists rest.
Qed.

Lemma drop_prefix_i_spec l : forall s rest,
  drop_prefix_i l s = Some rest ->
  exists head, s = head ++ rest /\ lower head = lower l.
Proof.
  induction l as [|a l IH]; intros s rest; simpl.
  - intros [= ->]. now exists "".
  - destruct s as [|b s]; [discriminate|].
    destruct (same_letter a b) eqn:E; [|discriminate]. intros H.
    destruct (IH s rest H) as (head & -> & Hl).
    exists (String b head). split; [reflexivity|]. simpl.
    apply Ascii.eqb_eq in E. now rewrite E, Hl.
Qed.

Lemma run_lit_i l : forall prev s,
  exists prev', forall (A : Type) (k : option ascii -> string -> option A),
    run (lit_i l) prev s k
    = match drop_prefix_i l s with
      | Some rest => k prev' rest
      | None => None
      end.
Proof.
  induction l as [|a l IH]; intros prev s.
  - exists prev. reflexivity.
  - destruct s as [|b s]; [exists prev; reflexivity|].
    destruct (IH (Some b) s) as (prev' & H). exists prev'. intros A k.
    simpl. destruct (same_letter a b); [apply H | reflexivity].
Qed.

(** What a starred class hands on is what is left after characters of the
    class. *)
Lemma run_star_cls_sound {A} p (k : option ascii -> string -> option A) x s :
  forall prev,
    run (Star (Cls p)) prev s k = Some x ->
    exists taken rest prev',
      s = taken ++ rest /\ all_chars p taken = true /\ k prev' rest = Some x.
Proof.
  induction s as [|c s IH]; intros prev.
  - intros H. now exists "", "", prev.
  - assert (run (Star (Cls p)) prev (String c s) k
            = match (if p c
                     then if (String.length s <? S (String.length s))%nat
                          then run (Star (Cls p)) (Some c) s k
                          else None
                     else None) with
              | Some y => Some y
              | None => k prev (String c s)
              end) as -> by reflexivity.
    destruct (p c) eqn:Ep.
    + rewrite (proj2 (Nat.ltb_lt _ _)) by apply Nat.lt_succ_diag_r.
      destruct (run (Star (Cls p)) (Some c) s k) as [y|] eqn:Er.
      * intros [= ->].
        destruct (IH (Some c) Er) as (taken & rest & prev' & -> & Ht & Hk).
        exists (String c taken), rest, prev'. simpl. now rewrite Ep, Ht.
      * intros H. now exists "", (String c s), prev.
    + intros H. now exists "", (String c s), prev.
Qed.

Lemma line_of_split s :
  exists tail, s = line_of s ++ tail
               /\ all_chars dot_char (line_of s) = true
               /\ (tail = "" \/ first_char tail = Some "010"%char).
Proof.
  induction s as [|c s (tail & Hs & Hall & Ht)]; [exists ""; auto|].
  simpl. destruct (dot_char c) eqn:E.
  - exists tail. simpl. rewrite E, Hall. repeat split; [now f_equal | exact Ht].
  - exists (String c s). repeat split. right. simpl.
    unfold dot_char in E. apply negb_false_iff, Ascii.eqb_eq in E. now subst.
Qed.

Lemma group1_sound kind text g :
  group1 kind text = Some g -> names_country kind text g.
Proof.
  unfold group1.
  destruct (run_lit_i kind None text) as (prev1 & H1).
  change (run (Cat (lit_i kind) ?r) None text ?k)
    with (run (lit_i kind) None text (fun prev s => run r prev s k)).
  rewrite H1. destruct (drop_prefix_i kind text) as [t1|] eqn:E1;
    [|discriminate].
  apply drop_prefix_i_spec in E1. destruct E1 as (head & -> & Hhead).
  change (run (Cat (Star dot) ?r) prev1 t1 ?k)
    with (run (Star (Cls dot_char)) prev1 t1 (fun prev s => run r prev s k)).
  intros H. apply run_star_cls_sound in H.
  destruct H as (middle & t2 & prev2 & -> & Hmid & H).
  destruct (run_lit_i " in " prev2 t2) as (prev3 & H3).
  rewrite H3 in H. destruct (drop_prefix_i " in " t2) as [t3|] eqn:E3;
    [|discriminate].
  apply drop_prefix_i_spec in E3. destruct E3 as (sep & -> & Hsep).
  destruct (line_of_split t3) as (tail & Ht3 & Hall & Htail).
  destruct (line_of t3) as [|c g'] eqn:Eg; [discriminate|].
  injection H as <-.
  exists head, middle, sep, tail. rewrite Ht3 at 1.
  repeat split; try assumption. discriminate.
Qed.

Lemma country_link_sound a link :
  country_link a = Some link ->
  exists kind g,
    startswith (href a) "/wiki/" = true
    /\ fst link = wikipedia ++ href a
    /\ (kind = "List of universities" \/ kind = "List of colleges")
    /\ names_country kind (strip is_space (a_text a)) g
    /\ snd link = strip is_space g.
Proof.
  unfold country_link.
  destruct (String.eqb (strip is_space (a_text a)) "" || String.eqb (href a) "");
    [discriminate|].
  destruct (startswith (href a) "/wiki/"); cbn [negb]; [|discriminate].
  destruct (group1 "List of universities" (strip is_space (a_text a)))
    as [g|] eqn:E1.
  - intros [= <-]. exists "List of universities", g.
    repeat split; auto. now apply group1_sound.
  - destruct (group1 "List of colleges" (strip is_space (a_text a)))
      as [g|] eqn:E2; [|discriminate].
    intros [= <-]. exists "List of colleges", g.
    repeat split; auto. now apply group1_sound.
Qed.

Lemma mem_pair_In key seen : mem_pair key seen = true <-> In key seen.
Proof.
  unfold mem_pair. rewrite existsb_exists. split.
  - intros ((u, c) & Hin & E). apply andb_prop in E. destruct E as [E1 E2].
    apply String.eqb_eq in E1, E2. simpl in E1, E2. destruct key. simpl in *.
    now subst.
  - intros H. exists key. split; [assumption|].
    now rewrite !String.eqb_refl.
Qed.

Lemma dedupe_links_keys links : forall seen,
  NoDup (map link_key (dedupe_links seen links))
  /\ forall link, In link (dedupe_links seen links) ->
                  In link links /\ ~ In (link_key link) seen.
Proof.
  induction links as [|l rest IH]; intros seen; simpl.
  - split; [constructor | intros ? []].
  - destruct (mem_pair (link_key l) seen) eqn:Em.
    + destruct (IH seen) as [Hnd Hin]. split; [exact Hnd|].
      intros v Hv. destruct (Hin v Hv). split; [now right | assumption].
    + destruct (IH (link_key l :: seen)) as [Hnd Hin]. split.
      * simpl. constructor; [|exact Hnd].
        intros H. apply in_map_iff in H. destruct H as (v & Hkey & Hv).
        destruct (Hin v Hv) as [_ Hnot]. apply Hnot. left. now symmetry.
      * intros v [<-|Hv].
        -- split; [now left|]. intros H. apply mem_pair_In in H. congruence.
        -- destruct (Hin v Hv) as [H1 H2]. split; [now right|].
           intros H. apply H2. now right.
Qed.

Lemma base_of_article href :
  startswith href "/wiki/" = true ->
  base_url_of (wikipedia ++ href) = wikipedia.
Proof.
  intros H. apply prefix_split in H. destruct H as (rest & ->).
  unfold base_url_of. rewrite match_re_base.
  assert (match drop_prefix "http" (wikipedia ++ "/wiki/" ++ rest) with
          | None => None
          | Some t =>
              match match t with
                    | String c t' =>
                        if Ascii.eqb "s" c then after_host t' else None
                    | EmptyString => None
                    end with
              | Some r => Some r
              | None => after_host t
              end
          end = Some ("/wiki/" ++ rest)) as -> by reflexivity.
  apply group0_front.
Qed.

(** X22: every university the Link Extractor returns is explored by either
    crawl, none is passed over for want of a URL; the exploration starts at
    the Wikipedia article of the university, and the base URL against which
    it resolves the links of a page is [https://en.wikipedia.org]. *)
Theorem crawls_start_at_wikipedia anchors u :
  In u (extract_universities_from_wikipedia anchors) ->
  exists href,
    startswith href "/wiki/" = true
    /\ base_url_of (wikipedia ++ href) = wikipedia
    /\ forall fetch BeautifulSoup fuel,
         process_uni fetch BeautifulSoup fuel u
         = appended fetch BeautifulSoup fuel (wikipedia ++ href)
             (normalize_system (uni_name u) "India" "South Asia")
         /\ forall country,
              process_world_uni fetch BeautifulSoup fuel country u
              = appended fetch BeautifulSoup fuel (wikipedia ++ href)
                  (world_system (uni_name u) country).
Proof.
  unfold extract_universities_from_wikipedia. intros H.
  apply LinkExtras.dedupe_keys in H. destruct H as [H _].
  apply InterpreterExtras.filter_map_In in H. destruct H as (a & _ & Hu).
  destruct (LinkExtras.university_of_sound a u Hu)
    as (href & _ & Hw & _ & _ & Hurl & _).
  exists href. split; [exact Hw|]. split; [now apply base_of_article|].
  intros fetch BeautifulSoup fuel. unfold process_uni, process_world_uni.
  rewrite Hurl. split; reflexivity.
Qed.

Lemma crawls_start_at_wikipedia_witness :
  exists href,
    startswith href "/wiki/" = true
    /\ base_url_of (wikipedia ++ href) = wikipedia
    /\ forall fetch BeautifulSoup fuel,
         process_uni fetch BeautifulSoup fuel
           (mkUniversity "Anna University"
              (Some "https://en.wikipedia.org/wiki/Anna_University") None)
         = appended fetch BeautifulSoup fuel (wikipedia ++ href)
             (normalize_system "Anna University" "India" "South Asia")
         /\ forall country,
              process_world_uni fetch BeautifulSoup fuel country
                (mkUniversity "Anna University"
                   (Some "https://en.wikipedia.org/wiki/Anna_University")
                   None)
              = appended fetch BeautifulSoup fuel (wikipedia ++ href)
                  (world_system "Anna University" country).
Proof.
  apply (crawls_start_at_wikipedia
           [mkListAnchor " Anna University " (Some "/wiki/Anna_University")]
           (mkUniversity "Anna University"
              (Some "https://en.wikipedia.org/wiki/Anna_University") None)).
  vm_compute. left. reflexivity.
Defined.

(** X23: every link the world crawl collects from the index page stands for
    an anchor of the page with an article path [/wiki/...]: its URL is the
    Wikipedia address of the article, and its country is the stripped end of
    the line of the anchor text that reads, up to letter case,
    [List of universities] or [List of colleges], anything, [ in ] and the
    country. *)
Theorem country_link_origin anchors url country :
  In (url, country) (country_links anchors) ->
  exists a kind g,
    In a anchors
    /\ startswith (href a) "/wiki/" = true
    /\ url = wikipedia ++ href a
    /\ (kind = "List of universities" \/ kind = "List of colleges")
    /\ names_country kind (strip is_space (a_text a)) g
    /\ country = strip is_space g.
Proof.
  unfold country_links. intros H.
  apply dedupe_links_keys in H. destruct H as [H _].
  apply InterpreterExtras.filter_map_In in H. destruct H as (a & Ha & Hl).
  destruct (country_link_sound a _ Hl) as (kind & g & Hw & Hu & Hk & Hn & Hc).
  exists a, kind, g. repeat split; assumption.
Qed.

Lemma country_link_origin_witness :
  exists a kind g,
    In a [mkAnchor "/wiki/List_of_universities_in_Nepal"
                   " List of universities and colleges in Nepal "]
    /\ startswith (href a) "/wiki/" = true
    /\ "https://en.wikipedia.org/wiki/List_of_universities_in_Nepal"
       = wikipedia ++ href a
    /\ (kind = "List of universities" \/ kind = "List of colleges")
    /\ names_country kind (strip is_space (a_text a)) g
    /\ "Nepal" = strip is_space g.
Proof.
  apply (country_link_origin
           [mkAnchor "/wiki/List_of_universities_in_Nepal"
                     " List of universities and colleges in Nepal "]).
  vm_compute. left. reflexivity.
Defined.

(** X24: no two links the world crawl keeps have the same URL and the same
    country up to letter case. *)
Theorem country_links_distinct anchors :
  NoDup (map link_key (country_links anchors)).
Proof. apply dedupe_links_keys. Qed.

End CrawlsExtras.
